(** * PR review metrics: the aggregation engine, embedded and verified

    Shallow embedding of the pure computations of the collector script
    (collect-metrics.js, in the version that computes working hours and
    churn) and of the dashboard helpers (dashboard/lib/utils.ts).

    Conventions of the embedding.
    - A JavaScript number that holds a count or a line total is a [Z];
      a number that holds hours, an average or a percentage is the
      rational [Q] that the double denotes.  The arithmetic of
      calculateChurnMetrics, of calculateQualityScore and of the means
      that the dashboard's highlight functions take is performed in double
      precision ([JS.double] rounds every result to the nearest double);
      the sums and quotients of hours of the other functions are exact.
    - An ISO timestamp string is represented by the time value of
      [new Date(ts)], in milliseconds, shifted to local wall-clock time:
      0 is local midnight of Thursday 1970-01-01.  The local time zone has a
      fixed offset (no daylight-saving transition inside an interval), so a
      calendar day is always [MS_PER_DAY] long.
    - A value that may be [null] or [undefined] is an [option].
    - A string produced by [toFixed] is represented by the rational it
      denotes.
    - A JS [Map] iterated in insertion order is an association list;
      a [Set] is a [gset]; an object used as a dictionary is a [gmap]. *)

From Stdlib Require Import ZArith QArith Qround Qminmax Qpower Qabs Lia Lqa.
From Stdlib Require Import Sorted.
From stdpp Require Import base list gmap strings.
From Equations Require Import Equations.

Local Open Scope Z_scope.

(** ** JavaScript primitives used by both sources *)

Module JS.

(** [Math.round]: the nearest integer, ties towards +infinity. *)
Definition Math_round (x : Q) : Z := Qfloor (x + (1 # 2)).

Definition pow10 (digits : nat) : Z := 10 ^ Z.of_nat digits.

(** [x.toFixed(digits)]: the nearest multiple of 10^-digits, ties away
    from zero (the sign is split off first, as in the language
    definition). *)
Definition toFixed (digits : nat) (x : Q) : Q :=
  let scale := inject_Z (pow10 digits) in
  if Qle_bool 0 x
  then inject_Z (Qfloor (x * scale + (1 # 2))) / scale
  else - (inject_Z (Qfloor ((- x) * scale + (1 # 2))) / scale).

(** Truthiness of a number: only 0 is falsy (NaN does not arise). *)
Definition truthyQ (x : Q) : bool := negb (Qeq_bool x 0).
Definition truthyZ (x : Z) : bool := negb (x =? 0).

(** Truthiness of a string: only the empty string is falsy. *)
Definition truthyString (s : string) : bool :=
  match s with EmptyString => false | String _ _ => true end.

(** Truthiness of an optional string ([undefined] and [null] are falsy). *)
Definition truthyOptString (o : option string) : bool :=
  match o with Some s => truthyString s | None => false end.

(** [a || d] on an optional number. *)
Definition orZ (o : option Z) (d : Z) : Z :=
  match o with Some x => if truthyZ x then x else d | None => d end.
Definition orQ (o : option Q) (d : Q) : Q :=
  match o with Some x => if truthyQ x then x else d | None => d end.

(** [s.includes(pat)] *)
Fixpoint includes (pat s : string) : bool :=
  String.prefix pat s
  || match s with
     | EmptyString => false
     | String _ s' => includes pat s'
     end.

(** [s.endsWith(suffix)] *)
Definition endsWith (suffix s : string) : bool :=
  let n := String.length s in
  let k := String.length suffix in
  (k <=? n)%nat && String.eqb (String.substring (n - k) k s) suffix.

(** [arr.sort(cmp)]: a stable sort; [le x y] stands for [cmp(x, y) <= 0]. *)
Fixpoint insertSorted {A} (le : A -> A -> bool) (x : A) (l : list A) : list A :=
  match l with
  | [] => [x]
  | y :: l' => if le x y then x :: l else y :: insertSorted le x l'
  end.

Definition sort {A} (le : A -> A -> bool) (l : list A) : list A :=
  foldr (insertSorted le) [] l.

(** [arr.reduce((a, b) => a + b, 0)] *)
Definition sumZ (l : list Z) : Z := fold_left Z.add l 0.
Definition sumQ (l : list Q) : Q := fold_left Qplus l 0%Q.

(** [Math.min(x, ...xs)] *)
Definition Math_min (x : Q) (xs : list Q) : Q := fold_left Qmin xs x.

(** A [Map] in insertion order. *)
Definition Map (V : Type) : Type := list (string * V).

Fixpoint Map_get {V} (m : Map V) (k : string) : option V :=
  match m with
  | [] => None
  | (k', v) :: m' => if String.eqb k' k then Some v else Map_get m' k
  end.

Definition Map_has {V} (m : Map V) (k : string) : bool :=
  match Map_get m k with Some _ => true | None => false end.

(** [m.set(k, v)]: replaces the value of an existing key in place, or
    appends a new entry. *)
Fixpoint Map_set {V} (m : Map V) (k : string) (v : V) : Map V :=
  match m with
  | [] => [(k, v)]
  | (k', v') :: m' =>
      if String.eqb k' k then (k', v) :: m' else (k', v') :: Map_set m' k v
  end.

(** *** Double-precision arithmetic

    A finite double is represented by the rational it denotes.  [double q]
    is the double nearest to [q], ties to the even significand: 53
    significant bits, the last place no finer than 2^-1074.  (Results
    beyond the largest double do not arise in the computations below.) *)

(** [floor(log2 q)], for a positive [q]. *)
Definition ilog2 (q : Q) : Z :=
  let k := Z.log2 (Qnum q) - Z.log2 (Zpos (Qden q)) in
  if Qle_bool (2 ^ k) q then k else k - 1.

(** The nearest integer, ties to even. *)
Definition nearestEven (q : Q) : Z :=
  let f := Qfloor q in
  match Qcompare (q - inject_Z f) (1 # 2) with
  | Lt => f
  | Gt => f + 1
  | Eq => if Z.even f then f else f + 1
  end.

(** The exponent of the last place of the double nearest to a positive
    [q], and its integer significand. *)
Definition lastPlace (q : Q) : Z := Z.max (ilog2 q - 52) (-1074).

Definition significand (q : Q) : Z := nearestEven (q / 2 ^ lastPlace q).

Definition doubleOfPositive (q : Q) : Q :=
  Qred (inject_Z (significand q) * 2 ^ lastPlace q).

Definition double (q : Q) : Q :=
  match Qcompare 0 q with
  | Lt => doubleOfPositive q
  | Eq => 0%Q
  | Gt => (- doubleOfPositive (- q))%Q
  end.

(** [x + y], [x - y], [x * y] and [x / y] on doubles. *)
Definition plus (x y : Q) : Q := double (x + y).
Definition minus (x y : Q) : Q := double (x - y).
Definition times (x y : Q) : Q := double (x * y).
Definition divide (x y : Q) : Q := double (x / y).

End JS.

(** ** Calendar arithmetic on local time values *)

Definition MS_PER_HOUR : Z := 1000 * 60 * 60.
Definition MS_PER_DAY : Z := 24 * MS_PER_HOUR.

(** [d.setHours(h, 0, 0, 0)]: same local day, at [h] o'clock. *)
Definition setHours (d h : Z) : Z := d / MS_PER_DAY * MS_PER_DAY + h * MS_PER_HOUR.

(** [d.getDay()]: 0 = Sunday ... 6 = Saturday; day 0 is a Thursday. *)
Definition getDay (d : Z) : Z := (d / MS_PER_DAY + 4) mod 7.

(** [d.setDate(d.getDate() + 1)] *)
Definition nextDay (d : Z) : Z := d + MS_PER_DAY.

(** The local time value of [hour] o'clock on day number [day]. *)
Definition localTime (day hour : Z) : Z := day * MS_PER_DAY + hour * MS_PER_HOUR.

(** [ms / MS_PER_HOUR] *)
Definition perHour (ms : Z) : Q := inject_Z ms / inject_Z MS_PER_HOUR.

(** The body of the day-by-day loop of calculateWorkingHours; the text of the
    loop is the same in the collector and in the dashboard. *)
Definition removeForDay (start end_ currentDay : Z) (hoursToRemove : Q) : Q :=
  let dayOfWeek := getDay currentDay in
  let dayStart := currentDay in
  let dayEnd := nextDay currentDay in
  if (dayOfWeek =? 0) || (dayOfWeek =? 6) then
    let overlapStart := Z.max start dayStart in
    let overlapEnd := Z.min end_ dayEnd in
    if overlapStart <? overlapEnd
    then (hoursToRemove + perHour (overlapEnd - overlapStart))%Q
    else hoursToRemove
  else
    let eveningStart := setHours currentDay 18 in
    let eveningEnd := dayEnd in
    let eveningOverlapStart := Z.max start eveningStart in
    let eveningOverlapEnd := Z.min end_ eveningEnd in
    let hoursToRemove :=
      if eveningOverlapStart <? eveningOverlapEnd
      then (hoursToRemove + perHour (eveningOverlapEnd - eveningOverlapStart))%Q
      else hoursToRemove in
    let morningStart := dayStart in
    let morningEnd := setHours currentDay 10 in
    let morningOverlapStart := Z.max start morningStart in
    let morningOverlapEnd := Z.min end_ morningEnd in
    if morningOverlapStart <? morningOverlapEnd
    then (hoursToRemove + perHour (morningOverlapEnd - morningOverlapStart))%Q
    else hoursToRemove.

(** [while (currentDay < end) { ...; currentDay.setDate(+1) }]: the number of
    whole days left before [end_] decreases at every turn. *)
Equations? walkDays (start end_ currentDay : Z) (hoursToRemove : Q) : Q
  by wf (Z.to_nat ((end_ - currentDay) / MS_PER_DAY + 1)) lt :=
  walkDays start end_ currentDay hoursToRemove with Z_lt_dec currentDay end_ => {
    | left _ := walkDays start end_ (nextDay currentDay)
                  (removeForDay start end_ currentDay hoursToRemove);
    | right _ := hoursToRemove }.
Proof.
  unfold nextDay.
  replace (end_ - (currentDay + MS_PER_DAY))
    with ((end_ - currentDay) + (-1) * MS_PER_DAY) by ring.
  rewrite Z.div_add by (unfold MS_PER_DAY, MS_PER_HOUR; lia).
  assert (0 <= (end_ - currentDay) / MS_PER_DAY)
    by (apply Z.div_pos; unfold MS_PER_DAY, MS_PER_HOUR; lia).
  lia.
Qed.

(** ** Data model (the JSON records shared by collector and dashboard) *)

Record FileChange := {
  filename : string;
  additions : Z;
  deletions : Z;
  status : string
}.

Record Commit := {
  sha : string;
  date : Z;
  files : list FileChange
}.

Inductive ReviewState := APPROVED | CHANGES_REQUESTED | COMMENTED | DISMISSED.

#[global] Instance ReviewState_eq_dec : EqDecision ReviewState.
Proof. solve_decision. Defined.

(** An enriched review, as stored in [details[].reviews]. *)
Record Review := {
  reviewer : string;
  state : ReviewState;
  submittedAt : option Z;
  firstActivityAt : option Z;
  hasComments : bool;
  inlineCommentCount : Z;
  conversationCommentCount : Z;
  body : string
}.

(** An enriched PR record.  The fields after [reviews] are optional in the
    JSON: a record that failed carries [error] and lacks the metrics. *)
Record PRDetail := {
  repo : string;
  number : Z;
  title : string;
  author : string;
  createdAt : Z;
  mergedAt : Z;
  url : string;
  totalAdditions : Z;
  totalDeletions : Z;
  prodAdditions : Z;
  prodDeletions : Z;
  testAdditions : Z;
  testDeletions : Z;
  filesChanged : Z;
  testFilesChanged : Z;
  prodFilesChanged : Z;
  iterationCount : Z;
  reviews : list Review;
  firstResponseAt : option Z;
  commitCount : option Z;
  churnPercentage : option Q;
  fileChurnCount : option Z;
  error : option string
}.

(** One row of the reviewer summary.  The per-repository columns that the
    source spreads into the row are kept together in [rs_prsByRepo]. *)
Record ReviewerSummary := {
  rs_reviewer : string;
  rs_totalReviews : Z;
  rs_prsReviewedCount : Z;
  rs_approvals : Z;
  rs_changesRequested : Z;
  rs_commentOnlyReviews : Z;
  rs_noCommentApprovals : Z;
  rs_noCommentApprovalPct : Q;
  rs_totalInlineComments : Z;
  rs_totalConversationComments : Z;
  rs_medianResponseHours : option Q;
  rs_p90ResponseHours : option Q;
  rs_fastestResponseHours : option Q;
  rs_avgPrSizeReviewed : Z;
  rs_avgPrProdLinesReviewed : Z;
  rs_avgPrTestLinesReviewed : Z;
  rs_avgIterationsPerPr : Q;
  rs_avgReviewedPrCloseTime : option Q;
  rs_prsWithMultipleRounds : Z;
  rs_prsByRepo : gmap string Z
}.

Record AuthorSummary := {
  as_author : string;
  as_prsAuthored : Z;
  as_authoredPrAvgSize : Z;
  as_authoredPrAvgProdLines : Z;
  as_authoredPrAvgTestLines : Z;
  as_authoredPrAvgReviewTime : option Q;
  as_authoredPrAvgCloseTime : Q;
  as_authoredPrAvgReviewCount : Q;
  as_authoredPrAvgIterations : Q;
  as_authoredPrAvgCommits : Q;
  as_authoredPrAvgChurnPct : Q;
  as_authoredPrAvgFileChurn : Q;
  as_prsByRepo : gmap string Z
}.

Record TeamAuthored := {
  ta_totalPRs : Z;
  ta_totalDevelopers : Z;
  ta_avgPrSize : Z;
  ta_avgProdLines : Z;
  ta_avgTestLines : Z;
  ta_avgCloseTime : option Q;
  ta_avgIterations : Q;
  ta_avgChurnPct : Q;
  ta_avgFileChurn : Q;
  ta_avgCommitsPerPr : Q
}.

Record TeamReviewed := {
  tr_totalReviews : Z;
  tr_totalReviewers : Z;
  tr_avgPrSizeReviewed : Z;
  tr_avgProdLinesReviewed : Z;
  tr_avgTestLinesReviewed : Z;
  tr_medianResponseTime : option Q;
  tr_overallNoCommentPct : Q;
  tr_avgInlineComments : Q;
  tr_avgIterationsPerPr : Q
}.

Record TeamSummary := {
  authored : TeamAuthored;
  reviewed : TeamReviewed
}.

(** Local helpers that the three summary functions each declare. *)
Definition lengthZ {A} (l : list A) : Z := Z.of_nat (length l).

Definition avgZ (arr : list Z) : Q :=
  if 0 <? lengthZ arr then inject_Z (JS.sumZ arr) / inject_Z (lengthZ arr) else 0%Q.

Definition avgQ (arr : list Q) : Q :=
  if 0 <? lengthZ arr then JS.sumQ arr / inject_Z (lengthZ arr) else 0%Q.

Definition sortNumbers (arr : list Q) : list Q := JS.sort Qle_bool arr.

Definition median (arr : list Q) : option Q :=
  if (lengthZ arr =? 0) then None
  else let sorted := sortNumbers arr in
       sorted !! Z.to_nat (lengthZ sorted / 2).

Definition percentile (arr : list Q) (p : Q) : option Q :=
  if (lengthZ arr =? 0) then None
  else let sorted := sortNumbers arr in
       sorted !! Z.to_nat (Qfloor (inject_Z (lengthZ sorted) * p)).

(** [obj[k] = (obj[k] || 0) + 1] *)
Definition bumpCount (obj : gmap string Z) (k : string) : gmap string Z :=
  <[k := JS.orZ (obj !! k) 0 + 1]> obj.

(** [s.trim()], with the ASCII white space characters. *)
Definition isWhiteSpace (c : Ascii.ascii) : bool :=
  let n := Ascii.nat_of_ascii c in
  ((9 <=? n) && (n <=? 13) || (n =? 32))%nat.

Fixpoint trimStart (s : string) : string :=
  match s with
  | EmptyString => EmptyString
  | String c s' => if isWhiteSpace c then trimStart s' else s
  end.

Definition reverseString (s : string) : string :=
  String.string_of_list_ascii (rev (String.list_ascii_of_string s)).

Definition trim (s : string) : string :=
  reverseString (trimStart (reverseString (trimStart s))).

(** ** The collector: collect-metrics.js and its config.js *)

Module config.
Definition testFilePatterns : list string :=
  [ "*.test.*"; "*.spec.*"; "__tests__/"; "__mocks__/"; "e2e/"; "tests/";
    "test/"; "*.stories.*"; "integration/"; "fixtures/"; ".test/"; ".spec/" ]%string.
End config.

Module Collector.

Definition calculateWorkingHours (start end_ : Z) : Q :=
  if end_ <=? start then 0%Q
  else
    let totalCalendarHours := perHour (end_ - start) in
    let hoursToRemove := walkDays start end_ (setHours start 0) 0%Q in
    Qmax 0 (totalCalendarHours - hoursToRemove).

(** *** Churn *)

Record ChurnMetrics := {
  cm_churnPercentage : Q;
  cm_fileChurnCount : Z
}.

(** The three variables that the [forEach] of calculateChurnMetrics
    updates. *)
Record ChurnState := {
  fileSeenInCommit : gmap string (gset nat);
  totalAdditionsSoFar : Z;
  reWorkAdditions : Z
}.

Definition churnStart : ChurnState :=
  {| fileSeenInCommit := ∅; totalAdditionsSoFar := 0; reWorkAdditions := 0 |}.

(** The body of [for (const file of commit.files)] in commit number [idx]. *)
Definition churnFile (idx : nat) (st : ChurnState) (file : FileChange) : ChurnState :=
  let total := totalAdditionsSoFar st + additions file in
  let m :=
    match fileSeenInCommit st !! filename file with
    | Some _ => fileSeenInCommit st
    | None => <[filename file := ∅]> (fileSeenInCommit st)
    end in
  let seen := default ∅ (m !! filename file) in
  let rework :=
    if 0 <? Z.of_nat (size seen)
    then reWorkAdditions st + additions file
    else reWorkAdditions st in
  {| fileSeenInCommit := <[filename file := seen ∪ {[idx]}]> m;
     totalAdditionsSoFar := total;
     reWorkAdditions := rework |}.

(** [commits.forEach((commit, idx) => ...)], from index [idx] on. *)
Fixpoint churnCommits (idx : nat) (commits : list Commit) (st : ChurnState) : ChurnState :=
  match commits with
  | [] => st
  | commit :: rest =>
      churnCommits (S idx) rest (fold_left (churnFile idx) (files commit) st)
  end.

Definition calculateChurnMetrics (commits : option (list Commit)) : ChurnMetrics :=
  match commits with
  | None => {| cm_churnPercentage := 0; cm_fileChurnCount := 0 |}
  | Some commits =>
      if lengthZ commits <=? 1
      then {| cm_churnPercentage := 0; cm_fileChurnCount := 0 |}
      else
        let st := churnCommits 0 commits churnStart in
        let fileChurnCount :=
          lengthZ (List.filter (fun kv : string * gset nat => 1 <? Z.of_nat (size kv.2))
                               (map_to_list (fileSeenInCommit st))) in
        {| cm_churnPercentage :=
             if 0 <? totalAdditionsSoFar st
             then JS.toFixed 1
                    (JS.times (JS.divide (inject_Z (reWorkAdditions st))
                                         (inject_Z (totalAdditionsSoFar st)))
                              100)
             else 0;
           cm_fileChurnCount := fileChurnCount |}
  end.

(** *** Change classifier *)

Definition isTestFile (filename : string) : bool :=
  existsb (fun pattern =>
             if JS.endsWith "/" pattern
             then JS.includes pattern filename
             else JS.includes pattern filename)
          config.testFilePatterns.

Record FileMetrics := {
  fm_totalAdditions : Z;
  fm_totalDeletions : Z;
  fm_prodAdditions : Z;
  fm_prodDeletions : Z;
  fm_testAdditions : Z;
  fm_testDeletions : Z;
  fm_filesChanged : Z;
  fm_testFilesChanged : Z;
  fm_prodFilesChanged : Z
}.

(** The body of [for (const file of files)]. *)
Definition classifyFile (result : FileMetrics) (file : FileChange) : FileMetrics :=
  let totalAdditions := fm_totalAdditions result + additions file in
  let totalDeletions := fm_totalDeletions result + deletions file in
  if isTestFile (filename file) then
    {| fm_totalAdditions := totalAdditions;
       fm_totalDeletions := totalDeletions;
       fm_prodAdditions := fm_prodAdditions result;
       fm_prodDeletions := fm_prodDeletions result;
       fm_testAdditions := fm_testAdditions result + additions file;
       fm_testDeletions := fm_testDeletions result + deletions file;
       fm_filesChanged := fm_filesChanged result;
       fm_testFilesChanged := fm_testFilesChanged result + 1;
       fm_prodFilesChanged := fm_prodFilesChanged result |}
  else
    {| fm_totalAdditions := totalAdditions;
       fm_totalDeletions := totalDeletions;
       fm_prodAdditions := fm_prodAdditions result + additions file;
       fm_prodDeletions := fm_prodDeletions result + deletions file;
       fm_testAdditions := fm_testAdditions result;
       fm_testDeletions := fm_testDeletions result;
       fm_filesChanged := fm_filesChanged result;
       fm_testFilesChanged := fm_testFilesChanged result;
       fm_prodFilesChanged := fm_prodFilesChanged result + 1 |}.

Definition classifyFileChanges (files : list FileChange) : FileMetrics :=
  fold_left classifyFile files
    {| fm_totalAdditions := 0; fm_totalDeletions := 0;
       fm_prodAdditions := 0; fm_prodDeletions := 0;
       fm_testAdditions := 0; fm_testDeletions := 0;
       fm_filesChanged := lengthZ files;
       fm_testFilesChanged := 0; fm_prodFilesChanged := 0 |}.

(** *** Review activity reducer: the computation of processPR on the data
    that its requests returned (the path on which no request throws) *)

(** A merged PR as fetchMergedPRs returns it. *)
Record MergedPR := {
  pr_repo : string;
  pr_number : Z;
  pr_title : string;
  pr_author : string;
  pr_createdAt : Z;
  pr_mergedAt : Z;
  pr_url : string
}.

(** A conversation comment: [comment.user?.login] and [comment.created_at]. *)
Record ConversationComment := {
  cc_login : option string;
  cc_created_at : Z
}.

Record InlineComment := {
  ic_created_at : option Z
}.

(** A review of the API, together with the inline comments fetched for it. *)
Record ApiReview := {
  ar_login : string;
  ar_state : ReviewState;
  ar_submitted_at : option Z;
  ar_body : option string;
  ar_inlineComments : list InlineComment
}.

(** The body of [for (const comment of prConversationComments)]. *)
Definition recordComment (m : JS.Map (list Z)) (comment : ConversationComment)
  : JS.Map (list Z) :=
  match cc_login comment with
  | Some user =>
      if JS.truthyString user then
        let m := if JS.Map_has m user then m else JS.Map_set m user [] in
        JS.Map_set m user (default [] (JS.Map_get m user) ++ [cc_created_at comment])
      else m
  | None => m
  end.

Definition userConversationCommentTimestamps
    (prConversationComments : list ConversationComment) : JS.Map (list Z) :=
  fold_left recordComment prConversationComments [].

(** [for (const [user, timestamps] of ...) if (user !== pr.author) push] *)
Definition nonAuthorConversationTimestamps (author : string)
    (m : JS.Map (list Z)) : list Z :=
  flat_map (fun entry : string * list Z =>
              if String.eqb entry.1 author then [] else entry.2) m.

(** [arr.sort((a, b) => new Date(a) - new Date(b))] *)
Definition sortByDate (arr : list Z) : list Z := JS.sort Z.leb arr.

(** The timestamps pushed on [reviewerActivityTimestamps] for one review. *)
Definition reviewerActivityTimestamps (byUser : JS.Map (list Z))
    (review : ApiReview) : list Z :=
  let fromSubmission :=
    match ar_submitted_at review with Some t => [t] | None => [] end in
  let fromInline :=
    flat_map (fun c => match ic_created_at c with Some t => [t] | None => [] end)
             (ar_inlineComments review) in
  let conversationTimestamps := default [] (JS.Map_get byUser (ar_login review)) in
  fromSubmission ++ fromInline ++ conversationTimestamps.

(** The body of [for (const review of reviews)]; the state is
    [allResponseTimestamps] and [processedReviews]. *)
Definition processReview (author : string) (byUser : JS.Map (list Z))
    (acc : list Z * list Review) (review : ApiReview) : list Z * list Review :=
  let reviewer := ar_login review in
  let submittedAt := ar_submitted_at review in
  let inlineComments := ar_inlineComments review in
  let conversationTimestamps := default [] (JS.Map_get byUser reviewer) in
  let activity := reviewerActivityTimestamps byUser review in
  (* sort() reorders the array in place before it is pushed below *)
  let activitySorted := sortByDate activity in
  let firstActivityAt :=
    if 0 <? lengthZ activity then head activitySorted else submittedAt in
  let allResponseTimestamps :=
    if String.eqb reviewer author then acc.1 else acc.1 ++ activitySorted in
  let hasReviewBodyComment :=
    match ar_body review with
    | Some b => JS.truthyString b && (0 <? Z.of_nat (String.length (trim b)))
    | None => false
    end in
  let hasInlineComments := 0 <? lengthZ inlineComments in
  let hasConversationComments := 0 <? lengthZ conversationTimestamps in
  (allResponseTimestamps,
   acc.2 ++ [ {| reviewer := reviewer;
                 state := ar_state review;
                 submittedAt := submittedAt;
                 firstActivityAt := firstActivityAt;
                 hasComments := hasReviewBodyComment || hasInlineComments
                                || hasConversationComments;
                 inlineCommentCount := lengthZ inlineComments;
                 conversationCommentCount := lengthZ conversationTimestamps;
                 body := default EmptyString (ar_body review) |} ]).

Definition processPR (pr : MergedPR) (files : list FileChange)
    (reviews : list ApiReview)
    (prConversationComments : list ConversationComment)
    (commits : list Commit) : PRDetail :=
  let fileMetrics := classifyFileChanges files in
  let byUser := userConversationCommentTimestamps prConversationComments in
  let fromConversation := nonAuthorConversationTimestamps (pr_author pr) byUser in
  let '(allResponseTimestamps, processedReviews) :=
    fold_left (processReview (pr_author pr) byUser) reviews (fromConversation, []) in
  let firstResponseAt :=
    if 0 <? lengthZ allResponseTimestamps
    then head (sortByDate allResponseTimestamps)
    else None in
  let churnMetrics := calculateChurnMetrics (Some commits) in
  {| repo := pr_repo pr;
     number := pr_number pr;
     title := pr_title pr;
     author := pr_author pr;
     createdAt := pr_createdAt pr;
     mergedAt := pr_mergedAt pr;
     url := pr_url pr;
     totalAdditions := fm_totalAdditions fileMetrics;
     totalDeletions := fm_totalDeletions fileMetrics;
     prodAdditions := fm_prodAdditions fileMetrics;
     prodDeletions := fm_prodDeletions fileMetrics;
     testAdditions := fm_testAdditions fileMetrics;
     testDeletions := fm_testDeletions fileMetrics;
     filesChanged := fm_filesChanged fileMetrics;
     testFilesChanged := fm_testFilesChanged fileMetrics;
     prodFilesChanged := fm_prodFilesChanged fileMetrics;
     iterationCount := lengthZ processedReviews;
     reviews := processedReviews;
     firstResponseAt := firstResponseAt;
     commitCount := Some (JS.orZ (Some (lengthZ commits)) 1);
     churnPercentage := Some (cm_churnPercentage churnMetrics);
     fileChurnCount := Some (cm_fileChurnCount churnMetrics);
     error := None |}.

(** *** Reviewer summary *)

(** The accumulator stored in [reviewerStats] for one reviewer. *)
Record ReviewerStats := {
  st_reviewer : string;
  st_totalReviews : Z;
  st_approvals : Z;
  st_changesRequested : Z;
  st_commentOnlyReviews : Z;
  st_noCommentApprovals : Z;
  st_totalInlineComments : Z;
  st_totalConversationComments : Z;
  st_responseTimes : list Q;
  st_prSizesReviewed : list Z;
  st_prProdLinesReviewed : list Z;
  st_prTestLinesReviewed : list Z;
  st_iterationsPerPr : list Z;
  st_prsReviewed : gset Z;
  st_prsByRepo : gmap string Z;
  st_reviewedPrCloseTimes : list Q
}.

Definition newReviewerStats (reviewer : string) : ReviewerStats :=
  {| st_reviewer := reviewer;
     st_totalReviews := 0; st_approvals := 0; st_changesRequested := 0;
     st_commentOnlyReviews := 0; st_noCommentApprovals := 0;
     st_totalInlineComments := 0; st_totalConversationComments := 0;
     st_responseTimes := []; st_prSizesReviewed := [];
     st_prProdLinesReviewed := []; st_prTestLinesReviewed := [];
     st_iterationsPerPr := []; st_prsReviewed := ∅; st_prsByRepo := ∅;
     st_reviewedPrCloseTimes := [] |}.

(** What one review of [pr] does to the reviewer's accumulator.
    ([pr.createdAt] is a required non-empty string, so the guard
    [review.firstActivityAt && pr.createdAt] tests the first operand;
    [conversationCommentCount || 0] is the count itself.) *)
Definition tallyReview (pr : PRDetail) (review : Review) (stats : ReviewerStats)
  : ReviewerStats :=
  let isApproved := bool_decide (state review = APPROVED) in
  let responseTimes :=
    match firstActivityAt review with
    | Some firstActivity =>
        let responseHours := calculateWorkingHours (createdAt pr) firstActivity in
        if Qle_bool 0 responseHours
        then st_responseTimes stats ++ [responseHours]
        else st_responseTimes stats
    | None => st_responseTimes stats
    end in
  let firstVisit := negb (bool_decide (number pr ∈ st_prsReviewed stats)) in
  let closeTime := calculateWorkingHours (createdAt pr) (mergedAt pr) in
  {| st_reviewer := st_reviewer stats;
     st_totalReviews := st_totalReviews stats + 1;
     st_approvals :=
       if isApproved then st_approvals stats + 1 else st_approvals stats;
     st_changesRequested :=
       if bool_decide (state review = CHANGES_REQUESTED)
       then st_changesRequested stats + 1 else st_changesRequested stats;
     st_commentOnlyReviews :=
       if bool_decide (state review = COMMENTED)
       then st_commentOnlyReviews stats + 1 else st_commentOnlyReviews stats;
     st_noCommentApprovals :=
       if isApproved && negb (hasComments review)
       then st_noCommentApprovals stats + 1 else st_noCommentApprovals stats;
     st_totalInlineComments :=
       st_totalInlineComments stats + inlineCommentCount review;
     st_totalConversationComments :=
       st_totalConversationComments stats + conversationCommentCount review;
     st_responseTimes := responseTimes;
     st_prSizesReviewed :=
       if firstVisit
       then st_prSizesReviewed stats ++ [totalAdditions pr + totalDeletions pr]
       else st_prSizesReviewed stats;
     st_prProdLinesReviewed :=
       if firstVisit
       then st_prProdLinesReviewed stats ++ [prodAdditions pr + prodDeletions pr]
       else st_prProdLinesReviewed stats;
     st_prTestLinesReviewed :=
       if firstVisit
       then st_prTestLinesReviewed stats ++ [testAdditions pr + testDeletions pr]
       else st_prTestLinesReviewed stats;
     st_iterationsPerPr :=
       if firstVisit
       then st_iterationsPerPr stats ++ [iterationCount pr]
       else st_iterationsPerPr stats;
     st_prsReviewed :=
       if firstVisit then st_prsReviewed stats ∪ {[number pr]}
       else st_prsReviewed stats;
     st_prsByRepo :=
       if firstVisit then bumpCount (st_prsByRepo stats) (repo pr)
       else st_prsByRepo stats;
     st_reviewedPrCloseTimes :=
       if firstVisit then st_reviewedPrCloseTimes stats ++ [closeTime]
       else st_reviewedPrCloseTimes stats |}.

(** The body of [for (const review of pr.reviews)]. *)
Definition reviewStep (pr : PRDetail) (reviewerStats : JS.Map ReviewerStats)
    (review : Review) : JS.Map ReviewerStats :=
  let reviewer := reviewer review in
  let reviewerStats :=
    if JS.Map_has reviewerStats reviewer then reviewerStats
    else JS.Map_set reviewerStats reviewer (newReviewerStats reviewer) in
  match JS.Map_get reviewerStats reviewer with
  | Some stats => JS.Map_set reviewerStats reviewer (tallyReview pr review stats)
  | None => reviewerStats
  end.

(** The body of [for (const pr of prDetails)]. *)
Definition reviewerPrStep (reviewerStats : JS.Map ReviewerStats) (pr : PRDetail)
  : JS.Map ReviewerStats :=
  if JS.truthyOptString (error pr) then reviewerStats
  else fold_left (reviewStep pr) (reviews pr) reviewerStats.

Definition collectReviewerStats (prDetails : list PRDetail) : JS.Map ReviewerStats :=
  fold_left reviewerPrStep prDetails [].

(** [x ? x.toFixed(digits) : null] *)
Definition toFixedOrNull (digits : nat) (x : option Q) : option Q :=
  match x with
  | Some v => if JS.truthyQ v then Some (JS.toFixed digits v) else None
  | None => None
  end.

(** The row pushed on [summary] for one entry of [reviewerStats]. *)
Definition reviewerRow (reviewer : string) (stats : ReviewerStats) : ReviewerSummary :=
  let medianResponse := median (st_responseTimes stats) in
  let p90Response := percentile (st_responseTimes stats) (9 # 10) in
  let fastestResponse :=
    match st_responseTimes stats with
    | [] => None
    | x :: xs => Some (JS.Math_min x xs)
    end in
  let avgPrSize := avgZ (st_prSizesReviewed stats) in
  let avgProdLines := avgZ (st_prProdLinesReviewed stats) in
  let avgTestLines := avgZ (st_prTestLinesReviewed stats) in
  let avgIterations := avgZ (st_iterationsPerPr stats) in
  let prsWithMultipleRounds :=
    lengthZ (List.filter (fun i => 1 <? i) (st_iterationsPerPr stats)) in
  let noCommentApprovalPct :=
    if 0 <? st_approvals stats
    then JS.toFixed 1 (inject_Z (st_noCommentApprovals stats)
                       / inject_Z (st_approvals stats) * 100)
    else 0%Q in
  let avgReviewedPrCloseTime :=
    let a := avgQ (st_reviewedPrCloseTimes stats) in
    if JS.truthyQ a then Some a else None in
  {| rs_reviewer := reviewer;
     rs_totalReviews := st_totalReviews stats;
     rs_prsReviewedCount := Z.of_nat (size (st_prsReviewed stats));
     rs_approvals := st_approvals stats;
     rs_changesRequested := st_changesRequested stats;
     rs_commentOnlyReviews := st_commentOnlyReviews stats;
     rs_noCommentApprovals := st_noCommentApprovals stats;
     rs_noCommentApprovalPct := noCommentApprovalPct;
     rs_totalInlineComments := st_totalInlineComments stats;
     rs_totalConversationComments := st_totalConversationComments stats;
     rs_medianResponseHours := toFixedOrNull 2 medianResponse;
     rs_p90ResponseHours := toFixedOrNull 2 p90Response;
     rs_fastestResponseHours := toFixedOrNull 2 fastestResponse;
     rs_avgPrSizeReviewed := JS.Math_round avgPrSize;
     rs_avgPrProdLinesReviewed := JS.Math_round avgProdLines;
     rs_avgPrTestLinesReviewed := JS.Math_round avgTestLines;
     rs_avgIterationsPerPr := JS.toFixed 2 avgIterations;
     rs_avgReviewedPrCloseTime := toFixedOrNull 2 avgReviewedPrCloseTime;
     rs_prsWithMultipleRounds := prsWithMultipleRounds;
     rs_prsByRepo := st_prsByRepo stats |}.

Definition calculateReviewerSummary (prDetails : list PRDetail) : list ReviewerSummary :=
  let summary :=
    map (fun entry : string * ReviewerStats => reviewerRow entry.1 entry.2)
        (collectReviewerStats prDetails) in
  JS.sort (fun a b => rs_totalReviews b <=? rs_totalReviews a) summary.

(** *** Author summary *)

Record AuthorStats := {
  au_author : string;
  au_prsAuthored : Z;
  au_prSizes : list Z;
  au_prodLines : list Z;
  au_testLines : list Z;
  au_reviewTimes : list Q;
  au_closeTimes : list Q;
  au_reviewCounts : list Z;
  au_iterations : list Z;
  au_commitCounts : list Z;
  au_churnPercentages : list Q;
  au_fileChurnCounts : list Z;
  au_prsByRepo : gmap string Z
}.

Definition newAuthorStats (author : string) : AuthorStats :=
  {| au_author := author; au_prsAuthored := 0; au_prSizes := [];
     au_prodLines := []; au_testLines := []; au_reviewTimes := [];
     au_closeTimes := []; au_reviewCounts := []; au_iterations := [];
     au_commitCounts := []; au_churnPercentages := [];
     au_fileChurnCounts := []; au_prsByRepo := ∅ |}.

Definition tallyPr (pr : PRDetail) (stats : AuthorStats) : AuthorStats :=
  let reviewTimes :=
    match firstResponseAt pr with
    | Some firstResponse =>
        let firstResponseTime := calculateWorkingHours (createdAt pr) firstResponse in
        if Qle_bool 0 firstResponseTime
        then au_reviewTimes stats ++ [firstResponseTime]
        else au_reviewTimes stats
    | None => au_reviewTimes stats
    end in
  let closeTime := calculateWorkingHours (createdAt pr) (mergedAt pr) in
  {| au_author := au_author stats;
     au_prsAuthored := au_prsAuthored stats + 1;
     au_prSizes := au_prSizes stats ++ [totalAdditions pr + totalDeletions pr];
     au_prodLines := au_prodLines stats ++ [prodAdditions pr + prodDeletions pr];
     au_testLines := au_testLines stats ++ [testAdditions pr + testDeletions pr];
     au_reviewTimes := reviewTimes;
     au_closeTimes := au_closeTimes stats ++ [closeTime];
     au_reviewCounts := au_reviewCounts stats ++ [lengthZ (reviews pr)];
     au_iterations := au_iterations stats ++ [iterationCount pr];
     au_commitCounts := au_commitCounts stats ++ [JS.orZ (commitCount pr) 1];
     au_churnPercentages :=
       au_churnPercentages stats ++ [JS.orQ (churnPercentage pr) 0];
     au_fileChurnCounts :=
       au_fileChurnCounts stats ++ [JS.orZ (fileChurnCount pr) 0];
     au_prsByRepo := bumpCount (au_prsByRepo stats) (repo pr) |}.

(** The body of [for (const pr of prDetails)]. *)
Definition authorPrStep (authorStats : JS.Map AuthorStats) (pr : PRDetail)
  : JS.Map AuthorStats :=
  if JS.truthyOptString (error pr) then authorStats
  else
    let author := author pr in
    let authorStats :=
      if JS.Map_has authorStats author then authorStats
      else JS.Map_set authorStats author (newAuthorStats author) in
    match JS.Map_get authorStats author with
    | Some stats => JS.Map_set authorStats author (tallyPr pr stats)
    | None => authorStats
    end.

Definition collectAuthorStats (prDetails : list PRDetail) : JS.Map AuthorStats :=
  fold_left authorPrStep prDetails [].

Definition authorRow (author : string) (stats : AuthorStats) : AuthorSummary :=
  let avgReviewTime :=
    if 0 <? lengthZ (au_reviewTimes stats)
    then Some (avgQ (au_reviewTimes stats)) else None in
  {| as_author := author;
     as_prsAuthored := au_prsAuthored stats;
     as_authoredPrAvgSize := JS.Math_round (avgZ (au_prSizes stats));
     as_authoredPrAvgProdLines := JS.Math_round (avgZ (au_prodLines stats));
     as_authoredPrAvgTestLines := JS.Math_round (avgZ (au_testLines stats));
     as_authoredPrAvgReviewTime := toFixedOrNull 2 avgReviewTime;
     as_authoredPrAvgCloseTime := JS.toFixed 2 (avgQ (au_closeTimes stats));
     as_authoredPrAvgReviewCount := JS.toFixed 2 (avgZ (au_reviewCounts stats));
     as_authoredPrAvgIterations := JS.toFixed 2 (avgZ (au_iterations stats));
     as_authoredPrAvgCommits := JS.toFixed 2 (avgZ (au_commitCounts stats));
     as_authoredPrAvgChurnPct := JS.toFixed 1 (avgQ (au_churnPercentages stats));
     as_authoredPrAvgFileChurn := JS.toFixed 1 (avgZ (au_fileChurnCounts stats));
     as_prsByRepo := au_prsByRepo stats |}.

Definition calculateAuthorSummary (prDetails : list PRDetail) : list AuthorSummary :=
  let summary :=
    map (fun entry : string * AuthorStats => authorRow entry.1 entry.2)
        (collectAuthorStats prDetails) in
  JS.sort (fun a b => as_prsAuthored b <=? as_prsAuthored a) summary.

(** *** Team summary *)

(** The four counters of the loop over [validPRs] and their reviews. *)
Record ReviewTotals := {
  totalReviews : Z;
  totalApprovals : Z;
  totalNoCommentApprovals : Z;
  totalInlineComments : Z
}.

Definition countReview (t : ReviewTotals) (review : Review) : ReviewTotals :=
  let isApproved := bool_decide (state review = APPROVED) in
  {| totalReviews := totalReviews t + 1;
     totalApprovals :=
       if isApproved then totalApprovals t + 1 else totalApprovals t;
     totalNoCommentApprovals :=
       if isApproved && negb (hasComments review)
       then totalNoCommentApprovals t + 1 else totalNoCommentApprovals t;
     totalInlineComments := totalInlineComments t + inlineCommentCount review |}.

Definition countReviews (validPRs : list PRDetail) : ReviewTotals :=
  fold_left (fun t pr => fold_left countReview (reviews pr) t) validPRs
    {| totalReviews := 0; totalApprovals := 0;
       totalNoCommentApprovals := 0; totalInlineComments := 0 |}.

(** [weightedAvg(items, valueField, weightField)]; the two fields are given
    by their projections.  [parseFloat(v) || 0] and [w || 0] are the
    numbers themselves. *)
Definition weightedAvg (items : list ReviewerSummary)
    (valueField weightField : ReviewerSummary -> Z) : Q :=
  let sums :=
    fold_left (fun acc item =>
                 let value := inject_Z (valueField item) in
                 let weight := weightField item in
                 (acc.1 + weight, (acc.2 + value * inject_Z weight)%Q))
              items (0, 0%Q) in
  let totalWeight := sums.1 in
  let weightedSum := sums.2 in
  if 0 <? totalWeight then weightedSum / inject_Z totalWeight else 0%Q.

(** [arr.filter(p => p.f !== undefined).map(p => p.f)] *)
Definition defined {A} (f : PRDetail -> option A) (prs : list PRDetail) : list A :=
  omap f prs.

Definition calculateTeamSummary (authorSummary : list AuthorSummary)
    (reviewerSummary : list ReviewerSummary) (prDetails : list PRDetail)
  : TeamSummary :=
  let validPRs := List.filter (fun p => negb (JS.truthyOptString (error p))) prDetails in
  let totalPRs := lengthZ validPRs in
  let prSizes := map (fun p => totalAdditions p + totalDeletions p) validPRs in
  let prodLines := map (fun p => prodAdditions p + prodDeletions p) validPRs in
  let testLines := map (fun p => testAdditions p + testDeletions p) validPRs in
  let iterations := map iterationCount validPRs in
  let closeTimes :=
    List.filter (fun h => negb (Qle_bool h 0))
      (map (fun p => calculateWorkingHours (createdAt p) (mergedAt p)) validPRs) in
  let churnPercentages := defined churnPercentage validPRs in
  let fileChurnCounts := defined fileChurnCount validPRs in
  let commitCounts := map (fun p => JS.orZ (commitCount p) 1) validPRs in
  let allResponseTimes :=
    List.filter (fun t => negb (Qle_bool t 0))
      (omap (fun p => match firstResponseAt p with
                      | Some firstResponse =>
                          Some (calculateWorkingHours (createdAt p) firstResponse)
                      | None => None
                      end)
            validPRs) in
  let t := countReviews validPRs in
  {| authored :=
       {| ta_totalPRs := totalPRs;
          ta_totalDevelopers := lengthZ authorSummary;
          ta_avgPrSize := JS.Math_round (avgZ prSizes);
          ta_avgProdLines := JS.Math_round (avgZ prodLines);
          ta_avgTestLines := JS.Math_round (avgZ testLines);
          ta_avgCloseTime :=
            if 0 <? lengthZ closeTimes
            then Some (JS.toFixed 2 (avgQ closeTimes)) else None;
          ta_avgIterations := JS.toFixed 2 (avgZ iterations);
          ta_avgChurnPct :=
            if 0 <? lengthZ churnPercentages
            then JS.toFixed 1 (avgQ churnPercentages) else 0%Q;
          ta_avgFileChurn :=
            if 0 <? lengthZ fileChurnCounts
            then JS.toFixed 1 (avgZ fileChurnCounts) else 0%Q;
          ta_avgCommitsPerPr := JS.toFixed 2 (avgZ commitCounts) |};
     reviewed :=
       {| tr_totalReviews := totalReviews t;
          tr_totalReviewers := lengthZ reviewerSummary;
          tr_avgPrSizeReviewed :=
            JS.Math_round (weightedAvg reviewerSummary rs_avgPrSizeReviewed
                                       rs_prsReviewedCount);
          tr_avgProdLinesReviewed :=
            JS.Math_round (weightedAvg reviewerSummary rs_avgPrProdLinesReviewed
                                       rs_prsReviewedCount);
          tr_avgTestLinesReviewed :=
            JS.Math_round (weightedAvg reviewerSummary rs_avgPrTestLinesReviewed
                                       rs_prsReviewedCount);
          tr_medianResponseTime :=
            if 0 <? lengthZ allResponseTimes
            then JS.toFixed 2 <$> median allResponseTimes else None;
          tr_overallNoCommentPct :=
            if 0 <? totalApprovals t
            then JS.toFixed 1 (inject_Z (totalNoCommentApprovals t)
                               / inject_Z (totalApprovals t) * 100)
            else 0%Q;
          tr_avgInlineComments :=
            if 0 <? totalReviews t
            then JS.toFixed 2 (inject_Z (totalInlineComments t)
                               / inject_Z (totalReviews t))
            else 0%Q;
          tr_avgIterationsPerPr := JS.toFixed 2 (avgZ iterations) |} |}.

End Collector.

(** ** The dashboard: dashboard/lib/utils.ts *)

Module Dashboard.

Record MetricsData := {
  md_month : string;
  md_org : string;
  md_repos : list string;
  md_generatedAt : string;
  md_summary : list ReviewerSummary;
  md_authorSummary : list AuthorSummary;
  md_teamSummary : option TeamSummary;
  md_details : list PRDetail
}.

(** The arguments may be [null] or [undefined] here. *)
Definition calculateWorkingHours (startISO endISO : option Z) : Q :=
  match startISO, endISO with
  | Some start, Some end_ =>
      if end_ <=? start then 0%Q
      else
        let totalCalendarHours := perHour (end_ - start) in
        let hoursToRemove := walkDays start end_ (setHours start 0) 0%Q in
        Qmax 0 (totalCalendarHours - hoursToRemove)
  | _, _ => 0%Q
  end.

(** The four counters of the loop over [validPRs] and their reviews. *)
Record ReviewTotals := {
  totalReviews : Z;
  totalApprovals : Z;
  totalNoCommentApprovals : Z;
  totalInlineComments : Z
}.

Definition countReview (t : ReviewTotals) (review : Review) : ReviewTotals :=
  let isApproved := bool_decide (state review = APPROVED) in
  {| totalReviews := totalReviews t + 1;
     totalApprovals :=
       if isApproved then totalApprovals t + 1 else totalApprovals t;
     totalNoCommentApprovals :=
       if isApproved && negb (hasComments review)
       then totalNoCommentApprovals t + 1 else totalNoCommentApprovals t;
     totalInlineComments := totalInlineComments t + inlineCommentCount review |}.

Definition countReviews (validPRs : list PRDetail) : ReviewTotals :=
  fold_left (fun t pr => fold_left countReview (reviews pr) t) validPRs
    {| totalReviews := 0; totalApprovals := 0;
       totalNoCommentApprovals := 0; totalInlineComments := 0 |}.

(** [weightedAvg(items, valueField, weightField)]; the two fields are given
    by their projections.  [parseFloat(v) || 0] and [w || 0] are the
    numbers themselves. *)
Definition weightedAvg (items : list ReviewerSummary)
    (valueField weightField : ReviewerSummary -> Z) : Q :=
  let sums :=
    fold_left (fun acc item =>
                 let value := inject_Z (valueField item) in
                 let weight := weightField item in
                 (acc.1 + weight, (acc.2 + value * inject_Z weight)%Q))
              items (0, 0%Q) in
  let totalWeight := sums.1 in
  let weightedSum := sums.2 in
  if 0 <? totalWeight then weightedSum / inject_Z totalWeight else 0%Q.

(** [arr.filter(p => p.f !== undefined).map(p => p.f)] *)
Definition defined {A} (f : PRDetail -> option A) (prs : list PRDetail) : list A :=
  omap f prs.

Definition computeTeamSummaryFallback (data : MetricsData) : TeamSummary :=
  let validPRs :=
    List.filter (fun p => negb (JS.truthyOptString (error p))) (md_details data) in
  let totalPRs := lengthZ validPRs in
  let prSizes := map (fun p => totalAdditions p + totalDeletions p) validPRs in
  let prodLines := map (fun p => prodAdditions p + prodDeletions p) validPRs in
  let testLines := map (fun p => testAdditions p + testDeletions p) validPRs in
  let iterations := map iterationCount validPRs in
  let workingHoursCloseTimes :=
    List.filter (fun h => negb (Qle_bool h 0))
      (map (fun p => calculateWorkingHours (Some (createdAt p)) (Some (mergedAt p)))
           validPRs) in
  let churnPercentages := defined churnPercentage validPRs in
  let fileChurnCounts := defined fileChurnCount validPRs in
  let commitCounts := map (fun p => JS.orZ (commitCount p) 1) validPRs in
  let allResponseTimes :=
    List.filter (fun h => Qle_bool 0 h)
      (omap (fun p => match firstResponseAt p with
                      | Some firstResponse =>
                          Some (calculateWorkingHours (Some (createdAt p))
                                                      (Some firstResponse))
                      | None => None
                      end)
            validPRs) in
  let t := countReviews validPRs in
  {| authored :=
       {| ta_totalPRs := totalPRs;
          ta_totalDevelopers := lengthZ (md_authorSummary data);
          ta_avgPrSize := JS.Math_round (avgZ prSizes);
          ta_avgProdLines := JS.Math_round (avgZ prodLines);
          ta_avgTestLines := JS.Math_round (avgZ testLines);
          ta_avgCloseTime :=
            if 0 <? lengthZ workingHoursCloseTimes
            then Some (JS.toFixed 2 (avgQ workingHoursCloseTimes)) else None;
          ta_avgIterations := JS.toFixed 2 (avgZ iterations);
          ta_avgChurnPct :=
            if 0 <? lengthZ churnPercentages
            then JS.toFixed 1 (avgQ churnPercentages) else 0%Q;
          ta_avgFileChurn :=
            if 0 <? lengthZ fileChurnCounts
            then JS.toFixed 1 (avgZ fileChurnCounts) else 0%Q;
          ta_avgCommitsPerPr := JS.toFixed 2 (avgZ commitCounts) |};
     reviewed :=
       {| tr_totalReviews := totalReviews t;
          tr_totalReviewers := lengthZ (md_summary data);
          tr_avgPrSizeReviewed :=
            JS.Math_round (weightedAvg (md_summary data) rs_avgPrSizeReviewed
                                       rs_prsReviewedCount);
          tr_avgProdLinesReviewed :=
            JS.Math_round (weightedAvg (md_summary data) rs_avgPrProdLinesReviewed
                                       rs_prsReviewedCount);
          tr_avgTestLinesReviewed :=
            JS.Math_round (weightedAvg (md_summary data) rs_avgPrTestLinesReviewed
                                       rs_prsReviewedCount);
          tr_medianResponseTime :=
            if 0 <? lengthZ allResponseTimes
            then JS.toFixed 2 <$> median allResponseTimes else None;
          tr_overallNoCommentPct :=
            if 0 <? totalApprovals t
            then JS.toFixed 1 (inject_Z (totalNoCommentApprovals t)
                               / inject_Z (totalApprovals t) * 100)
            else 0%Q;
          tr_avgInlineComments :=
            if 0 <? totalReviews t
            then JS.toFixed 2 (inject_Z (totalInlineComments t)
                               / inject_Z (totalReviews t))
            else 0%Q;
          tr_avgIterationsPerPr := JS.toFixed 2 (avgZ iterations) |} |}.


(** *** Quality score *)

Record Developer := {
  avgSrcSize : Q;
  avgSrcFiles : Q;
  avgIterations : Q;
  avgWorkingHoursToClose : option Q;
  churnPct : Q
}.

(** [Math.max(0, Math.min(100, x))] *)
Definition clamp100 (x : Q) : Q := Qmax 0 (Qmin 100 x).

Definition linesScore (dev : Developer) : Q :=
  clamp100 (JS.times 100
              (JS.minus 1 (JS.divide (JS.minus (avgSrcSize dev) 100) 300))).

Definition filesScore (dev : Developer) : Q :=
  clamp100 (JS.times 100
              (JS.minus 1 (JS.divide (JS.minus (avgSrcFiles dev) 4) 6))).

Definition sizeScore (dev : Developer) : Q :=
  JS.divide (JS.plus (linesScore dev) (filesScore dev)) 2.

Definition closeTimeScore (dev : Developer) : Q :=
  match avgWorkingHoursToClose dev with
  | Some hours =>
      clamp100 (JS.times 100 (JS.minus 1 (JS.divide (JS.minus hours 2) 6)))
  | None => 50
  end.

Definition iterationScore (dev : Developer) : Q :=
  clamp100 (JS.times 100
              (JS.minus 1
                 (JS.divide (Qmax 0 (JS.minus (avgIterations dev) 1)) 3))).

Definition churnScore (dev : Developer) : Q :=
  Qmax 0 (JS.times 100 (JS.minus 1 (JS.divide (churnPct dev) 50))).

(** [sizeScore * 0.35 + closeTimeScore * 0.30 + iterationScore * 0.20 +
    churnScore * 0.15]; the literals are the doubles nearest to the
    decimals, the sum is taken from left to right. *)
Definition weightedSum (size closeTime iteration churn : Q) : Q :=
  JS.plus
    (JS.plus
       (JS.plus (JS.times size (JS.double (35 # 100)))
                (JS.times closeTime (JS.double (30 # 100))))
       (JS.times iteration (JS.double (20 # 100))))
    (JS.times churn (JS.double (15 # 100))).

Definition calculateQualityScore (dev : Developer) (teamAvg : TeamAuthored) : Z :=
  JS.Math_round (weightedSum (sizeScore dev) (closeTimeScore dev)
                             (iterationScore dev) (churnScore dev)).


(** *** Highlights *)

(** [activityMap.set(name, (activityMap.get(name) || 0) + n)] *)
Definition addActivity (activityMap : JS.Map Z) (name : string) (n : Z) : JS.Map Z :=
  JS.Map_set activityMap name (JS.orZ (JS.Map_get activityMap name) 0 + n).

(** The body of [for (const [name, activity] of activityMap)]; the state is
    the pair of [maxActivity] and [mostActive]. *)
Definition moreActive (best : Z * option string) (entry : string * Z)
  : Z * option string :=
  let '(name, activity) := entry in
  if best.1 <? activity then (activity, Some name) else best.

Definition findMostActiveDeveloper (data : MetricsData) : option (string * Z) :=
  let activityMap :=
    fold_left (fun m author => addActivity m (as_author author) (as_prsAuthored author))
              (md_authorSummary data) [] in
  let activityMap :=
    fold_left (fun m reviewer =>
                 addActivity m (rs_reviewer reviewer) (rs_totalReviews reviewer))
              (md_summary data) activityMap in
  let best := fold_left moreActive activityMap (0, None) in
  match best.2 with
  | Some mostActive =>
      if JS.truthyString mostActive then Some (mostActive, best.1) else None
  | None => None
  end.










End Dashboard.


(** ** The statements of the specification, in its own words

    These definitions follow the specification's sentences, not the code;
    the theorems below compare them with the embedding. *)

Module Spec.

Definition sumOver {A} (g : A -> Z) (l : list A) : Z :=
  foldr (fun x acc => g x + acc) 0 l.

(** "this filename has been seen in an earlier commit of the same list" *)
Definition seenInEarlierCommit (earlier : list Commit) (name : string) : bool :=
  existsb (fun c => existsb (fun f => bool_decide (filename f = name)) (files c))
          earlier.

(** The additions of the files of [commits] whose name was seen in an
    earlier commit; [earlier] are the commits that came before. *)
Fixpoint reworkAdditions (earlier commits : list Commit) : Z :=
  match commits with
  | [] => 0
  | c :: rest =>
      sumOver (fun f => if seenInEarlierCommit earlier (filename f)
                        then additions f else 0) (files c)
      + reworkAdditions (earlier ++ [c]) rest
  end.

Definition totalAdditions (commits : list Commit) : Z :=
  sumOver (fun c => sumOver additions (files c)) commits.

(** "round1": to one decimal, a half goes up. *)
Definition round1 (x : Q) : Q := inject_Z (Qfloor (x * 10 + (1 # 2))) / 10.

(** "round1(reworkAdditions / totalAdditions * 100) if totalAdditions > 0,
    else 0" *)
Definition churnPercentage (commits : list Commit) : Q :=
  if 0 <? totalAdditions commits
  then round1 (inject_Z (reworkAdditions [] commits)
               / inject_Z (totalAdditions commits) * 100)
  else 0%Q.

(** "round(size*0.35 + closeTime*0.30 + iteration*0.20 + churn*0.15)", the
    nearest integer of the sum, a half going up. *)
Definition round (x : Q) : Z := Qfloor (x + (1 # 2)).

Definition weightedSum (size closeTime iteration churn : Q) : Q :=
  size * (35 # 100) + closeTime * (30 # 100) + iteration * (20 # 100)
  + churn * (15 # 100).

Definition qualityScore (size closeTime iteration churn : Q) : Z :=
  round (weightedSum size closeTime iteration churn).

(** The review activity reducer.  A conversation comment counts for the
    participant whose login it carries. *)
Definition commentBy (comment : Collector.ConversationComment) (user : string)
  : bool :=
  match Collector.cc_login comment with
  | Some u => JS.truthyString u && bool_decide (u = user)
  | None => false
  end.

(** "conversation timestamps for this reviewer" *)
Definition conversationTimestampsOf
    (comments : list Collector.ConversationComment) (user : string) : list Z :=
  map Collector.cc_created_at (List.filter (fun c => commentBy c user) comments).

(** "{submittedAt} ∪ {inline comment timestamps for this review} ∪
    {conversation timestamps for this reviewer}" *)
Definition activityTimestamps (comments : list Collector.ConversationComment)
    (review : Collector.ApiReview) : list Z :=
  match Collector.ar_submitted_at review with Some t => [t] | None => [] end
  ++ omap Collector.ic_created_at (Collector.ar_inlineComments review)
  ++ conversationTimestampsOf comments (Collector.ar_login review).

(** "all reviewers' activity-timestamp sets AND all conversation-comment
    timestamps, restricted to participants whose login differs from the PR
    author" *)
Definition qualifyingTimestamps (author : string)
    (reviews : list Collector.ApiReview)
    (comments : list Collector.ConversationComment) : list Z :=
  flat_map (fun c =>
              match Collector.cc_login c with
              | Some u =>
                  if JS.truthyString u && negb (bool_decide (u = author))
                  then [Collector.cc_created_at c] else []
              | None => []
              end) comments
  ++ flat_map (fun r =>
                 if bool_decide (Collector.ar_login r = author) then []
                 else activityTimestamps comments r) reviews.

(** "minimum timestamp ...; null if no qualifying timestamp exists" *)
Definition earliest (timestamps : list Z) : option Z :=
  match timestamps with
  | [] => None
  | t :: rest => Some (fold_left Z.min rest t)
  end.

Definition firstResponseAt (author : string)
    (reviews : list Collector.ApiReview)
    (comments : list Collector.ConversationComment) : option Z :=
  earliest (qualifyingTimestamps author reviews comments).

(** "a PR record carrying error" *)
Definition carriesError (p : PRDetail) : bool :=
  match error p with Some _ => true | None => false end.

(** Reviewer aggregation.  "Identity = (repo, number)": the distinct PRs of
    the batch that carry no error and have a review by [who]. *)
Definition prsReviewedBy (who : string) (prDetails : list PRDetail)
  : list (string * Z) :=
  remove_dups
    (map (fun p => (repo p, number p))
         (List.filter
            (fun p => negb (carriesError p)
                      && existsb (fun r => bool_decide (reviewer r = who))
                                 (reviews p))
            prDetails)).

End Spec.

(** No commit lists the same filename twice. *)
Definition distinctFilesPerCommit (commits : list Commit) : Prop :=
  Forall (fun c => NoDup (filename <$> files c)) commits.

(** A filename has a non-empty set of commit indices in the map. *)
Definition touched (st : Collector.ChurnState) (name : string) : bool :=
  match Collector.fileSeenInCommit st !! name with
  | Some seen => 0 <? Z.of_nat (size seen)
  | None => false
  end.

(** The records that the three aggregators work on. *)
Definition validPRs (prDetails : list PRDetail) : list PRDetail :=
  List.filter (fun p => negb (JS.truthyOptString (error p))) prDetails.

(** In an accumulator of calculateReviewerSummary the five PR-level sample
    arrays have one entry per member of [prsReviewed]. *)
Definition oneSamplePerRecordedPr (stats : Collector.ReviewerStats) : Prop :=
  let n := size (Collector.st_prsReviewed stats) in
  length (Collector.st_prSizesReviewed stats) = n
  /\ length (Collector.st_prProdLinesReviewed stats) = n
  /\ length (Collector.st_prTestLinesReviewed stats) = n
  /\ length (Collector.st_iterationsPerPr stats) = n
  /\ length (Collector.st_reviewedPrCloseTimes stats) = n.

(** ** Notions used by the further properties *)

(** Every file change adds zero or more lines, as the API reports them. *)
Definition nonNegativeAdditions (commits : list Commit) : Prop :=
  Forall (fun c => Forall (fun f => 0 <= additions f) (files c)) commits.

(** The commit lists a file of that name. *)
Definition listsFile (name : string) (c : Commit) : bool :=
  existsb (fun f => bool_decide (filename f = name)) (files c).

(** The indices, counted from [idx], of the commits that list [name]. *)
Fixpoint commitsTouching (name : string) (idx : nat) (commits : list Commit)
  : gset nat :=
  match commits with
  | [] => ∅
  | c :: rest =>
      (if listsFile name c then {[idx]} else ∅)
      ∪ commitsTouching name (S idx) rest
  end.

(** Every filename of the commit list, once. *)
Definition allFilenames (commits : list Commit) : list string :=
  remove_dups (flat_map (fun c => map filename (files c)) commits).

(** The configured patterns that are directory names. *)
Definition directoryPatterns : list string :=
  List.filter (fun pattern => JS.endsWith "/" pattern) config.testFilePatterns.

(** The characters of a string. *)
Definition chars (s : string) : list Ascii.ascii := String.list_ascii_of_string s.

(** The character [*] of the wildcard patterns. *)
Definition asterisk : Ascii.ascii := Ascii.ascii_of_nat 42.

(** The enriched review that processPR appends for one review of the API
    (the appended entry does not depend on the PR author). *)
Definition enrichedReviewOf (byUser : JS.Map (list Z))
    (review : Collector.ApiReview) : list Review :=
  (Collector.processReview EmptyString byUser ([], []) review).2.

(** The reviews that the aggregators see: those of the usable records. *)
Definition reviewsOfValid (prDetails : list PRDetail) : list Review :=
  flat_map reviews (validPRs prDetails).

(** The sum of the counts held in a per-repository object. *)
Definition countsTotal (obj : gmap string Z) : Z :=
  Spec.sumOver snd (map_to_list obj).

(** A list in descending order of a key. *)
Definition descendingBy {A} (key : A -> Z) (l : list A) : Prop :=
  StronglySorted (fun a b => key b <= key a) l.

(** What the counters of one row of the reviewer summary always satisfy. *)
Definition reviewerRowIsConsistent (row : ReviewerSummary) : Prop :=
  0 <= rs_approvals row
  /\ 0 <= rs_changesRequested row
  /\ 0 <= rs_commentOnlyReviews row
  /\ rs_approvals row + rs_changesRequested row + rs_commentOnlyReviews row
     <= rs_totalReviews row
  /\ 0 <= rs_noCommentApprovals row <= rs_approvals row
  /\ 1 <= rs_prsReviewedCount row <= rs_totalReviews row
  /\ (0 <= rs_noCommentApprovalPct row <= 100)%Q
  /\ countsTotal (rs_prsByRepo row) = rs_prsReviewedCount row.

(** The same for the accumulator of a reviewer; [visited] tells whether a
    review has been tallied. *)
Definition reviewerStatsAreConsistent (visited : bool)
    (stats : Collector.ReviewerStats) : Prop :=
  0 <= Collector.st_approvals stats
  /\ 0 <= Collector.st_changesRequested stats
  /\ 0 <= Collector.st_commentOnlyReviews stats
  /\ Collector.st_approvals stats + Collector.st_changesRequested stats
     + Collector.st_commentOnlyReviews stats
     <= Collector.st_totalReviews stats
  /\ 0 <= Collector.st_noCommentApprovals stats <= Collector.st_approvals stats
  /\ (if visited then 1 else 0) <= Z.of_nat (size (Collector.st_prsReviewed stats))
     <= Collector.st_totalReviews stats
  /\ countsTotal (Collector.st_prsByRepo stats)
     = Z.of_nat (size (Collector.st_prsReviewed stats)).

(** The reviews of the usable records, each with its PR, in the order in
    which calculateReviewerSummary visits them. *)
Definition reviewedPairs (prDetails : list PRDetail) : list (PRDetail * Review) :=
  flat_map (fun pr => map (pair pr) (reviews pr)) (validPRs prDetails).


(** The response-time columns of a reviewer row, where reported, are in
    order; a null in a larger statistic forces a null in the smaller. *)
Definition responseColumnsAreOrdered (row : ReviewerSummary) : Prop :=
  (forall fastest, rs_fastestResponseHours row = Some fastest ->
                   (0 <= fastest)%Q)
  /\ (forall fastest med,
        rs_fastestResponseHours row = Some fastest ->
        rs_medianResponseHours row = Some med -> (fastest <= med)%Q)
  /\ (forall med p90,
        rs_medianResponseHours row = Some med ->
        rs_p90ResponseHours row = Some p90 -> (med <= p90)%Q)
  /\ (rs_p90ResponseHours row = None -> rs_medianResponseHours row = None)
  /\ (rs_medianResponseHours row = None -> rs_fastestResponseHours row = None).

(** A row of the author summary: at least one PR, per-repository counts
    that add up to the PR count, and averages of hours that are not
    negative. *)
Definition authorRowIsConsistent (row : AuthorSummary) : Prop :=
  1 <= as_prsAuthored row
  /\ countsTotal (as_prsByRepo row) = as_prsAuthored row
  /\ (0 <= as_authoredPrAvgCloseTime row)%Q
  /\ (forall hours, as_authoredPrAvgReviewTime row = Some hours -> (0 <= hours)%Q).

(** The same for the accumulator of an author; [visited] tells whether a PR
    has been tallied. *)
Definition authorStatsAreConsistent (visited : bool)
    (stats : Collector.AuthorStats) : Prop :=
  (if visited then 1 else 0) <= Collector.au_prsAuthored stats
  /\ countsTotal (Collector.au_prsByRepo stats) = Collector.au_prsAuthored stats
  /\ Forall (fun t => (0 <= t)%Q) (Collector.au_closeTimes stats)
  /\ Forall (fun t => (0 <= t)%Q) (Collector.au_reviewTimes stats).

(** [worse] is at least as large as [better] in every input of the quality
    score (PR size, files, iterations, close time, churn); a missing close
    time only compares with a missing one. *)
Definition noBetterThan (worse better : Dashboard.Developer) : Prop :=
  (Dashboard.avgSrcSize better <= Dashboard.avgSrcSize worse)%Q
  /\ (Dashboard.avgSrcFiles better <= Dashboard.avgSrcFiles worse)%Q
  /\ (Dashboard.avgIterations better <= Dashboard.avgIterations worse)%Q
  /\ (Dashboard.churnPct better <= Dashboard.churnPct worse)%Q
  /\ match Dashboard.avgWorkingHoursToClose better,
           Dashboard.avgWorkingHoursToClose worse with
     | Some b, Some w => (b <= w)%Q
     | None, None => True
     | _, _ => False
     end.

(** The PRs authored plus the reviews done that the data file lists under
    [name]. *)
Definition activityOf (data : Dashboard.MetricsData) (name : string) : Z :=
  Spec.sumOver as_prsAuthored
    (List.filter (fun a => String.eqb (as_author a) name)
                 (Dashboard.md_authorSummary data))
  + Spec.sumOver rs_totalReviews
      (List.filter (fun r => String.eqb (rs_reviewer r) name)
                   (Dashboard.md_summary data)).

Definition isListed (data : Dashboard.MetricsData) (name : string) : Prop :=
  In name (map as_author (Dashboard.md_authorSummary data))
  \/ In name (map rs_reviewer (Dashboard.md_summary data)).








(** ** Sample records used by the examples below *)

Module Samples.

Definition file (name : string) (added : Z) : FileChange :=
  {| filename := name; additions := added; deletions := 0;
     status := "modified" |}.

Definition commit (fs : list FileChange) : Commit :=
  {| sha := "0000000"; date := 0; files := fs |}.

(** Two commits; the first lists [a.ts] twice. *)
Definition repeatedInOneCommit : list Commit :=
  [ commit [file "a.ts" 10; file "a.ts" 5]; commit [file "b.ts" 1] ].

(** Two commits that both touch [a.ts]: 23 of the 80 added lines are
    rework, 28.75 percent. *)
Definition reworkedOnce : list Commit :=
  [ commit [file "a.ts" 57]; commit [file "a.ts" 23] ].

(** Three commits that come back to [a.ts] and [b.ts]. *)
Definition reworked : list Commit :=
  [ commit [file "a.ts" 10; file "b.ts" 5];
    commit [file "a.ts" 5; file "c.ts" 1];
    commit [file "a.ts" 1; file "b.ts" 1] ].

(** A PR by ana, opened on Monday 1 January 2024 (day 19723) at 10:00.
    Ana comments on her own PR at 11:00; bob comments at 13:00 and submits
    his review at 14:00. *)
Definition anaPr : Collector.MergedPR :=
  {| Collector.pr_repo := "fe-redesign"; Collector.pr_number := 7;
     Collector.pr_title := "Add filters"; Collector.pr_author := "ana";
     Collector.pr_createdAt := localTime 19723 10;
     Collector.pr_mergedAt := localTime 19723 16;
     Collector.pr_url := "https://example.org/fe-redesign/pull/7" |}.

Definition anaPrComments : list Collector.ConversationComment :=
  [ {| Collector.cc_login := Some "ana";
       Collector.cc_created_at := localTime 19723 11 |};
    {| Collector.cc_login := Some "bob";
       Collector.cc_created_at := localTime 19723 13 |} ]%string.

Definition anaPrReviews : list Collector.ApiReview :=
  [ {| Collector.ar_login := "bob"; Collector.ar_state := APPROVED;
       Collector.ar_submitted_at := Some (localTime 19723 14);
       Collector.ar_body := Some EmptyString; Collector.ar_inlineComments := [] |} ]%string.

(** Enriched records.  Day 19723 is Monday 1 January 2024, day 19728 the
    Saturday of that week. *)
Definition review (who : string) (verdict : ReviewState) (at_ : Z) : Review :=
  {| reviewer := who; state := verdict; submittedAt := Some at_;
     firstActivityAt := Some at_; hasComments := false;
     inlineCommentCount := 0; conversationCommentCount := 0; body := EmptyString |}.

Definition prDetail (repoName : string) (num : Z) (created merged : Z)
    (lines : Z) (rs : list Review) (failure : option string) : PRDetail :=
  {| repo := repoName; number := num; title := "A change"; author := "ana";
     createdAt := created; mergedAt := merged;
     url := "https://example.org/pull";
     totalAdditions := lines; totalDeletions := 0;
     prodAdditions := lines; prodDeletions := 0;
     testAdditions := 0; testDeletions := 0;
     filesChanged := 1; testFilesChanged := 0; prodFilesChanged := 1;
     iterationCount := lengthZ rs; reviews := rs;
     firstResponseAt := head (omap firstActivityAt rs);
     commitCount := Some 1; churnPercentage := Some 0%Q;
     fileChurnCount := Some 0; error := failure |}.

(** Two PRs with the same number in two repositories, both reviewed by
    bob. *)
Definition sameNumberTwoRepos : list PRDetail :=
  [ prDetail "fe-redesign" 12 (localTime 19723 10) (localTime 19723 16) 100
      [review "bob" APPROVED (localTime 19723 12)] None;
    prDetail "be-revamp" 12 (localTime 19724 10) (localTime 19724 15) 300
      [review "bob" APPROVED (localTime 19724 11)] None ].

(** One PR on which bob submitted two reviews. *)
Definition reviewedTwice : list PRDetail :=
  [ prDetail "fe-redesign" 12 (localTime 19723 10) (localTime 19723 16) 100
      [review "bob" COMMENTED (localTime 19723 12);
       review "bob" APPROVED (localTime 19723 15)] None ].

(** A record whose [error] is the empty string. *)
Definition emptyError : PRDetail :=
  prDetail "fe-redesign" 30 (localTime 19723 10) (localTime 19723 16) 100 []
    (Some EmptyString).

(** A record whose request failed. *)
Definition failed : PRDetail :=
  prDetail "fe-redesign" 31 (localTime 19723 10) (localTime 19723 16) 100
    [review "bob" APPROVED (localTime 19723 12)]
    (Some "Command failed: gh api").

(** A PR opened on Saturday at 10:00, answered by bob on Saturday at 12:00
    and merged on Monday at 11:00. *)
Definition weekendResponse : list PRDetail :=
  [ prDetail "fe-redesign" 21 (localTime 19728 10) (localTime 19730 11) 50
      [review "bob" APPROVED (localTime 19728 12)] None ].

(** A PR opened, approved and merged within one Saturday. *)
Definition weekendMerge : list PRDetail :=
  [ prDetail "fe-redesign" 22 (localTime 19728 10) (localTime 19728 14) 50
      [review "bob" APPROVED (localTime 19728 12)] None ].

(** The JSON file that the collector writes for a batch, without the
    [teamSummary] field (an old data file). *)
(** An author of small PRs with a churn of 32 percent and no close time. *)
Definition halfwayDeveloper : Dashboard.Developer :=
  {| Dashboard.avgSrcSize := 104; Dashboard.avgSrcFiles := 8;
     Dashboard.avgIterations := 1;
     Dashboard.avgWorkingHoursToClose := None;
     Dashboard.churnPct := 32 |}.

Definition noTeam : TeamAuthored :=
  {| ta_totalPRs := 0; ta_totalDevelopers := 0; ta_avgPrSize := 0;
     ta_avgProdLines := 0; ta_avgTestLines := 0; ta_avgCloseTime := None;
     ta_avgIterations := 0; ta_avgChurnPct := 0; ta_avgFileChurn := 0;
     ta_avgCommitsPerPr := 0 |}.

Definition oldDataFile (prDetails : list PRDetail) : Dashboard.MetricsData :=
  {| Dashboard.md_month := "2024-01";
     Dashboard.md_org := "acme";
     Dashboard.md_repos := ["fe-redesign"; "be-revamp"]%string;
     Dashboard.md_generatedAt := "2024-02-01T00:00:00.000Z";
     Dashboard.md_summary := Collector.calculateReviewerSummary prDetails;
     Dashboard.md_authorSummary := Collector.calculateAuthorSummary prDetails;
     Dashboard.md_teamSummary := None;
     Dashboard.md_details := prDetails |}.

(** The enriched review of bob on ana's PR. *)
Definition bobOnAnaPr : Review :=
  {| reviewer := "bob"; state := APPROVED;
     submittedAt := Some (localTime 19723 14);
     firstActivityAt := Some (localTime 19723 13);
     hasComments := true; inlineCommentCount := 0;
     conversationCommentCount := 1; body := EmptyString |}.


End Samples.

(** * Verification *)

(** ** Double-precision arithmetic *)

Lemma pow2_pos (e : Z) : (0 < 2 ^ e)%Q.
Proof. apply Qpower_0_lt. reflexivity. Qed.

Lemma pow2_succ (e : Z) : (2 ^ (e + 1) == 2 * 2 ^ e)%Q.
Proof. rewrite Qpower_plus by discriminate. rewrite Qpower_1_r. ring. Qed.

Lemma pow2_le (a b : Z) : a <= b -> (2 ^ a <= 2 ^ b)%Q.
Proof. intros Hab. apply Qpower_le_compat_l; [exact Hab | discriminate]. Qed.

Lemma pow2_Z (n : Z) : 0 <= n -> (inject_Z (2 ^ n) == 2 ^ n)%Q.
Proof. intros Hn. apply (Zpower_Qpower 2 n Hn). Qed.

Lemma ilog2_spec (q : Q) :
  (0 < q)%Q -> (2 ^ JS.ilog2 q <= q)%Q /\ (q < 2 ^ (JS.ilog2 q + 1))%Q.
Proof.
  intros Hq. destruct q as [n d]. assert (Hn : 0 < n) by (unfold Qlt in Hq; cbn in Hq; lia).
  unfold JS.ilog2. cbn [Qnum Qden].
  pose proof (Z.log2_spec n Hn) as [Hn1 Hn2].
  pose proof (Z.log2_spec (Z.pos d) ltac:(lia)) as [Hd1 Hd2].
  pose proof (Z.log2_nonneg n) as Ha. pose proof (Z.log2_nonneg (Z.pos d)) as Hb.
  set (a := Z.log2 n) in *. set (b := Z.log2 (Z.pos d)) in *.
  assert (Hq' : (n # d == inject_Z n / inject_Z (Z.pos d))%Q) by apply Qmake_Qdiv.
  assert (Hdpos : (0 < inject_Z (Z.pos d))%Q) by reflexivity.
  assert (Hlow : (2 ^ (a - b - 1) <= n # d)%Q).
  { rewrite Hq'. apply Qle_shift_div_l; [exact Hdpos |].
    apply Qle_trans with (2 ^ (a - b - 1) * 2 ^ (b + 1))%Q.
    - apply Qmult_le_l; [apply pow2_pos |].
      rewrite <- pow2_Z by lia. rewrite <- Zle_Qle. change (Z.succ b) with (b + 1) in Hd2. lia.
    - rewrite <- Qpower_plus by discriminate.
      replace (a - b - 1 + (b + 1)) with a by lia.
      rewrite <- pow2_Z by lia. rewrite <- Zle_Qle. exact Hn1. }
  assert (Hhigh : (n # d < 2 ^ (a - b + 1))%Q).
  { rewrite Hq'. apply Qlt_shift_div_r; [exact Hdpos |].
    apply Qlt_le_trans with (2 ^ (a - b + 1) * 2 ^ b)%Q.
    - rewrite <- Qpower_plus by discriminate.
      replace (a - b + 1 + b) with (a + 1) by lia.
      rewrite <- pow2_Z by lia. rewrite <- Zlt_Qlt. change (Z.succ a) with (a + 1) in Hn2. lia.
    - apply Qmult_le_l; [apply pow2_pos |].
      rewrite <- pow2_Z by lia. rewrite <- Zle_Qle. exact Hd1. }
  destruct (Qle_bool (2 ^ (a - b)) (n # d)) eqn:Hcmp.
  - split; [apply Qle_bool_iff, Hcmp | exact Hhigh].
  - split; [exact Hlow |].
    replace (a - b - 1 + 1) with (a - b) by lia.
    apply Qnot_le_lt. intros Hle. apply Qle_bool_iff in Hle. congruence.
Qed.

Lemma ilog2_monotone (x y : Q) :
  (0 < x)%Q -> (x <= y)%Q -> JS.ilog2 x <= JS.ilog2 y.
Proof.
  intros Hx Hxy. assert (Hy : (0 < y)%Q) by lra.
  destruct (ilog2_spec x Hx) as [Hx1 _]. destruct (ilog2_spec y Hy) as [_ Hy2].
  assert (Hlt : (2 ^ JS.ilog2 x < 2 ^ (JS.ilog2 y + 1))%Q) by lra.
  apply Qpower_lt_compat_l_inv in Hlt; [lia | reflexivity].
Qed.

Lemma ilog2_comp (x y : Q) : (x == y)%Q -> (0 < x)%Q -> JS.ilog2 x = JS.ilog2 y.
Proof.
  intros Hxy Hx. assert (Hy : (0 < y)%Q) by lra.
  pose proof (ilog2_monotone x y Hx ltac:(lra)).
  pose proof (ilog2_monotone y x Hy ltac:(lra)). lia.
Qed.

Lemma nearestEven_error (t : Q) :
  (- (1 # 2) <= inject_Z (JS.nearestEven t) - t <= 1 # 2)%Q.
Proof.
  unfold JS.nearestEven. cbv zeta.
  pose proof (Qfloor_le t) as Hlo. pose proof (Qlt_floor t) as Hhi.
  rewrite inject_Z_plus in Hhi. change (inject_Z 1) with 1%Q in Hhi.
  destruct (Qcompare_spec (t - inject_Z (Qfloor t)) (1 # 2)) as [Heq|Hlt|Hgt].
  - destruct (Z.even (Qfloor t)); [lra |].
    rewrite inject_Z_plus. change (inject_Z 1) with 1%Q. lra.
  - lra.
  - rewrite inject_Z_plus. change (inject_Z 1) with 1%Q. lra.
Qed.

Lemma nearestEven_comp (t t' : Q) : (t == t')%Q -> JS.nearestEven t = JS.nearestEven t'.
Proof.
  intros Ht. unfold JS.nearestEven. cbv zeta.
  rewrite (Qfloor_comp _ _ Ht).
  assert (Hcmp : (t - inject_Z (Qfloor t') ?= 1 # 2)%Q
                 = (t' - inject_Z (Qfloor t') ?= 1 # 2)%Q)
    by (apply Qcompare_comp; [rewrite Ht |]; reflexivity).
  rewrite Hcmp. reflexivity.
Qed.

Lemma nearestEven_monotone (a b : Q) :
  (a <= b)%Q -> JS.nearestEven a <= JS.nearestEven b.
Proof.
  intros Hab. destruct (Z_le_gt_dec (JS.nearestEven a) (JS.nearestEven b)) as [Hle|Hgt];
    [exact Hle |].
  assert (Hq : (inject_Z (JS.nearestEven b) + 1 <= inject_Z (JS.nearestEven a))%Q).
  { change 1%Q with (inject_Z 1). rewrite <- inject_Z_plus, <- Zle_Qle. lia. }
  pose proof (nearestEven_error a). pose proof (nearestEven_error b).
  assert (Heq : (a == b)%Q) by lra.
  rewrite (nearestEven_comp a b Heq) in Hgt. lia.
Qed.

Lemma nearestEven_Z (n : Z) : JS.nearestEven (inject_Z n) = n.
Proof.
  pose proof (nearestEven_error (inject_Z n)) as [Hlo Hhi].
  assert (H1 : (inject_Z (JS.nearestEven (inject_Z n)) < inject_Z (n + 1))%Q)
    by (rewrite inject_Z_plus; change (inject_Z 1) with 1%Q; lra).
  assert (H2 : (inject_Z n < inject_Z (JS.nearestEven (inject_Z n) + 1))%Q)
    by (rewrite inject_Z_plus; change (inject_Z 1) with 1%Q; lra).
  rewrite <- Zlt_Qlt in H1, H2. lia.
Qed.

Lemma doubleOfPositive_value (q : Q) :
  (JS.doubleOfPositive q == inject_Z (JS.significand q) * 2 ^ JS.lastPlace q)%Q.
Proof. unfold JS.doubleOfPositive. apply Qred_correct. Qed.

Lemma significand_upper (q : Q) : (0 < q)%Q -> JS.significand q <= 2 ^ 53.
Proof.
  intros Hq. unfold JS.significand.
  rewrite <- (nearestEven_Z (2 ^ 53)). apply nearestEven_monotone.
  destruct (ilog2_spec q Hq) as [_ Hhi].
  apply Qle_shift_div_r; [apply pow2_pos |].
  rewrite pow2_Z by lia. rewrite <- Qpower_plus by discriminate.
  apply Qlt_le_weak. eapply Qlt_le_trans; [exact Hhi |].
  apply pow2_le. unfold JS.lastPlace. lia.
Qed.

Lemma significand_lower (q : Q) :
  (0 < q)%Q -> JS.lastPlace q = JS.ilog2 q - 52 -> 2 ^ 52 <= JS.significand q.
Proof.
  intros Hq He. unfold JS.significand.
  rewrite <- (nearestEven_Z (2 ^ 52)) at 1. apply nearestEven_monotone.
  destruct (ilog2_spec q Hq) as [Hlo _].
  apply Qle_shift_div_l; [apply pow2_pos |].
  rewrite pow2_Z by lia. rewrite <- Qpower_plus by discriminate.
  rewrite He. replace (52 + (JS.ilog2 q - 52)) with (JS.ilog2 q) by lia. exact Hlo.
Qed.

Lemma significand_nonneg (q : Q) : (0 < q)%Q -> 0 <= JS.significand q.
Proof.
  intros Hq. unfold JS.significand.
  rewrite <- (nearestEven_Z 0) at 1. apply nearestEven_monotone.
  apply Qle_shift_div_l; [apply pow2_pos |]. change (inject_Z 0) with 0%Q. lra.
Qed.

Lemma doubleOfPositive_monotone (x y : Q) :
  (0 < x)%Q -> (x <= y)%Q -> (JS.doubleOfPositive x <= JS.doubleOfPositive y)%Q.
Proof.
  intros Hx Hxy. assert (Hy : (0 < y)%Q) by lra.
  rewrite !doubleOfPositive_value.
  assert (He : JS.lastPlace x <= JS.lastPlace y)
    by (unfold JS.lastPlace; pose proof (ilog2_monotone x y Hx Hxy); lia).
  destruct (Z.eq_dec (JS.lastPlace x) (JS.lastPlace y)) as [Heq|Hne].
  - rewrite Heq. apply Qmult_le_compat_r; [| apply Qlt_le_weak, pow2_pos].
    rewrite <- Zle_Qle. unfold JS.significand. rewrite Heq.
    apply nearestEven_monotone.
    apply Qmult_le_compat_r; [exact Hxy |].
    apply Qlt_le_weak, Qinv_lt_0_compat, pow2_pos.
  - assert (Hy52 : JS.lastPlace y = JS.ilog2 y - 52) by (unfold JS.lastPlace in *; lia).
    pose proof (significand_upper x Hx) as Hux.
    pose proof (significand_lower y Hy Hy52) as Hly.
    apply Qle_trans with (inject_Z (2 ^ 53) * 2 ^ JS.lastPlace x)%Q.
    + apply Qmult_le_compat_r; [| apply Qlt_le_weak, pow2_pos].
      rewrite <- Zle_Qle. exact Hux.
    + apply Qle_trans with (inject_Z (2 ^ 52) * 2 ^ JS.lastPlace y)%Q.
      * rewrite !pow2_Z by lia. rewrite <- !Qpower_plus by discriminate.
        apply pow2_le. lia.
      * apply Qmult_le_compat_r; [| apply Qlt_le_weak, pow2_pos].
        rewrite <- Zle_Qle. exact Hly.
Qed.

Lemma doubleOfPositive_nonneg (q : Q) : (0 < q)%Q -> (0 <= JS.doubleOfPositive q)%Q.
Proof.
  intros Hq. rewrite doubleOfPositive_value.
  apply Qmult_le_0_compat; [| apply Qlt_le_weak, pow2_pos].
  change 0%Q with (inject_Z 0). rewrite <- Zle_Qle. apply significand_nonneg, Hq.
Qed.

Lemma doubleOfPositive_comp (x y : Q) :
  (x == y)%Q -> (0 < x)%Q -> JS.doubleOfPositive x = JS.doubleOfPositive y.
Proof.
  intros Hxy Hx. unfold JS.doubleOfPositive, JS.significand, JS.lastPlace.
  rewrite <- (ilog2_comp x y Hxy Hx).
  apply Qred_complete.
  rewrite (nearestEven_comp (x / 2 ^ Z.max (JS.ilog2 x - 52) (-1074))
                            (y / 2 ^ Z.max (JS.ilog2 x - 52) (-1074)))
    by (apply Qmult_comp; [exact Hxy | reflexivity]).
  reflexivity.
Qed.

Lemma double_comp (x y : Q) : (x == y)%Q -> JS.double x = JS.double y.
Proof.
  intros Hxy. unfold JS.double.
  assert (Hcmp : (0 ?= x)%Q = (0 ?= y)%Q)
    by (apply Qcompare_comp; [reflexivity | exact Hxy]).
  rewrite <- Hcmp. destruct (Qcompare_spec 0 x) as [Heq|Hlt|Hgt].
  - reflexivity.
  - apply doubleOfPositive_comp; assumption.
  - f_equal. apply doubleOfPositive_comp; [apply Qopp_comp, Hxy | lra].
Qed.

Lemma double_monotone (x y : Q) : (x <= y)%Q -> (JS.double x <= JS.double y)%Q.
Proof.
  intros Hxy. unfold JS.double.
  destruct (Qcompare_spec 0 x) as [Hx|Hx|Hx], (Qcompare_spec 0 y) as [Hy|Hy|Hy];
    try lra.
  - apply doubleOfPositive_nonneg, Hy.
  - apply doubleOfPositive_monotone; assumption.
  - pose proof (doubleOfPositive_nonneg (- x) ltac:(lra)). lra.
  - pose proof (doubleOfPositive_nonneg (- x) ltac:(lra)).
    pose proof (doubleOfPositive_nonneg y Hy). lra.
  - pose proof (doubleOfPositive_monotone (- y) (- x) ltac:(lra) ltac:(lra)). lra.
Qed.

Lemma double_zero : JS.double 0 = 0%Q.
Proof. reflexivity. Qed.

Lemma double_nonneg (q : Q) : (0 <= q)%Q -> (0 <= JS.double q)%Q.
Proof. intros Hq. change 0%Q with (JS.double 0) at 1. apply double_monotone, Hq. Qed.

Lemma double_upper (q c : Q) :
  (q <= c)%Q -> JS.double c = c -> (JS.double q <= c)%Q.
Proof. intros Hq Hc. rewrite <- Hc. apply double_monotone, Hq. Qed.

(** The rounding error is at most half a unit in the last place. *)
Lemma doubleOfPositive_error (q : Q) :
  (0 < q)%Q ->
  (Qabs (JS.doubleOfPositive q - q) <= q * (1 # 2 ^ 53) + (1 # 2 ^ 1075))%Q.
Proof.
  intros Hq. rewrite doubleOfPositive_value.
  pose proof (nearestEven_error (q / 2 ^ JS.lastPlace q)) as Herr.
  fold (JS.significand q) in Herr.
  pose proof (pow2_pos (JS.lastPlace q)) as Hpos.
  set (u := (2 ^ JS.lastPlace q)%Q) in *.
  assert (Hdiff : (Qabs (inject_Z (JS.significand q) * u - q) <= u * (1 # 2))%Q).
  { assert (Hq' : (q == q / u * u)%Q) by (field; lra).
    set (t := (q / u)%Q) in *. apply Qabs_Qle_condition.
    assert (H1 : ((inject_Z (JS.significand q) - t) * u <= (1 # 2) * u)%Q)
      by (apply Qmult_le_compat_r; lra).
    assert (H2 : (- (1 # 2) * u <= (inject_Z (JS.significand q) - t) * u)%Q)
      by (apply Qmult_le_compat_r; lra).
    split; lra. }
  eapply Qle_trans; [exact Hdiff |].
  unfold u, JS.lastPlace. destruct (Z.max_spec (JS.ilog2 q - 52) (-1074)) as [[_ ->]|[_ ->]].
  - change (2 ^ (-1074) * (1 # 2))%Q with ((1 # 2 ^ 1074) * (1 # 2))%Q.
    assert (H0 : (0 <= q * (1 # 2 ^ 53))%Q) by (apply Qmult_le_0_compat; [lra | discriminate]).
    assert (Hc : ((1 # 2 ^ 1074) * (1 # 2) == 1 # 2 ^ 1075)%Q) by reflexivity.
    rewrite Hc. lra.
  - destruct (ilog2_spec q Hq) as [Hlo _].
    assert (Hsplit : (2 ^ (JS.ilog2 q - 52) == 2 ^ JS.ilog2 q * (1 # 2 ^ 52))%Q).
    { unfold Z.sub. rewrite Qpower_plus by discriminate. reflexivity. }
    rewrite Hsplit.
    assert (Hc : (2 ^ JS.ilog2 q * (1 # 2 ^ 52) * (1 # 2) == 2 ^ JS.ilog2 q * (1 # 2 ^ 53))%Q).
    { rewrite <- Qmult_assoc. apply Qmult_comp; reflexivity. }
    rewrite Hc.
    assert (Hm : (2 ^ JS.ilog2 q * (1 # 2 ^ 53) <= q * (1 # 2 ^ 53))%Q)
      by (apply Qmult_le_compat_r; [exact Hlo | discriminate]).
    assert (Hp : (0 <= 1 # 2 ^ 1075)%Q) by discriminate.
    lra.
Qed.

Lemma double_error (q : Q) :
  (Qabs (JS.double q - q) <= Qabs q * (1 # 2 ^ 53) + (1 # 2 ^ 1075))%Q.
Proof.
  unfold JS.double. destruct (Qcompare_spec 0 q) as [Hq|Hq|Hq].
  - rewrite <- Hq. cbn. discriminate.
  - rewrite (Qabs_pos q) by lra. apply doubleOfPositive_error, Hq.
  - rewrite (Qabs_neg q) by lra.
    pose proof (doubleOfPositive_error (- q) ltac:(lra)) as Herr.
    assert (Hsame : (Qabs (- JS.doubleOfPositive (- q) - q)
                     == Qabs (JS.doubleOfPositive (- q) - - q))%Q).
    { rewrite <- (Qabs_opp (JS.doubleOfPositive (- q) - - q)).
      apply Qabs_wd. ring. }
    rewrite Hsame. exact Herr.
Qed.


(** ** Working hours *)

Lemma walkDays_step (start end_ currentDay : Z) (hoursToRemove : Q) :
  currentDay < end_ ->
  walkDays start end_ currentDay hoursToRemove
  = walkDays start end_ (nextDay currentDay)
      (removeForDay start end_ currentDay hoursToRemove).
Proof.
  intros Hlt. rewrite walkDays_equation_1.
  destruct (Z_lt_dec currentDay end_) as [?|Hge]; [reflexivity | lia].
Qed.

Lemma walkDays_done (start end_ currentDay : Z) (hoursToRemove : Q) :
  end_ <= currentDay ->
  walkDays start end_ currentDay hoursToRemove = hoursToRemove.
Proof.
  intros Hge. rewrite walkDays_equation_1.
  destruct (Z_lt_dec currentDay end_) as [?|?]; [lia | reflexivity].
Qed.

Lemma localTime_day (day hour : Z) :
  0 <= hour < 24 -> localTime day hour / MS_PER_DAY = day.
Proof.
  intros Hh. unfold localTime, MS_PER_DAY, MS_PER_HOUR.
  symmetry. apply (Z.div_unique_pos _ _ _ (hour * (1000 * 60 * 60))); lia.
Qed.

Lemma setHours_localTime (day hour h : Z) :
  0 <= hour < 24 -> setHours (localTime day hour) h = localTime day h.
Proof. intros Hh. unfold setHours. rewrite localTime_day by lia. reflexivity. Qed.

Lemma getDay_localTime (day hour : Z) :
  0 <= hour < 24 -> getDay (localTime day hour) = (day + 4) mod 7.
Proof. intros Hh. unfold getDay. rewrite localTime_day by lia. reflexivity. Qed.

Lemma nextDay_localTime (day hour : Z) :
  nextDay (localTime day hour) = localTime (day + 1) hour.
Proof. unfold nextDay, localTime. ring. Qed.

(** What the loop body removes for a day given by its number. *)
Lemma removeForDay_localTime (start end_ day : Z) (acc : Q) :
  removeForDay start end_ (localTime day 0) acc =
  if ((day + 4) mod 7 =? 0) || ((day + 4) mod 7 =? 6) then
    if Z.max start (localTime day 0) <? Z.min end_ (localTime (day + 1) 0)
    then (acc + perHour (Z.min end_ (localTime (day + 1) 0)
                         - Z.max start (localTime day 0)))%Q
    else acc
  else
    let acc' :=
      if Z.max start (localTime day 18) <? Z.min end_ (localTime (day + 1) 0)
      then (acc + perHour (Z.min end_ (localTime (day + 1) 0)
                           - Z.max start (localTime day 18)))%Q
      else acc in
    if Z.max start (localTime day 0) <? Z.min end_ (localTime day 10)
    then (acc' + perHour (Z.min end_ (localTime day 10)
                          - Z.max start (localTime day 0)))%Q
    else acc'.
Proof.
  unfold removeForDay.
  rewrite getDay_localTime, nextDay_localTime, !setHours_localTime by lia.
  reflexivity.
Qed.

Ltac decide_ltb :=
  repeat match goal with
    | |- context [?a <? ?b] =>
        first [ rewrite (proj2 (Z.ltb_lt a b)) by lia
              | rewrite (proj2 (Z.ltb_ge a b)) by lia ]
    end.

Ltac decide_min_max :=
  repeat match goal with
    | |- context [Z.max ?a ?b] =>
        first [ rewrite (Z.max_l a b) by lia | rewrite (Z.max_r a b) by lia ]
    | |- context [Z.min ?a ?b] =>
        first [ rewrite (Z.min_l a b) by lia | rewrite (Z.min_r a b) by lia ]
    end.

Ltac walk_one_day Hday :=
  rewrite walkDays_step by (unfold localTime, MS_PER_DAY, MS_PER_HOUR; lia);
  rewrite removeForDay_localTime, nextDay_localTime, Hday;
  cbn [Z.eqb Pos.eqb orb].

(** From Friday 16:00 to Monday 11:00 the loop removes 64 hours. *)
Lemma friday_walk (day : Z) :
  (day + 4) mod 7 = 5 ->
  (walkDays (localTime day 16) (localTime (day + 3) 11) (localTime day 0) 0
   == 64)%Q.
Proof.
  intros Hfri.
  assert (Hsat : (day + 1 + 4) mod 7 = 6) by (Z.div_mod_to_equations; lia).
  assert (Hsun : (day + 1 + 1 + 4) mod 7 = 0) by (Z.div_mod_to_equations; lia).
  assert (Hmon : (day + 1 + 1 + 1 + 4) mod 7 = 1) by (Z.div_mod_to_equations; lia).
  walk_one_day Hfri. walk_one_day Hsat. walk_one_day Hsun. walk_one_day Hmon.
  rewrite walkDays_done by (unfold localTime, MS_PER_DAY, MS_PER_HOUR; lia).
  unfold localTime, MS_PER_DAY, MS_PER_HOUR; cbn zeta.
  decide_ltb. decide_min_max.
  repeat match goal with
    | |- context [perHour ?x] => progress ring_simplify x
    end.
  vm_compute. reflexivity.
Qed.

(** C1.  For every Friday: from 16:00 of that day to 11:00 of the following
    Monday, both copies of calculateWorkingHours return 3 hours (2 hours left
    of Friday's window, 1 hour into Monday's; the nights and the weekend are
    removed). *)
Theorem friday_afternoon_to_monday_morning (day : Z) :
  getDay (localTime day 16) = 5 ->
  (Collector.calculateWorkingHours (localTime day 16) (localTime (day + 3) 11)
   == 3)%Q
  /\ (Dashboard.calculateWorkingHours (Some (localTime day 16))
                                      (Some (localTime (day + 3) 11))
      == 3)%Q.
Proof.
  intros Hfri. rewrite getDay_localTime in Hfri by lia.
  assert (Hwalk := friday_walk day Hfri).
  assert (Horder : (localTime (day + 3) 11 <=? localTime day 16) = false)
    by (apply Z.leb_gt; unfold localTime, MS_PER_DAY, MS_PER_HOUR; lia).
  assert (Hspan : localTime (day + 3) 11 - localTime day 16 = 67 * MS_PER_HOUR)
    by (unfold localTime, MS_PER_DAY, MS_PER_HOUR; lia).
  unfold Collector.calculateWorkingHours, Dashboard.calculateWorkingHours.
  rewrite Horder; cbn zeta.
  rewrite setHours_localTime, Hspan by lia.
  assert (Hres : (Qmax 0 (perHour (67 * MS_PER_HOUR)
                          - walkDays (localTime day 16) (localTime (day + 3) 11)
                              (localTime day 0) 0) == 3)%Q).
  { rewrite Hwalk. vm_compute. reflexivity. }
  split; exact Hres.
Qed.

(** Friday 5 January 2024 is day 19727 of the epoch. *)
Lemma friday_afternoon_to_monday_morning_witness :
  getDay (localTime 19727 16) = 5
  /\ (Collector.calculateWorkingHours (localTime 19727 16) (localTime 19730 11)
      == 3)%Q.
Proof.
  split; [reflexivity |].
  exact (proj1 (friday_afternoon_to_monday_morning 19727 eq_refl)).
Defined.

(** C2.  calculateWorkingHours is a total function whose result is never
    negative, and it is 0 whenever the end is not after the start; the
    dashboard copy also returns 0 when a timestamp is missing. *)
Theorem working_hours_nonnegative (start end_ : Z) :
  (0 <= Collector.calculateWorkingHours start end_)%Q
  /\ (forall s e : option Z, 0 <= Dashboard.calculateWorkingHours s e)%Q
  /\ (end_ <= start ->
      Collector.calculateWorkingHours start end_ = 0%Q
      /\ Dashboard.calculateWorkingHours (Some start) (Some end_) = 0%Q).
Proof.
  assert (Hcore : forall s e : Z,
             (0 <= (if e <=? s then 0
                    else Qmax 0 (perHour (e - s) - walkDays s e (setHours s 0) 0)))%Q).
  { intros s e. destruct (e <=? s); [apply Qle_refl | apply Q.le_max_l]. }
  split; [apply Hcore |]. split.
  - intros [s|] [e|]; cbn; try apply Qle_refl. apply Hcore.
  - intros Hle. unfold Collector.calculateWorkingHours, Dashboard.calculateWorkingHours.
    rewrite (proj2 (Z.leb_le end_ start) Hle). split; reflexivity.
Qed.

Lemma working_hours_nonnegative_witness :
  Collector.calculateWorkingHours (localTime 19730 11) (localTime 19727 16) = 0%Q.
Proof.
  apply (working_hours_nonnegative (localTime 19730 11) (localTime 19727 16)).
  vm_compute. discriminate.
Defined.

(** ** Change classifier *)

(** What the loop of classifyFileChanges keeps unchanged: the gap between a
    total and the sum of its two buckets. *)
Lemma classifyFile_fold (files : list FileChange) (r : Collector.FileMetrics) :
  let r' := fold_left Collector.classifyFile files r in
  Collector.fm_totalAdditions r'
    - (Collector.fm_prodAdditions r' + Collector.fm_testAdditions r')
  = Collector.fm_totalAdditions r
    - (Collector.fm_prodAdditions r + Collector.fm_testAdditions r)
  /\ Collector.fm_totalDeletions r'
       - (Collector.fm_prodDeletions r' + Collector.fm_testDeletions r')
     = Collector.fm_totalDeletions r
       - (Collector.fm_prodDeletions r + Collector.fm_testDeletions r)
  /\ Collector.fm_prodFilesChanged r' + Collector.fm_testFilesChanged r'
     = Collector.fm_prodFilesChanged r + Collector.fm_testFilesChanged r
       + lengthZ files
  /\ Collector.fm_filesChanged r' = Collector.fm_filesChanged r.
Proof.
  revert r. induction files as [|file files IH]; intros r; cbn zeta.
  - cbn. unfold lengthZ. cbn. repeat split; lia.
  - cbn [fold_left]. specialize (IH (Collector.classifyFile r file)).
    cbn zeta in IH. destruct IH as (Ha & Hd & Hf & Hn).
    rewrite Ha, Hd, Hf, Hn. unfold lengthZ. rewrite length_cons, Nat2Z.inj_succ.
    unfold Collector.classifyFile.
    destruct (Collector.isTestFile (filename file)); cbn; repeat split; lia.
Qed.

(** The loop of classifyFileChanges, from any state of [result]: every
    file adds its counts to the totals and to the bucket that isTestFile
    chooses, and to nothing else. *)
Lemma classifyFile_buckets (files : list FileChange) (r : Collector.FileMetrics) :
  let r' := fold_left Collector.classifyFile files r in
  let tests := List.filter (fun f => Collector.isTestFile (filename f)) files in
  let prods :=
    List.filter (fun f => negb (Collector.isTestFile (filename f))) files in
  Collector.fm_filesChanged r' = Collector.fm_filesChanged r
  /\ Collector.fm_testFilesChanged r'
     = Collector.fm_testFilesChanged r + lengthZ tests
  /\ Collector.fm_prodFilesChanged r'
     = Collector.fm_prodFilesChanged r + lengthZ prods
  /\ Collector.fm_testAdditions r'
     = Collector.fm_testAdditions r + Spec.sumOver additions tests
  /\ Collector.fm_prodAdditions r'
     = Collector.fm_prodAdditions r + Spec.sumOver additions prods
  /\ Collector.fm_testDeletions r'
     = Collector.fm_testDeletions r + Spec.sumOver deletions tests
  /\ Collector.fm_prodDeletions r'
     = Collector.fm_prodDeletions r + Spec.sumOver deletions prods
  /\ Collector.fm_totalAdditions r'
     = Collector.fm_totalAdditions r + Spec.sumOver additions files
  /\ Collector.fm_totalDeletions r'
     = Collector.fm_totalDeletions r + Spec.sumOver deletions files.
Proof.
  revert r. induction files as [|file files IH]; intros r; cbn zeta.
  - cbn. unfold lengthZ. cbn. repeat split; lia.
  - cbn [fold_left List.filter]. specialize (IH (Collector.classifyFile r file)).
    cbn zeta in IH.
    destruct IH as (Hn & Htf & Hpf & Hta & Hpa & Htd & Hpd & Ha & Hd).
    rewrite Hn, Htf, Hpf, Hta, Hpa, Htd, Hpd, Ha, Hd.
    unfold Collector.classifyFile.
    destruct (Collector.isTestFile (filename file)); cbn [negb];
      unfold lengthZ, Spec.sumOver; cbn; repeat split; lia.
Qed.

(** C4.  Classifier completeness: classifyFileChanges counts every file in
    exactly one of the two buckets.  filesChanged is the number of files;
    the test bucket holds the count, additions and deletions of the files
    that isTestFile accepts, the production bucket those of the other
    files, and the totals those of all files; hence the two buckets add up
    to the totals. *)
Theorem classifier_completeness (files : list FileChange) :
  let r := Collector.classifyFileChanges files in
  let tests := List.filter (fun f => Collector.isTestFile (filename f)) files in
  let prods :=
    List.filter (fun f => negb (Collector.isTestFile (filename f))) files in
  (Collector.fm_filesChanged r = lengthZ files
   /\ Collector.fm_testFilesChanged r = lengthZ tests
   /\ Collector.fm_prodFilesChanged r = lengthZ prods
   /\ Collector.fm_testAdditions r = Spec.sumOver additions tests
   /\ Collector.fm_prodAdditions r = Spec.sumOver additions prods
   /\ Collector.fm_testDeletions r = Spec.sumOver deletions tests
   /\ Collector.fm_prodDeletions r = Spec.sumOver deletions prods
   /\ Collector.fm_totalAdditions r = Spec.sumOver additions files
   /\ Collector.fm_totalDeletions r = Spec.sumOver deletions files)
  /\ Collector.fm_prodFilesChanged r + Collector.fm_testFilesChanged r
     = Collector.fm_filesChanged r
  /\ Collector.fm_prodAdditions r + Collector.fm_testAdditions r
     = Collector.fm_totalAdditions r
  /\ Collector.fm_prodDeletions r + Collector.fm_testDeletions r
     = Collector.fm_totalDeletions r.
Proof.
  cbn zeta. unfold Collector.classifyFileChanges.
  match goal with
  | |- context [fold_left Collector.classifyFile files ?r0] =>
      destruct (classifyFile_buckets files r0)
        as (Hn & Htf & Hpf & Hta & Hpa & Htd & Hpd & Ha & Hd);
      destruct (classifyFile_fold files r0) as (Ga & Gd & Gf & Gn)
  end.
  cbn in Hn, Htf, Hpf, Hta, Hpa, Htd, Hpd, Ha, Hd, Ga, Gd, Gf, Gn.
  split; [repeat split; assumption |].
  rewrite Gn. repeat split; lia.
Qed.

(** ** Quality score *)

Lemma clamp100_bounds (x : Q) : (0 <= Dashboard.clamp100 x <= 100)%Q.
Proof.
  unfold Dashboard.clamp100. split.
  - apply Q.le_max_l.
  - apply Q.max_lub; [discriminate | apply Q.le_min_l].
Qed.

Lemma sizeScore_bounds (dev : Dashboard.Developer) :
  (0 <= Dashboard.sizeScore dev <= 100)%Q.
Proof.
  unfold Dashboard.sizeScore, Dashboard.linesScore, Dashboard.filesScore.
  match goal with
  | |- context [JS.plus (Dashboard.clamp100 ?a) (Dashboard.clamp100 ?b)] =>
      pose proof (clamp100_bounds a) as Hl; pose proof (clamp100_bounds b) as Hf;
      set (lines := Dashboard.clamp100 a) in *;
      set (files_ := Dashboard.clamp100 b) in *
  end.
  unfold JS.divide, JS.plus.
  assert (Hsum : (0 <= JS.double (lines + files_) <= 200)%Q).
  { split.
    - apply double_nonneg. lra.
    - change 200%Q with (JS.double 200). apply double_monotone. lra. }
  split.
  - apply double_nonneg. unfold Qdiv.
    apply Qmult_le_0_compat; [apply Hsum | discriminate].
  - change 100%Q with (JS.double (200 / 2)). apply double_monotone.
    unfold Qdiv. apply Qmult_le_compat_r; [apply Hsum | discriminate].
Qed.

Lemma closeTimeScore_bounds (dev : Dashboard.Developer) :
  (0 <= Dashboard.closeTimeScore dev <= 100)%Q.
Proof.
  unfold Dashboard.closeTimeScore.
  destruct (Dashboard.avgWorkingHoursToClose dev); [apply clamp100_bounds |].
  split; discriminate.
Qed.

Lemma iterationScore_bounds (dev : Dashboard.Developer) :
  (0 <= Dashboard.iterationScore dev <= 100)%Q.
Proof. apply clamp100_bounds. Qed.

Lemma churnScore_bounds (dev : Dashboard.Developer) :
  (0 <= Dashboard.churnPct dev)%Q ->
  (0 <= Dashboard.churnScore dev <= 100)%Q.
Proof.
  intros Hc. unfold Dashboard.churnScore. split; [apply Q.le_max_l |].
  apply Q.max_lub; [discriminate |].
  unfold JS.times, JS.minus, JS.divide.
  assert (Hq : (0 <= JS.double (Dashboard.churnPct dev / 50))%Q).
  { apply double_nonneg. unfold Qdiv.
    apply Qmult_le_0_compat; [exact Hc | discriminate]. }
  assert (Hone : (JS.double (1 - JS.double (Dashboard.churnPct dev / 50)) <= 1)%Q).
  { change 1%Q with (JS.double 1) at 2. apply double_monotone. lra. }
  change 100%Q with (JS.double (100 * 1)) at 2. apply double_monotone. lra.
Qed.

Lemma Math_round_bounds (x : Q) :
  (0 <= x <= 100)%Q -> 0 <= JS.Math_round x <= 100.
Proof.
  intros [Hlo Hhi]. unfold JS.Math_round. split.
  - change 0 with (Qfloor 0). apply Qfloor_resp_le. lra.
  - change 100 with (Qfloor (100 + (1 # 2))). apply Qfloor_resp_le. lra.
Qed.

Lemma Math_round_is_round (x : Q) : JS.Math_round x = Spec.round x.
Proof. reflexivity. Qed.

(** A double of magnitude at most 100 is within 2^-46 of the number it
    rounds. *)
Lemma double_near (q : Q) :
  (- 100 <= q <= 100)%Q -> (Qabs (JS.double q - q) <= 1 # 70368744177664)%Q.
Proof.
  intros Hq. eapply Qle_trans; [apply double_error |].
  assert (Habs : (Qabs q <= 100)%Q) by (apply Qabs_Qle_condition; lra).
  assert (Hm : (Qabs q * (1 # 2 ^ 53) <= 100 * (1 # 2 ^ 53))%Q)
    by (apply Qmult_le_compat_r; [exact Habs | discriminate]).
  eapply Qle_trans; [apply Qplus_le_l, Hm |].
  vm_compute. discriminate.
Qed.

(** One product of the weighted sum: a sub-score times the double of its
    weight. *)
Lemma weighted_term (score weight : Q) :
  (0 <= score <= 100)%Q -> (0 <= weight <= 1)%Q ->
  (Qabs (JS.double weight - weight) <= 1 # 9007199254740992)%Q ->
  let term := JS.times score (JS.double weight) in
  (0 <= term <= JS.double (100 * JS.double weight))%Q
  /\ (- (1 # 35184372088832) <= term - score * weight <= 1 # 35184372088832)%Q.
Proof.
  intros Hs Hw Herr. cbn zeta. unfold JS.times.
  assert (Hdw : (0 <= JS.double weight <= 1)%Q).
  { split; [apply double_nonneg, Hw |].
    change 1%Q with (JS.double 1). apply double_monotone, Hw. }
  assert (Hprod : (0 <= score * JS.double weight <= 100 * JS.double weight)%Q).
  { split; [apply Qmult_le_0_compat; lra |].
    apply Qmult_le_compat_r; lra. }
  split.
  - split; [apply double_nonneg, Hprod | apply double_monotone, Hprod].
  - assert (Hnear : (Qabs (JS.double (score * JS.double weight)
                           - score * JS.double weight) <= 1 # 70368744177664)%Q).
    { apply double_near. nra. }
    apply Qabs_Qle_condition in Hnear. apply Qabs_Qle_condition in Herr.
    set (d := JS.double (score * JS.double weight)) in *.
    set (w := JS.double weight) in *.
    assert (H1 : (score * (w - weight) <= 100 * (1 # 9007199254740992))%Q) by nra.
    assert (H2 : (- (100 * (1 # 9007199254740992)) <= score * (w - weight))%Q) by nra.
    split; lra.
Qed.

(** The weighted sum of four sub-scores in double precision lies between 0
    and 100 and within 10^-12 of the exact weighted sum. *)
Lemma weightedSum_error (size closeTime iteration churn : Q) :
  (0 <= size <= 100)%Q -> (0 <= closeTime <= 100)%Q ->
  (0 <= iteration <= 100)%Q -> (0 <= churn <= 100)%Q ->
  (0 <= Dashboard.weightedSum size closeTime iteration churn <= 100)%Q
  /\ (Qabs (Dashboard.weightedSum size closeTime iteration churn
            - Spec.weightedSum size closeTime iteration churn)
      <= 1 # 1000000000000)%Q.
Proof.
  intros Hs Hc Hi Hch.
  destruct (weighted_term size (35 # 100) Hs ltac:(split; discriminate)
              ltac:(vm_compute; discriminate)) as [[Hs0 Hs1] Hse].
  destruct (weighted_term closeTime (30 # 100) Hc ltac:(split; discriminate)
              ltac:(vm_compute; discriminate)) as [[Hc0 Hc1] Hce].
  destruct (weighted_term iteration (20 # 100) Hi ltac:(split; discriminate)
              ltac:(vm_compute; discriminate)) as [[Hi0 Hi1] Hie].
  destruct (weighted_term churn (15 # 100) Hch ltac:(split; discriminate)
              ltac:(vm_compute; discriminate)) as [[Hch0 Hch1] Hche].
  cbn zeta in *.
  assert (K1 : (JS.double (100 * JS.double (35 # 100)) == 35)%Q)
    by (vm_compute; reflexivity).
  assert (K2 : (JS.double (100 * JS.double (30 # 100)) == 30)%Q)
    by (vm_compute; reflexivity).
  assert (K3 : (JS.double (100 * JS.double (20 # 100)) == 20)%Q)
    by (vm_compute; reflexivity).
  assert (K4 : (JS.double (100 * JS.double (15 # 100)) == 15)%Q)
    by (vm_compute; reflexivity).
  rewrite K1 in Hs1. rewrite K2 in Hc1. rewrite K3 in Hi1. rewrite K4 in Hch1.
  unfold Dashboard.weightedSum, Spec.weightedSum.
  set (t1 := JS.times size (JS.double (35 # 100))) in *.
  set (t2 := JS.times closeTime (JS.double (30 # 100))) in *.
  set (t3 := JS.times iteration (JS.double (20 # 100))) in *.
  set (t4 := JS.times churn (JS.double (15 # 100))) in *.
  unfold JS.plus.
  assert (A1 : (0 <= JS.double (t1 + t2) <= 65)%Q).
  { split; [apply double_nonneg; lra |].
    change 65%Q with (JS.double 65). apply double_monotone. lra. }
  pose proof (double_near (t1 + t2) ltac:(lra)) as E1.
  set (a1 := JS.double (t1 + t2)) in *.
  assert (A2 : (0 <= JS.double (a1 + t3) <= 85)%Q).
  { split; [apply double_nonneg; lra |].
    change 85%Q with (JS.double 85). apply double_monotone. lra. }
  pose proof (double_near (a1 + t3) ltac:(lra)) as E2.
  set (a2 := JS.double (a1 + t3)) in *.
  assert (A3 : (0 <= JS.double (a2 + t4) <= 100)%Q).
  { split; [apply double_nonneg; lra |].
    change 100%Q with (JS.double 100). apply double_monotone. lra. }
  pose proof (double_near (a2 + t4) ltac:(lra)) as E3.
  set (a3 := JS.double (a2 + t4)) in *.
  split; [exact A3 |].
  apply Qabs_Qle_condition in E1. apply Qabs_Qle_condition in E2.
  apply Qabs_Qle_condition in E3. apply Qabs_Qle_condition.
  split; lra.
Qed.

(** Two numbers that are close have roundings that differ by 1 at most,
    and equal roundings when no half-integer lies between them. *)
Lemma round_close (x y eps : Q) :
  (Qabs (x - y) <= eps)%Q -> (eps <= 1)%Q ->
  Z.abs (Spec.round x - Spec.round y) <= 1
  /\ (Spec.round (y - eps) = Spec.round (y + eps) -> Spec.round x = Spec.round y).
Proof.
  intros Hclose Heps. apply Qabs_Qle_condition in Hclose.
  unfold Spec.round.
  assert (Hup : Qfloor (x + (1 # 2)) <= Qfloor (y + eps + (1 # 2)))
    by (apply Qfloor_resp_le; lra).
  assert (Hdown : Qfloor (y - eps + (1 # 2)) <= Qfloor (x + (1 # 2)))
    by (apply Qfloor_resp_le; lra).
  assert (Hyup : Qfloor (y + (1 # 2)) <= Qfloor (y + eps + (1 # 2)))
    by (apply Qfloor_resp_le; lra).
  assert (Hydown : Qfloor (y - eps + (1 # 2)) <= Qfloor (y + (1 # 2)))
    by (apply Qfloor_resp_le; lra).
  assert (Hone : forall a b : Q, (a <= b + 1)%Q -> Qfloor a <= Qfloor b + 1).
  { intros a b Hab.
    assert (Hfl : Qfloor a <= Qfloor (b + inject_Z 1))
      by (apply Qfloor_resp_le; exact Hab).
    pose proof (Qfloor_le (b + inject_Z 1)) as H1.
    pose proof (Qlt_floor b) as H2.
    assert (H3 : (inject_Z (Qfloor (b + inject_Z 1)) < inject_Z (Qfloor b + 1 + 1))%Q).
    { rewrite (inject_Z_plus (Qfloor b + 1) 1). lra. }
    rewrite <- Zlt_Qlt in H3. lia. }
  split.
  - pose proof (Hone (x + (1 # 2))%Q (y + (1 # 2))%Q ltac:(lra)).
    pose proof (Hone (y + (1 # 2))%Q (x + (1 # 2))%Q ltac:(lra)). lia.
  - intros Hsame. lia.
Qed.

(** C8 (amended).  For non-negative averages (and a close time that is
    absent or non-negative), calculateQualityScore is an integer between 0
    and 100.  It is the rounding of the weighted sum of the four sub-scores
    taken in double precision; this sum lies within 10^-12 of the exact
    weighted sum, so the score differs from round(sizeScore*0.35 +
    closeTimeScore*0.30 + iterationScore*0.20 + churnScore*0.15) by 1 at
    most, and not at all unless a half-integer lies within 10^-12 of the
    exact sum.  The close-time sub-score is 50 when there is no close
    time. *)
Theorem quality_score_bounds (dev : Dashboard.Developer) (teamAvg : TeamAuthored) :
  (0 <= Dashboard.avgSrcSize dev)%Q ->
  (0 <= Dashboard.avgSrcFiles dev)%Q ->
  (0 <= Dashboard.avgIterations dev)%Q ->
  (0 <= Dashboard.churnPct dev)%Q ->
  (forall hours, Dashboard.avgWorkingHoursToClose dev = Some hours -> 0 <= hours)%Q ->
  let score := Dashboard.calculateQualityScore dev teamAvg in
  let sum :=
    Dashboard.weightedSum (Dashboard.sizeScore dev) (Dashboard.closeTimeScore dev)
                          (Dashboard.iterationScore dev) (Dashboard.churnScore dev) in
  let exact :=
    Spec.weightedSum (Dashboard.sizeScore dev) (Dashboard.closeTimeScore dev)
                     (Dashboard.iterationScore dev) (Dashboard.churnScore dev) in
  0 <= score <= 100
  /\ score = Spec.round sum
  /\ (Qabs (sum - exact) <= 1 # 1000000000000)%Q
  /\ Z.abs (score - Spec.round exact) <= 1
  /\ (Spec.round (exact - (1 # 1000000000000))
      = Spec.round (exact + (1 # 1000000000000)) ->
      score = Spec.round exact)
  /\ (Dashboard.avgWorkingHoursToClose dev = None ->
      Dashboard.closeTimeScore dev = 50%Q).
Proof.
  intros _ _ _ Hchurn _. cbn zeta.
  destruct (weightedSum_error _ _ _ _ (sizeScore_bounds dev)
              (closeTimeScore_bounds dev) (iterationScore_bounds dev)
              (churnScore_bounds dev Hchurn)) as [Hrange Herr].
  destruct (round_close _ _ _ Herr ltac:(discriminate)) as [Hone Hsame].
  assert (Hscore : Dashboard.calculateQualityScore dev teamAvg
                   = Spec.round
                       (Dashboard.weightedSum
                          (Dashboard.sizeScore dev) (Dashboard.closeTimeScore dev)
                          (Dashboard.iterationScore dev) (Dashboard.churnScore dev)))
    by (unfold Dashboard.calculateQualityScore; apply Math_round_is_round).
  rewrite Hscore.
  split; [rewrite <- Math_round_is_round; apply (Math_round_bounds _ Hrange) |].
  split; [reflexivity |]. split; [exact Herr |].
  split; [exact Hone |]. split; [exact Hsame |].
  intros Hnone. unfold Dashboard.closeTimeScore. rewrite Hnone. reflexivity.
Qed.

Lemma quality_score_bounds_witness :
  0 <= Dashboard.calculateQualityScore
         {| Dashboard.avgSrcSize := 250; Dashboard.avgSrcFiles := 7;
            Dashboard.avgIterations := 2;
            Dashboard.avgWorkingHoursToClose := Some 5%Q;
            Dashboard.churnPct := 10 |}
         Samples.noTeam
    <= 100.
Proof.
  apply (quality_score_bounds
           {| Dashboard.avgSrcSize := 250; Dashboard.avgSrcFiles := 7;
              Dashboard.avgIterations := 2;
              Dashboard.avgWorkingHoursToClose := Some 5%Q;
              Dashboard.churnPct := 10 |} Samples.noTeam); cbn; try discriminate.
  intros hours Heq. injection Heq as <-. discriminate.
Defined.

(** The claim as the specification words it fails for an author with
    averages 104 lines, 8 files, 1 iteration, no close time and 32 percent
    churn: the sub-scores are 66, 50, 100 and 36, their exact weighted sum
    is 63.5 and rounds to 64, but the sum in double precision is
    63.49999999999999 and the code returns 63. *)
Lemma quality_score_rounding_counterexample :
  let dev := Samples.halfwayDeveloper in
  (0 <= Dashboard.avgSrcSize dev)%Q /\ (0 <= Dashboard.avgSrcFiles dev)%Q
  /\ (0 <= Dashboard.avgIterations dev)%Q /\ (0 <= Dashboard.churnPct dev)%Q
  /\ Dashboard.avgWorkingHoursToClose dev = None
  /\ (Dashboard.sizeScore dev == 66)%Q /\ (Dashboard.closeTimeScore dev == 50)%Q
  /\ (Dashboard.iterationScore dev == 100)%Q /\ (Dashboard.churnScore dev == 36)%Q
  /\ Dashboard.calculateQualityScore dev Samples.noTeam = 63
  /\ Spec.qualityScore (Dashboard.sizeScore dev) (Dashboard.closeTimeScore dev)
                       (Dashboard.iterationScore dev) (Dashboard.churnScore dev)
     = 64.
Proof. vm_compute. repeat split; try reflexivity; discriminate. Qed.

(** ** Churn *)

Lemma churnFile_total (idx : nat) (st : Collector.ChurnState) (f : FileChange) :
  Collector.totalAdditionsSoFar (Collector.churnFile idx st f)
  = Collector.totalAdditionsSoFar st + additions f.
Proof. reflexivity. Qed.

Lemma churnFile_rework (idx : nat) (st : Collector.ChurnState) (f : FileChange) :
  Collector.reWorkAdditions (Collector.churnFile idx st f)
  = Collector.reWorkAdditions st
    + (if touched st (filename f) then additions f else 0).
Proof.
  unfold Collector.churnFile, touched; cbn.
  destruct (Collector.fileSeenInCommit st !! filename f) as [seen|] eqn:Hlook.
  - rewrite Hlook; cbn. destruct (0 <? Z.of_nat (size seen)); lia.
  - rewrite lookup_insert_eq; cbn. rewrite size_empty.
    change (0 <? Z.of_nat 0) with false. cbv iota. lia.
Qed.

Lemma churnFile_touched (idx : nat) (st : Collector.ChurnState) (f : FileChange)
    (name : string) :
  touched (Collector.churnFile idx st f) name
  = bool_decide (filename f = name) || touched st name.
Proof.
  unfold Collector.churnFile, touched; cbn.
  case_bool_decide as Hname.
  - subst name. rewrite lookup_insert_eq. cbn.
    apply Z.ltb_lt.
    match goal with |- 0 < Z.of_nat (size ?X) =>
      assert (size X <> 0%nat) by (rewrite size_empty_iff; set_solver); lia
    end.
  - rewrite lookup_insert_ne by done. cbn.
    destruct (Collector.fileSeenInCommit st !! filename f); [reflexivity |].
    rewrite lookup_insert_ne by done. reflexivity.
Qed.

(** One commit whose filenames are distinct: every file is judged against
    the state at the start of the commit. *)
Lemma churn_one_commit (idx : nat) (fs : list FileChange) (st : Collector.ChurnState) :
  NoDup (filename <$> fs) ->
  let st' := fold_left (Collector.churnFile idx) fs st in
  Collector.reWorkAdditions st'
  = Collector.reWorkAdditions st
    + Spec.sumOver (fun f => if touched st (filename f) then additions f else 0) fs
  /\ Collector.totalAdditionsSoFar st'
     = Collector.totalAdditionsSoFar st + Spec.sumOver additions fs
  /\ forall name,
       touched st' name
       = existsb (fun f => bool_decide (filename f = name)) fs || touched st name.
Proof.
  revert st. induction fs as [|f fs IH]; intros st Hnd; cbn zeta.
  - cbn. repeat split; lia.
  - rewrite fmap_cons in Hnd. apply NoDup_cons in Hnd as [Hfresh Hnd].
    cbn [fold_left]. specialize (IH (Collector.churnFile idx st f) Hnd).
    cbn zeta in IH. destruct IH as (Hre & Htot & Htouch).
    rewrite Hre, Htot, churnFile_rework, churnFile_total. cbn [Spec.sumOver foldr].
    repeat split.
    + assert (Hsame :
          Spec.sumOver (fun g => if touched (Collector.churnFile idx st f) (filename g)
                                 then additions g else 0) fs
          = Spec.sumOver (fun g => if touched st (filename g)
                                   then additions g else 0) fs).
      { clear -Hfresh. induction fs as [|g fs IHfs]; [reflexivity |].
        cbn [Spec.sumOver foldr]. rewrite fmap_cons in Hfresh.
        apply not_elem_of_cons in Hfresh as [Hne Hfresh].
        unfold Spec.sumOver in IHfs. rewrite (IHfs Hfresh).
        rewrite churnFile_touched, bool_decide_eq_false_2 by done.
        reflexivity. }
      unfold Spec.sumOver in *. rewrite Hsame. lia.
    + unfold Spec.sumOver. lia.
    + intros name. rewrite Htouch, churnFile_touched. cbn [existsb].
      destruct (bool_decide (filename f = name)),
               (existsb (fun f0 => bool_decide (filename f0 = name)) fs);
        reflexivity.
Qed.

Lemma seenInEarlierCommit_snoc (earlier : list Commit) (c : Commit) (name : string) :
  Spec.seenInEarlierCommit (earlier ++ [c]) name
  = existsb (fun f => bool_decide (filename f = name)) (files c)
    || Spec.seenInEarlierCommit earlier name.
Proof.
  unfold Spec.seenInEarlierCommit. rewrite existsb_app. cbn.
  rewrite orb_false_r. apply orb_comm.
Qed.

Lemma sumOver_ext {A} (g h : A -> Z) (l : list A) :
  (forall x, g x = h x) -> Spec.sumOver g l = Spec.sumOver h l.
Proof.
  intros Hext. induction l as [|x l IH]; [reflexivity |].
  cbn [Spec.sumOver foldr]. unfold Spec.sumOver in IH. rewrite IH, Hext.
  reflexivity.
Qed.

(** The whole walk, started after the commits [earlier]. *)
Lemma churn_all_commits (commits earlier : list Commit) (idx : nat)
    (st : Collector.ChurnState) :
  distinctFilesPerCommit commits ->
  (forall name, touched st name = Spec.seenInEarlierCommit earlier name) ->
  let st' := Collector.churnCommits idx commits st in
  Collector.reWorkAdditions st'
  = Collector.reWorkAdditions st + Spec.reworkAdditions earlier commits
  /\ Collector.totalAdditionsSoFar st'
     = Collector.totalAdditionsSoFar st + Spec.totalAdditions commits.
Proof.
  revert earlier idx st.
  induction commits as [|c commits IH]; intros earlier idx st Hnd Hst; cbn zeta.
  - cbn. split; lia.
  - apply Forall_cons in Hnd as [Hc Hnd].
    destruct (churn_one_commit idx (files c) st Hc) as (Hre & Htot & Htouch).
    cbn [Collector.churnCommits].
    destruct (IH (earlier ++ [c]) (S idx)
                 (fold_left (Collector.churnFile idx) (files c) st) Hnd)
      as [Hre' Htot'].
    { intros name. rewrite Htouch, seenInEarlierCommit_snoc, Hst. reflexivity. }
    rewrite Hre', Htot', Hre, Htot.
    cbn [Spec.reworkAdditions].
    rewrite (sumOver_ext _ (fun f => if Spec.seenInEarlierCommit earlier (filename f)
                                     then additions f else 0))
      by (intros f; rewrite Hst; reflexivity).
    unfold Spec.totalAdditions. cbn [Spec.sumOver foldr].
    fold (Spec.sumOver (fun c0 => Spec.sumOver additions (files c0)) commits).
    split; lia.
Qed.

(** Without commits, or with at most one, the result is {0, 0}. *)
Lemma churn_without_two_commits (commits : list Commit) :
  Collector.calculateChurnMetrics None
  = {| Collector.cm_churnPercentage := 0; Collector.cm_fileChurnCount := 0 |}
  /\ ((length commits <= 1)%nat ->
      Collector.calculateChurnMetrics (Some commits)
      = {| Collector.cm_churnPercentage := 0; Collector.cm_fileChurnCount := 0 |}).
Proof.
  split; [reflexivity |].
  intros Hlen. unfold Collector.calculateChurnMetrics, lengthZ.
  rewrite (proj2 (Z.leb_le _ 1)) by lia. reflexivity.
Qed.

(** When no commit lists a filename twice, the two counters are those of
    the specification: a file's additions count as rework exactly when its
    name was seen in an earlier commit. *)
Lemma churn_counters_distinct_files (commits : list Commit) :
  distinctFilesPerCommit commits ->
  let st := Collector.churnCommits 0 commits Collector.churnStart in
  Collector.reWorkAdditions st = Spec.reworkAdditions [] commits
  /\ Collector.totalAdditionsSoFar st = Spec.totalAdditions commits.
Proof.
  intros Hnd.
  destruct (churn_all_commits commits [] 0%nat Collector.churnStart Hnd)
    as [Hre Htot]; [reflexivity |].
  cbn in Hre, Htot. split; assumption.
Qed.

(** C3.  A filename that one commit lists twice is counted as rework on its
    second entry, although no earlier commit touched the file: for the
    commits [[a.ts +10, a.ts +5], [b.ts +1]] the code adds 5 of the 16
    added lines to reWorkAdditions and returns a churnPercentage of 31.3
    with a fileChurnCount of 0, where the claim has no rework and a
    percentage of 0. *)
Theorem same_commit_duplicate_counts_as_rework :
  let st :=
    Collector.churnCommits 0 Samples.repeatedInOneCommit Collector.churnStart in
  let metrics := Collector.calculateChurnMetrics (Some Samples.repeatedInOneCommit) in
  Collector.reWorkAdditions st = 5
  /\ Collector.totalAdditionsSoFar st = 16
  /\ (Collector.cm_churnPercentage metrics == 313 # 10)%Q
  /\ Collector.cm_fileChurnCount metrics = 0
  /\ Spec.reworkAdditions [] Samples.repeatedInOneCommit = 0
  /\ Spec.totalAdditions Samples.repeatedInOneCommit = 16
  /\ (Spec.churnPercentage Samples.repeatedInOneCommit == 0)%Q.
Proof. vm_compute. repeat split; reflexivity. Qed.

(** The percentage is taken from the double: 23 / 80 * 100 is
    28.749999999999996 in double precision and is reported as 28.7, where
    the exact quotient 28.75 rounds to 28.8. *)
Example churn_percentage_of_the_double :
  (Collector.cm_churnPercentage
     (Collector.calculateChurnMetrics (Some Samples.reworkedOnce))
   == 287 # 10)%Q
  /\ (JS.times (JS.divide 23 80) 100 == 8092405580431359 # 281474976710656)%Q
  /\ (Spec.churnPercentage Samples.reworkedOnce == 288 # 10)%Q.
Proof. vm_compute. repeat split; reflexivity. Qed.

(** ** Review activity reducer *)

Lemma Map_get_set {V} (m : JS.Map V) (k k' : string) (v : V) :
  JS.Map_get (JS.Map_set m k v) k'
  = if String.eqb k k' then Some v else JS.Map_get m k'.
Proof.
  induction m as [|[k0 v0] m IH]; cbn.
  - reflexivity.
  - destruct (String.eqb_spec k0 k) as [->|Hne]; cbn.
    + destruct (String.eqb_spec k k'); reflexivity.
    + rewrite IH. destruct (String.eqb_spec k0 k') as [->|?]; [| reflexivity].
      destruct (String.eqb_spec k k'); [congruence | reflexivity].
Qed.

(** Recording a comment of a participant appends its timestamp to the
    participant's entry. *)
Lemma recordComment_login (m : JS.Map (list Z))
    (comment : Collector.ConversationComment) (user : string) :
  Collector.cc_login comment = Some user ->
  JS.truthyString user = true ->
  Collector.recordComment m comment
  = JS.Map_set m user (default [] (JS.Map_get m user)
                       ++ [Collector.cc_created_at comment]).
Proof.
  intros Hlogin Htruthy. unfold Collector.recordComment, JS.Map_has.
  rewrite Hlogin, Htruthy.
  destruct (JS.Map_get m user) as [l|] eqn:Hget; [rewrite Hget; reflexivity |].
  rewrite Map_get_set, String.eqb_refl. cbn.
  clear -Hget. induction m as [|[k0 v0] m IH]; cbn in *.
  - rewrite String.eqb_refl. reflexivity.
  - destruct (String.eqb k0 user) eqn:Hk; [discriminate |]. cbn.
    rewrite Hk, IH by assumption. reflexivity.
Qed.

Lemma recordComment_get (m : JS.Map (list Z))
    (comment : Collector.ConversationComment) (user : string) :
  default [] (JS.Map_get (Collector.recordComment m comment) user)
  = default [] (JS.Map_get m user)
    ++ (if Spec.commentBy comment user then [Collector.cc_created_at comment] else []).
Proof.
  unfold Spec.commentBy.
  destruct (Collector.cc_login comment) as [u|] eqn:Hlogin.
  - destruct (JS.truthyString u) eqn:Htruthy.
    + rewrite (recordComment_login m comment u Hlogin Htruthy), Map_get_set.
      cbn. case_bool_decide as Hu.
      * subst u. rewrite String.eqb_refl. reflexivity.
      * rewrite (proj2 (String.eqb_neq u user)) by assumption.
        rewrite app_nil_r. reflexivity.
    + unfold Collector.recordComment. rewrite Hlogin, Htruthy. cbn.
      rewrite app_nil_r. reflexivity.
  - unfold Collector.recordComment. rewrite Hlogin, app_nil_r. reflexivity.
Qed.

(** The map built by processPR gives every participant the timestamps of
    the participant's own conversation comments, in order. *)
Lemma userConversationCommentTimestamps_get
    (comments : list Collector.ConversationComment) (user : string) :
  default [] (JS.Map_get (Collector.userConversationCommentTimestamps comments) user)
  = Spec.conversationTimestampsOf comments user.
Proof.
  unfold Collector.userConversationCommentTimestamps, Spec.conversationTimestampsOf.
  induction comments as [|c comments IH] using rev_ind; [reflexivity |].
  rewrite fold_left_app. cbn [fold_left].
  rewrite recordComment_get, IH, List.filter_app, map_app. cbn.
  destruct (Spec.commentBy c user); reflexivity.
Qed.

Lemma reviewerActivityTimestamps_spec
    (comments : list Collector.ConversationComment) (review : Collector.ApiReview) :
  Collector.reviewerActivityTimestamps
    (Collector.userConversationCommentTimestamps comments) review
  = Spec.activityTimestamps comments review.
Proof.
  unfold Collector.reviewerActivityTimestamps, Spec.activityTimestamps.
  rewrite userConversationCommentTimestamps_get. do 2 f_equal.
  induction (Collector.ar_inlineComments review) as [|c l IH]; [reflexivity |].
  cbn. rewrite IH. destruct (Collector.ic_created_at c); reflexivity.
Qed.

Lemma In_insertSorted {A} (le : A -> A -> bool) (x y : A) (l : list A) :
  In x (JS.insertSorted le y l) <-> x = y \/ In x l.
Proof.
  induction l as [|z l IH]; cbn.
  - intuition congruence.
  - destruct (le y z); cbn; [intuition congruence |].
    rewrite IH. intuition congruence.
Qed.

Lemma In_sort {A} (le : A -> A -> bool) (x : A) (l : list A) :
  In x (JS.sort le l) <-> In x l.
Proof.
  induction l as [|y l IH]; cbn; [reflexivity |].
  rewrite In_insertSorted, IH. intuition congruence.
Qed.

Lemma head_insertSorted (x : Z) (l : list Z) :
  head (JS.insertSorted Z.leb x l)
  = Some (match head l with
          | Some y => if x <=? y then x else y
          | None => x
          end).
Proof. destruct l as [|y l]; cbn; [reflexivity |]. destruct (x <=? y); reflexivity. Qed.

(** The first element of a date-sorted array is an earliest element. *)
Lemma head_sortByDate (l : list Z) :
  match head (Collector.sortByDate l) with
  | Some m => In m l /\ forall x, In x l -> m <= x
  | None => l = []
  end.
Proof.
  unfold Collector.sortByDate.
  induction l as [|t l IH]; cbn [JS.sort foldr]; [reflexivity |].
  fold (JS.sort Z.leb l). rewrite head_insertSorted.
  destruct (head (JS.sort Z.leb l)) as [y|].
  - destruct IH as [Hin Hmin]. destruct (Z.leb_spec t y).
    + split; [left; reflexivity |]. intros x [<-|Hx]; [lia |].
      specialize (Hmin x Hx). lia.
    + split; [right; assumption |]. intros x [<-|Hx]; [lia | auto].
  - subst l. split; [left; reflexivity |]. intros x [<-|[]]. lia.
Qed.

Lemma fold_left_min (rest : list Z) (t : Z) :
  let m := fold_left Z.min rest t in
  (m = t \/ In m rest) /\ m <= t /\ forall x, In x rest -> m <= x.
Proof.
  revert t. induction rest as [|y rest IH]; intros t; cbn zeta; cbn [fold_left].
  - split; [left; reflexivity |]. split; [lia |]. intros x [].
  - specialize (IH (Z.min t y)). cbn zeta in IH. destruct IH as (Hin & Hle & Hmin).
    split; [| split].
    + destruct Hin as [Heq|Hin]; [| right; right; assumption].
      rewrite Heq. destruct (Z.min_spec t y) as [[_ ->]|[_ ->]]; [left | right; left];
        reflexivity.
    + lia.
    + intros x [<-|Hx]; [lia | auto].
Qed.

Lemma earliest_spec (l : list Z) :
  match Spec.earliest l with
  | Some m => In m l /\ forall x, In x l -> m <= x
  | None => l = []
  end.
Proof.
  destruct l as [|t rest]; cbn [Spec.earliest]; [reflexivity |].
  destruct (fold_left_min rest t) as (Hin & Hle & Hmin). split.
  - destruct Hin as [->|Hin]; [left; reflexivity | right; assumption].
  - intros x [<-|Hx]; [assumption | auto].
Qed.

(** Sorting by date and taking the first element computes the minimum, and
    only the elements of the array matter. *)
Lemma head_sortByDate_earliest (l1 l2 : list Z) :
  (forall t, In t l1 <-> In t l2) ->
  head (Collector.sortByDate l1) = Spec.earliest l2.
Proof.
  intros Hsame.
  pose proof (head_sortByDate l1) as H1. pose proof (earliest_spec l2) as H2.
  destruct (head (Collector.sortByDate l1)) as [m1|], (Spec.earliest l2) as [m2|].
  - destruct H1 as [Hin1 Hmin1], H2 as [Hin2 Hmin2]. f_equal.
    apply Z.le_antisymm; [apply Hmin1, Hsame | apply Hmin2, Hsame]; assumption.
  - subst l2. destruct H1 as [Hin1 _]. apply Hsame in Hin1. destruct Hin1.
  - subst l1. destruct H2 as [Hin2 _]. apply Hsame in Hin2. destruct Hin2.
  - reflexivity.
Qed.

Lemma processReview_fold (author : string) (byUser : JS.Map (list Z))
    (reviews : list Collector.ApiReview) (acc : list Z * list Review) :
  (fold_left (Collector.processReview author byUser) reviews acc).1
  = acc.1 ++ flat_map (fun r =>
                         if String.eqb (Collector.ar_login r) author then []
                         else Collector.sortByDate
                                (Collector.reviewerActivityTimestamps byUser r))
                      reviews.
Proof.
  revert acc. induction reviews as [|r reviews IH]; intros acc; cbn [fold_left flat_map].
  - rewrite app_nil_r. reflexivity.
  - rewrite IH. unfold Collector.processReview. cbn [fst].
    destruct (String.eqb (Collector.ar_login r) author); cbn [app].
    + reflexivity.
    + rewrite <- app_assoc. reflexivity.
Qed.

Lemma In_nonAuthor_set (author : string) (m : JS.Map (list Z)) (u : string)
    (t0 t : Z) :
  In t (Collector.nonAuthorConversationTimestamps author
          (JS.Map_set m u (default [] (JS.Map_get m u) ++ [t0])))
  <-> In t (Collector.nonAuthorConversationTimestamps author m)
      \/ (u <> author /\ t = t0).
Proof.
  unfold Collector.nonAuthorConversationTimestamps.
  induction m as [|[k0 v0] m IH]; cbn.
  - destruct (String.eqb_spec u author); cbn; intuition congruence.
  - destruct (String.eqb_spec k0 u) as [->|Hne]; cbn.
    + destruct (String.eqb_spec u author); cbn.
      * intuition congruence.
      * rewrite !in_app_iff. cbn. intuition congruence.
    + rewrite !in_app_iff, IH. intuition congruence.
Qed.

Lemma In_nonAuthor_recordComment (author : string) (m : JS.Map (list Z))
    (c : Collector.ConversationComment) (t : Z) :
  In t (Collector.nonAuthorConversationTimestamps author
          (Collector.recordComment m c))
  <-> In t (Collector.nonAuthorConversationTimestamps author m)
      \/ In t (match Collector.cc_login c with
               | Some u =>
                   if JS.truthyString u && negb (bool_decide (u = author))
                   then [Collector.cc_created_at c] else []
               | None => []
               end).
Proof.
  destruct (Collector.cc_login c) as [u|] eqn:Hlogin.
  - destruct (JS.truthyString u) eqn:Htruthy.
    + rewrite (recordComment_login m c u Hlogin Htruthy), In_nonAuthor_set.
      cbn. case_bool_decide; cbn; intuition congruence.
    + unfold Collector.recordComment. rewrite Hlogin, Htruthy. cbn. tauto.
  - unfold Collector.recordComment. rewrite Hlogin. cbn. tauto.
Qed.

Lemma In_nonAuthorConversationTimestamps (author : string)
    (comments : list Collector.ConversationComment) (t : Z) :
  In t (Collector.nonAuthorConversationTimestamps author
          (Collector.userConversationCommentTimestamps comments))
  <-> In t (flat_map (fun c =>
                        match Collector.cc_login c with
                        | Some u =>
                            if JS.truthyString u && negb (bool_decide (u = author))
                            then [Collector.cc_created_at c] else []
                        | None => []
                        end) comments).
Proof.
  unfold Collector.userConversationCommentTimestamps.
  induction comments as [|c comments IH] using rev_ind; [reflexivity |].
  rewrite fold_left_app. cbn [fold_left].
  rewrite In_nonAuthor_recordComment, IH, flat_map_app, in_app_iff. cbn.
  rewrite app_nil_r. reflexivity.
Qed.

(** The global array of processPR holds the qualifying timestamps. *)
Lemma allResponseTimestamps_spec (author : string)
    (reviews : list Collector.ApiReview)
    (comments : list Collector.ConversationComment) (t : Z) :
  let byUser := Collector.userConversationCommentTimestamps comments in
  In t (fold_left (Collector.processReview author byUser) reviews
          (Collector.nonAuthorConversationTimestamps author byUser, [])).1
  <-> In t (Spec.qualifyingTimestamps author reviews comments).
Proof.
  cbn zeta. rewrite processReview_fold. cbn [fst].
  unfold Spec.qualifyingTimestamps.
  rewrite !in_app_iff, In_nonAuthorConversationTimestamps, !in_flat_map.
  apply or_iff_compat_l. split; intros (r & Hr & Ht); exists r; (split; [assumption |]).
  - destruct (String.eqb_spec (Collector.ar_login r) author) as [Heq|Hne].
    + destruct Ht.
    + rewrite bool_decide_eq_false_2 by assumption.
      apply In_sort in Ht. rewrite <- reviewerActivityTimestamps_spec. exact Ht.
  - case_bool_decide as Heq; [destruct Ht |].
    rewrite (proj2 (String.eqb_neq _ _) Heq).
    apply In_sort. rewrite reviewerActivityTimestamps_spec. exact Ht.
Qed.

(** C5.  The firstResponseAt that processPR computes is the minimum of the
    timestamps of the conversation comments and of the reviewers' activity
    whose login differs from the PR author, and null when there is none; so
    it is always one of those timestamps, never one of the author's own. *)
Theorem first_response_excludes_author (pr : Collector.MergedPR)
    (files : list FileChange) (reviews : list Collector.ApiReview)
    (comments : list Collector.ConversationComment) (commits : list Commit) :
  let response := firstResponseAt (Collector.processPR pr files reviews comments commits) in
  let qualifying := Spec.qualifyingTimestamps (Collector.pr_author pr) reviews comments in
  response = Spec.firstResponseAt (Collector.pr_author pr) reviews comments
  /\ match response with
     | Some t => In t qualifying /\ forall x, In x qualifying -> t <= x
     | None => qualifying = []
     end.
Proof.
  cbn zeta.
  assert (Heq : firstResponseAt (Collector.processPR pr files reviews comments commits)
                = Spec.firstResponseAt (Collector.pr_author pr) reviews comments).
  { unfold Collector.processPR.
    pose proof (allResponseTimestamps_spec (Collector.pr_author pr) reviews comments)
      as Hall. cbn zeta in Hall.
    destruct (fold_left _ reviews _) as [allResponseTimestamps processedReviews].
    cbn [fst] in Hall. cbn [firstResponseAt].
    unfold Spec.firstResponseAt.
    rewrite <- (head_sortByDate_earliest allResponseTimestamps) by exact Hall.
    destruct allResponseTimestamps; reflexivity. }
  split; [exact Heq |]. rewrite Heq. apply earliest_spec.
Qed.

(** Scenario: the author's own comment comes first and is passed over. *)
Example self_comment_is_not_a_response :
  firstResponseAt
    (Collector.processPR Samples.anaPr [] Samples.anaPrReviews
       Samples.anaPrComments [])
  = Some (localTime 19723 13).
Proof. vm_compute. reflexivity. Qed.

(** ** Reviewer, author and team aggregation *)

Lemma Map_set_Forall {V} (P : V -> Prop) (m : JS.Map V) (k : string) (v : V) :
  Forall (fun e => P e.2) m -> P v -> Forall (fun e => P e.2) (JS.Map_set m k v).
Proof.
  intros Hm Hv. induction m as [|[k0 v0] m IH]; cbn.
  - constructor; [exact Hv | constructor].
  - apply Forall_cons in Hm as [H0 Hm].
    destruct (String.eqb k0 k); constructor; auto.
Qed.

Lemma Map_get_Forall {V} (P : V -> Prop) (m : JS.Map V) (k : string) (v : V) :
  Forall (fun e => P e.2) m -> JS.Map_get m k = Some v -> P v.
Proof.
  intros Hm. induction m as [|[k0 v0] m IH]; cbn; [discriminate |].
  apply Forall_cons in Hm as [H0 Hm].
  destruct (String.eqb k0 k); [intros [= <-]; exact H0 | auto].
Qed.

Lemma tallyReview_samples (pr : PRDetail) (review : Review)
    (stats : Collector.ReviewerStats) :
  oneSamplePerRecordedPr stats ->
  oneSamplePerRecordedPr (Collector.tallyReview pr review stats).
Proof.
  unfold oneSamplePerRecordedPr, Collector.tallyReview. cbn.
  intros (H1 & H2 & H3 & H4 & H5).
  case_bool_decide as Hseen; cbn.
  - repeat split; assumption.
  - rewrite !length_app, size_union, size_singleton by set_solver. cbn.
    repeat split; lia.
Qed.

(** For every batch and reviewer, the number of PR-level samples is the
    number of distinct PR numbers recorded for the reviewer. *)
Lemma collectReviewerStats_samples (prDetails : list PRDetail) :
  Forall (fun e => oneSamplePerRecordedPr e.2)
         (Collector.collectReviewerStats prDetails).
Proof.
  unfold Collector.collectReviewerStats.
  assert (Hgen : forall prs m,
             Forall (fun e => oneSamplePerRecordedPr e.2) m ->
             Forall (fun e => oneSamplePerRecordedPr e.2)
                    (fold_left Collector.reviewerPrStep prs m)).
  { induction prs as [|pr prs IH]; intros m Hm; cbn [fold_left]; [exact Hm |].
    apply IH. unfold Collector.reviewerPrStep.
    destruct (JS.truthyOptString (error pr)); [exact Hm |].
    generalize dependent m.
    induction (reviews pr) as [|review rs IHrs]; intros m Hm; cbn [fold_left];
      [exact Hm |].
    apply IHrs. unfold Collector.reviewStep. cbv zeta.
    match goal with
    | |- context [JS.Map_get ?entries (reviewer review)] => set (m1 := entries)
    end.
    assert (Hm1 : Forall (fun e => oneSamplePerRecordedPr e.2) m1).
    { subst m1. destruct (JS.Map_has m (reviewer review)); [exact Hm |].
      apply Map_set_Forall; [exact Hm |]. repeat split. }
    destruct (JS.Map_get m1 (reviewer review)) as [stats|] eqn:Hget; [| exact Hm1].
    apply Map_set_Forall; [exact Hm1 |].
    apply tallyReview_samples.
    exact (Map_get_Forall oneSamplePerRecordedPr m1 _ _ Hm1 Hget). }
  intros. apply Hgen. constructor.
Qed.

(** A reviewer who submits two reviews on one PR leaves one sample. *)
Example two_reviews_one_sample :
  (fun stats => (Collector.st_totalReviews stats,
                 Collector.st_prSizesReviewed stats,
                 Collector.st_iterationsPerPr stats))
    <$> JS.Map_get (Collector.collectReviewerStats Samples.reviewedTwice) "bob"
  = Some (2, [100], [2]).
Proof. vm_compute. reflexivity. Qed.

(** C6.  The samples are keyed by the PR number alone: bob reviewed two
    distinct PRs, fe-redesign#12 and be-revamp#12, yet each of his five
    PR-level sample arrays holds one entry, that of the first PR, and his row
    reports one reviewed PR. *)
Theorem pr_samples_keyed_by_number_alone :
  let stats :=
    default (Collector.newReviewerStats "bob")
      (JS.Map_get (Collector.collectReviewerStats Samples.sameNumberTwoRepos) "bob") in
  Spec.prsReviewedBy "bob" Samples.sameNumberTwoRepos
  = [("fe-redesign"%string, 12); ("be-revamp"%string, 12)]
  /\ Collector.st_totalReviews stats = 2
  /\ Collector.st_prSizesReviewed stats = [100]
  /\ Collector.st_prProdLinesReviewed stats = [100]
  /\ Collector.st_prTestLinesReviewed stats = [0]
  /\ Collector.st_iterationsPerPr stats = [1]
  /\ length (Collector.st_reviewedPrCloseTimes stats) = 1%nat
  /\ (fun row => (rs_prsReviewedCount row, rs_avgPrSizeReviewed row))
       <$> Collector.calculateReviewerSummary Samples.sameNumberTwoRepos
     = [(1, 100)].
Proof. vm_compute. repeat split; reflexivity. Qed.

Lemma reviewerPrStep_valid (prDetails : list PRDetail)
    (m : JS.Map Collector.ReviewerStats) :
  fold_left Collector.reviewerPrStep prDetails m
  = fold_left Collector.reviewerPrStep (validPRs prDetails) m.
Proof.
  revert m. induction prDetails as [|pr prs IH]; intros m; [reflexivity |].
  cbn [fold_left validPRs List.filter]. fold (validPRs prs).
  destruct (JS.truthyOptString (error pr)) eqn:Herr; cbn [negb fold_left].
  - assert (Hskip : Collector.reviewerPrStep m pr = m)
      by (unfold Collector.reviewerPrStep; rewrite Herr; reflexivity).
    rewrite Hskip. apply IH.
  - apply IH.
Qed.

Lemma authorPrStep_valid (prDetails : list PRDetail)
    (m : JS.Map Collector.AuthorStats) :
  fold_left Collector.authorPrStep prDetails m
  = fold_left Collector.authorPrStep (validPRs prDetails) m.
Proof.
  revert m. induction prDetails as [|pr prs IH]; intros m; [reflexivity |].
  cbn [fold_left validPRs List.filter]. fold (validPRs prs).
  destruct (JS.truthyOptString (error pr)) eqn:Herr; cbn [negb fold_left].
  - assert (Hskip : Collector.authorPrStep m pr = m)
      by (unfold Collector.authorPrStep; rewrite Herr; reflexivity).
    rewrite Hskip. apply IH.
  - apply IH.
Qed.

Lemma validPRs_idempotent (prDetails : list PRDetail) :
  validPRs (validPRs prDetails) = validPRs prDetails.
Proof.
  unfold validPRs. induction prDetails as [|pr prs IH]; [reflexivity |].
  cbn [List.filter].
  destruct (negb (JS.truthyOptString (error pr))) eqn:Hok; [| exact IH].
  cbn [List.filter]. rewrite Hok, IH. reflexivity.
Qed.

(** C7 (amended).  A record whose error field is a non-empty string
    contributes to no summary: the reviewer, author and team summaries of a
    batch are those of the batch without such records. *)
Theorem failed_records_do_not_contribute (prDetails : list PRDetail) :
  let valid := validPRs prDetails in
  Collector.calculateReviewerSummary prDetails
  = Collector.calculateReviewerSummary valid
  /\ Collector.calculateAuthorSummary prDetails
     = Collector.calculateAuthorSummary valid
  /\ Collector.calculateTeamSummary (Collector.calculateAuthorSummary prDetails)
       (Collector.calculateReviewerSummary prDetails) prDetails
     = Collector.calculateTeamSummary (Collector.calculateAuthorSummary valid)
         (Collector.calculateReviewerSummary valid) valid.
Proof.
  cbn zeta.
  assert (Hr : Collector.calculateReviewerSummary prDetails
               = Collector.calculateReviewerSummary (validPRs prDetails)).
  { unfold Collector.calculateReviewerSummary, Collector.collectReviewerStats.
    rewrite reviewerPrStep_valid. reflexivity. }
  assert (Ha : Collector.calculateAuthorSummary prDetails
               = Collector.calculateAuthorSummary (validPRs prDetails)).
  { unfold Collector.calculateAuthorSummary, Collector.collectAuthorStats.
    rewrite authorPrStep_valid. reflexivity. }
  split; [exact Hr |]. split; [exact Ha |].
  rewrite <- Hr, <- Ha. unfold Collector.calculateTeamSummary.
  fold (validPRs prDetails). fold (validPRs (validPRs prDetails)).
  rewrite validPRs_idempotent. reflexivity.
Qed.

(** A failed record next to a usable one changes nothing. *)
Example failed_record_is_skipped :
  Collector.calculateReviewerSummary (Samples.failed :: Samples.reviewedTwice)
  = Collector.calculateReviewerSummary Samples.reviewedTwice
  /\ Collector.calculateAuthorSummary (Samples.failed :: Samples.reviewedTwice)
     = Collector.calculateAuthorSummary Samples.reviewedTwice.
Proof. vm_compute. split; reflexivity. Qed.

(** The claim as worded, for every record that carries an error field, fails
    for the empty string: the guard [if (pr.error)] lets that record through,
    and it is counted as a PR of its author and of the team. *)
Lemma empty_error_counterexample :
  Spec.carriesError Samples.emptyError = true
  /\ Collector.calculateAuthorSummary [Samples.emptyError]
     <> Collector.calculateAuthorSummary
          (List.filter (fun p => negb (Spec.carriesError p)) [Samples.emptyError])
  /\ ta_totalPRs (authored (Collector.calculateTeamSummary [] [] [Samples.emptyError]))
     = 1.
Proof.
  split; [reflexivity |]. split; [| vm_compute; reflexivity].
  cbn [List.filter Spec.carriesError Samples.emptyError Samples.prDetail error negb].
  intros Heq. apply (f_equal length) in Heq. vm_compute in Heq. discriminate.
Qed.

(** ** The two team summaries *)

Lemma countReviews_agree (prs : list PRDetail) :
  let c := Collector.countReviews prs in
  let d := Dashboard.countReviews prs in
  Collector.totalReviews c = Dashboard.totalReviews d
  /\ Collector.totalApprovals c = Dashboard.totalApprovals d
  /\ Collector.totalNoCommentApprovals c = Dashboard.totalNoCommentApprovals d
  /\ Collector.totalInlineComments c = Dashboard.totalInlineComments d.
Proof.
  cbn zeta. unfold Collector.countReviews, Dashboard.countReviews.
  set (same := fun (c : Collector.ReviewTotals) (d : Dashboard.ReviewTotals) =>
                 Collector.totalReviews c = Dashboard.totalReviews d
                 /\ Collector.totalApprovals c = Dashboard.totalApprovals d
                 /\ Collector.totalNoCommentApprovals c
                    = Dashboard.totalNoCommentApprovals d
                 /\ Collector.totalInlineComments c
                    = Dashboard.totalInlineComments d).
  assert (Hreviews : forall rs c d, same c d ->
             same (fold_left Collector.countReview rs c)
                  (fold_left Dashboard.countReview rs d)).
  { induction rs as [|r rs IH]; intros c d Hcd; cbn [fold_left]; [exact Hcd |].
    apply IH. destruct Hcd as (H1 & H2 & H3 & H4).
    unfold same, Collector.countReview, Dashboard.countReview. cbn.
    rewrite H1, H2, H3, H4. repeat split. }
  assert (Hprs : forall l c d, same c d ->
             same (fold_left (fun t pr => fold_left Collector.countReview (reviews pr) t) l c)
                  (fold_left (fun t pr => fold_left Dashboard.countReview (reviews pr) t) l d)).
  { induction l as [|p l IH]; intros c d Hcd; cbn [fold_left]; [exact Hcd |].
    apply IH, Hreviews, Hcd. }
  apply Hprs. repeat split.
Qed.

(** Apart from medianResponseTime, the collector and the dashboard compute
    the same team summary from the same batch and summaries. *)
Lemma team_summaries_agree_elsewhere (data : Dashboard.MetricsData) :
  let c := Collector.calculateTeamSummary (Dashboard.md_authorSummary data)
             (Dashboard.md_summary data) (Dashboard.md_details data) in
  let d := Dashboard.computeTeamSummaryFallback data in
  authored c = authored d
  /\ tr_totalReviews (reviewed c) = tr_totalReviews (reviewed d)
  /\ tr_totalReviewers (reviewed c) = tr_totalReviewers (reviewed d)
  /\ tr_avgPrSizeReviewed (reviewed c) = tr_avgPrSizeReviewed (reviewed d)
  /\ tr_avgProdLinesReviewed (reviewed c) = tr_avgProdLinesReviewed (reviewed d)
  /\ tr_avgTestLinesReviewed (reviewed c) = tr_avgTestLinesReviewed (reviewed d)
  /\ tr_overallNoCommentPct (reviewed c) = tr_overallNoCommentPct (reviewed d)
  /\ tr_avgInlineComments (reviewed c) = tr_avgInlineComments (reviewed d)
  /\ tr_avgIterationsPerPr (reviewed c) = tr_avgIterationsPerPr (reviewed d).
Proof.
  cbn zeta. unfold Collector.calculateTeamSummary, Dashboard.computeTeamSummaryFallback.
  cbn [authored reviewed tr_totalReviews tr_totalReviewers tr_avgPrSizeReviewed
       tr_avgProdLinesReviewed tr_avgTestLinesReviewed tr_overallNoCommentPct
       tr_avgInlineComments tr_avgIterationsPerPr].
  fold (validPRs (Dashboard.md_details data)).
  destruct (countReviews_agree (validPRs (Dashboard.md_details data)))
    as (H1 & H2 & H3 & H4). cbn zeta in H1, H2, H3, H4.
  rewrite H1, H2, H3, H4. repeat split; reflexivity.
Qed.

(** Without a response that costs exactly 0 working hours the medians agree
    as well, and the two summaries are equal. *)
Lemma team_summaries_agree_without_zero_response (data : Dashboard.MetricsData) :
  (forall p t, In p (validPRs (Dashboard.md_details data)) ->
               firstResponseAt p = Some t ->
               (0 < Collector.calculateWorkingHours (createdAt p) t)%Q) ->
  Collector.calculateTeamSummary (Dashboard.md_authorSummary data)
    (Dashboard.md_summary data) (Dashboard.md_details data)
  = Dashboard.computeTeamSummaryFallback data.
Proof.
  intros Hpos.
  pose proof (team_summaries_agree_elsewhere data) as Hrest. cbn zeta in Hrest.
  destruct Hrest as (Ha & H1 & H2 & H3 & H4 & H5 & H6 & H7 & H8).
  assert (Hmed :
    tr_medianResponseTime
      (reviewed (Collector.calculateTeamSummary (Dashboard.md_authorSummary data)
                   (Dashboard.md_summary data) (Dashboard.md_details data)))
    = tr_medianResponseTime (reviewed (Dashboard.computeTeamSummaryFallback data))).
  { unfold Collector.calculateTeamSummary, Dashboard.computeTeamSummaryFallback.
    cbn [reviewed tr_medianResponseTime].
    fold (validPRs (Dashboard.md_details data)).
    assert (Hfilter :
      forall l, (forall p t, In p l -> firstResponseAt p = Some t ->
                             (0 < Collector.calculateWorkingHours (createdAt p) t)%Q) ->
        List.filter (fun t => negb (Qle_bool t 0))
          (omap (fun p => match firstResponseAt p with
                          | Some firstResponse =>
                              Some (Collector.calculateWorkingHours (createdAt p)
                                      firstResponse)
                          | None => None
                          end) l)
        = List.filter (fun h => Qle_bool 0 h)
            (omap (fun p => match firstResponseAt p with
                            | Some firstResponse =>
                                Some (Dashboard.calculateWorkingHours
                                        (Some (createdAt p)) (Some firstResponse))
                            | None => None
                            end) l)).
    { induction l as [|p l IH]; intros Hl; [reflexivity |].
      cbn [omap list_omap]. specialize (IH (fun q t Hq => Hl q t (or_intror Hq))).
      destruct (firstResponseAt p) as [t|] eqn:Hresp; [| exact IH].
      specialize (Hl p t (or_introl eq_refl) Hresp).
      change (Dashboard.calculateWorkingHours (Some (createdAt p)) (Some t))
        with (Collector.calculateWorkingHours (createdAt p) t).
      cbn [List.filter].
      assert (Hgt : Qle_bool (Collector.calculateWorkingHours (createdAt p) t) 0 = false).
      { apply not_true_is_false. intros Hle. apply Qle_bool_iff in Hle.
        apply (Qlt_not_le _ _ Hl Hle). }
      assert (Hge : Qle_bool 0 (Collector.calculateWorkingHours (createdAt p) t) = true)
        by (apply Qle_bool_iff, Qlt_le_weak, Hl).
      rewrite Hgt, Hge. cbn [negb]. f_equal. exact IH. }
    rewrite (Hfilter _ Hpos). reflexivity. }
  destruct (Collector.calculateTeamSummary _ _ _) as [ca [cr1 cr2 cr3 cr4 cr5 cr6 cr7 cr8 cr9]].
  destruct (Dashboard.computeTeamSummaryFallback data)
    as [da [dr1 dr2 dr3 dr4 dr5 dr6 dr7 dr8 dr9]].
  cbn in *. congruence.
Qed.

(** C9.  The two implementations are not equivalent.  For a PR opened on a
    Saturday and first answered that Saturday the response takes 0 working
    hours: the collector drops that sample ([t > 0]) and reports no median,
    the dashboard keeps it ([h >= 0]) and reports 0. *)
Theorem team_summaries_differ_on_zero_response :
  let data := Samples.oldDataFile Samples.weekendResponse in
  let c := Collector.calculateTeamSummary (Dashboard.md_authorSummary data)
             (Dashboard.md_summary data) (Dashboard.md_details data) in
  let d := Dashboard.computeTeamSummaryFallback data in
  tr_medianResponseTime (reviewed c) = None
  /\ Qred <$> tr_medianResponseTime (reviewed d) = Some 0%Q
  /\ c <> d.
Proof.
  cbn zeta. split; [vm_compute; reflexivity |]. split; [vm_compute; reflexivity |].
  intros Heq.
  apply (f_equal (fun s => tr_medianResponseTime (reviewed s))) in Heq.
  vm_compute in Heq. discriminate.
Qed.

(** ** Zero statistics in the reviewer summary *)

Lemma truthyQ_zero (q : Q) : (q == 0)%Q -> JS.truthyQ q = false.
Proof.
  intros Hq. unfold JS.truthyQ. apply Qeq_bool_iff in Hq. rewrite Hq. reflexivity.
Qed.

Lemma toFixedOrNull_zero (digits : nat) (q : Q) :
  (q == 0)%Q -> Collector.toFixedOrNull digits (Some q) = None.
Proof. intros Hq. cbn. rewrite truthyQ_zero by exact Hq. reflexivity. Qed.

(** C10.  In the output of calculateReviewerSummary, a median, P90 or fastest
    response time, or an average close time of the reviewed PRs, that is
    exactly 0 is reported as null. *)
Theorem zero_statistics_are_reported_as_null (prDetails : list PRDetail)
    (who : string) (stats : Collector.ReviewerStats) :
  In (who, stats) (Collector.collectReviewerStats prDetails) ->
  let row := Collector.reviewerRow who stats in
  In row (Collector.calculateReviewerSummary prDetails)
  /\ (forall q, median (Collector.st_responseTimes stats) = Some q -> (q == 0)%Q ->
                rs_medianResponseHours row = None)
  /\ (forall q, percentile (Collector.st_responseTimes stats) (9 # 10) = Some q ->
                (q == 0)%Q -> rs_p90ResponseHours row = None)
  /\ (forall x xs, Collector.st_responseTimes stats = x :: xs ->
                   (JS.Math_min x xs == 0)%Q -> rs_fastestResponseHours row = None)
  /\ ((avgQ (Collector.st_reviewedPrCloseTimes stats) == 0)%Q ->
      rs_avgReviewedPrCloseTime row = None).
Proof.
  intros Hin. cbn zeta. split; [| split; [| split; [| split]]].
  - unfold Collector.calculateReviewerSummary. apply In_sort.
    apply in_map_iff. exists (who, stats). split; [reflexivity | exact Hin].
  - intros q Hmed Hq. cbn [Collector.reviewerRow rs_medianResponseHours].
    rewrite Hmed. apply toFixedOrNull_zero, Hq.
  - intros q Hp Hq. cbn [Collector.reviewerRow rs_p90ResponseHours].
    rewrite Hp. apply toFixedOrNull_zero, Hq.
  - intros x xs Hresp Hq. cbn [Collector.reviewerRow rs_fastestResponseHours].
    rewrite Hresp. apply toFixedOrNull_zero, Hq.
  - intros Hq. cbn [Collector.reviewerRow rs_avgReviewedPrCloseTime].
    rewrite truthyQ_zero by exact Hq. reflexivity.
Qed.

(** Bob's only review fell on a Saturday, on a PR merged that Saturday. *)
Lemma zero_statistics_are_reported_as_null_witness :
  let stats :=
    default (Collector.newReviewerStats "bob")
      (JS.Map_get (Collector.collectReviewerStats Samples.weekendMerge) "bob") in
  rs_medianResponseHours (Collector.reviewerRow "bob" stats) = None
  /\ rs_avgReviewedPrCloseTime (Collector.reviewerRow "bob" stats) = None.
Proof.
  cbn zeta.
  destruct (zero_statistics_are_reported_as_null Samples.weekendMerge "bob"
              (default (Collector.newReviewerStats "bob")
                 (JS.Map_get (Collector.collectReviewerStats Samples.weekendMerge)
                    "bob")))
    as (_ & Hmed & _ & _ & Havg).
  - vm_compute. left. reflexivity.
  - split.
    + eapply Hmed; vm_compute; reflexivity.
    + apply Havg. vm_compute. reflexivity.
Defined.

(** ** Scenarios of the specification, evaluated *)

(** Tuesday 2 January 2024, 10:00 to 14:00: four working hours. *)
Example tuesday_ten_to_two :
  (Collector.calculateWorkingHours (localTime 19724 10) (localTime 19724 14) == 4)%Q.
Proof. vm_compute. reflexivity. Qed.

(** Monday 00:00 to the next Monday 00:00: five windows of eight hours. *)
Example monday_to_monday :
  (Collector.calculateWorkingHours (localTime 19723 0) (localTime 19730 0) == 40)%Q.
Proof. vm_compute. reflexivity. Qed.

(** Patterns are substrings: a directory pattern matches, a wildcard pattern
    is looked for literally. *)
Example test_file_patterns :
  Collector.isTestFile "src/__tests__/filters.ts" = true
  /\ Collector.isTestFile "src/filters.test.ts" = false
  /\ Collector.isTestFile "src/filters.ts" = false.
Proof. repeat split; reflexivity. Qed.

(** Three commits that return to a.ts and b.ts: 7 of the 23 added lines are
    rework, and two files were touched in more than one commit. *)
Example churn_of_reworked_commits :
  (Collector.cm_churnPercentage
     (Collector.calculateChurnMetrics (Some Samples.reworked))
   == 304 # 10)%Q
  /\ Collector.cm_fileChurnCount
       (Collector.calculateChurnMetrics (Some Samples.reworked)) = 2.
Proof. vm_compute. split; reflexivity. Qed.

(** * Further properties of the embedded code *)

(** ** Working hours: the day-by-day walk *)

(** Induction along the loop: a property of the result follows from the exit
    case and from one turn of the loop. *)
Lemma walkDays_rect (start end_ : Z) (P : Z -> Q -> Q -> Prop) :
  (forall d acc, end_ <= d -> P d acc acc) ->
  (forall d acc r, d < end_ ->
     P (nextDay d) (removeForDay start end_ d acc) r -> P d acc r) ->
  forall d acc, P d acc (walkDays start end_ d acc).
Proof.
  intros Hexit Hturn d acc.
  remember (Z.to_nat ((end_ - d) / MS_PER_DAY + 1)) as n eqn:Hn.
  revert d acc Hn. induction n as [n IH] using lt_wf_ind. intros d acc Hn.
  destruct (Z_lt_dec d end_) as [Hlt|Hge].
  - rewrite walkDays_step by exact Hlt. apply Hturn; [exact Hlt |].
    apply (IH (Z.to_nat ((end_ - nextDay d) / MS_PER_DAY + 1))); [| reflexivity].
    subst n. unfold nextDay.
    replace (end_ - (d + MS_PER_DAY)) with ((end_ - d) + (-1) * MS_PER_DAY) by ring.
    rewrite Z.div_add by (unfold MS_PER_DAY, MS_PER_HOUR; lia).
    assert (0 <= (end_ - d) / MS_PER_DAY)
      by (apply Z.div_pos; unfold MS_PER_DAY, MS_PER_HOUR; lia).
    lia.
  - rewrite walkDays_done by lia. apply Hexit. lia.
Qed.

Lemma perHour_nonneg (ms : Z) : 0 <= ms -> (0 <= perHour ms)%Q.
Proof.
  intros Hms. unfold perHour, Qdiv.
  apply Qmult_le_0_compat; [| discriminate].
  unfold Qle; cbn. lia.
Qed.

Lemma removeForDay_grows (start end_ d : Z) (acc : Q) :
  (acc <= removeForDay start end_ d acc)%Q.
Proof.
  assert (Hadd : forall a b (x : Q), (x <= if a <? b then x + perHour (b - a) else x)%Q).
  { intros a b x. destruct (Z.ltb_spec a b); [| apply Qle_refl].
    pose proof (perHour_nonneg (b - a) ltac:(lia)). lra. }
  unfold removeForDay. cbv zeta.
  destruct ((getDay d =? 0) || (getDay d =? 6)).
  - apply Hadd.
  - eapply Qle_trans; [apply Hadd | apply Hadd].
Qed.

Lemma walkDays_grows (start end_ d : Z) (acc : Q) :
  (acc <= walkDays start end_ d acc)%Q.
Proof.
  apply (walkDays_rect start end_ (fun _ a r => (a <= r)%Q)).
  - intros. apply Qle_refl.
  - intros d0 acc0 r _ Hr.
    eapply Qle_trans; [apply removeForDay_grows | exact Hr].
Qed.

(** X1.  Working hours never exceed the calendar hours of the interval. *)
Theorem working_hours_at_most_calendar_hours (start end_ : Z) :
  start <= end_ ->
  (Collector.calculateWorkingHours start end_ <= perHour (end_ - start))%Q.
Proof.
  intros Hle. unfold Collector.calculateWorkingHours.
  pose proof (perHour_nonneg (end_ - start) ltac:(lia)) as Hcal.
  destruct (end_ <=? start); [exact Hcal |]. cbv zeta.
  pose proof (walkDays_grows start end_ (setHours start 0) 0) as Hrem.
  apply Q.max_lub; [exact Hcal | lra].
Qed.

Lemma working_hours_at_most_calendar_hours_witness :
  (Collector.calculateWorkingHours (localTime 19727 16) (localTime 19730 11)
   <= perHour (localTime 19730 11 - localTime 19727 16))%Q.
Proof.
  apply working_hours_at_most_calendar_hours. vm_compute. discriminate.
Defined.

Lemma day_of_time (day t : Z) :
  localTime day 0 <= t < localTime (day + 1) 0 -> t / MS_PER_DAY = day.
Proof.
  unfold localTime, MS_PER_DAY, MS_PER_HOUR. intros Ht.
  symmetry. apply (Z.div_unique_pos _ _ _ (t - day * (24 * (1000 * 60 * 60)))); lia.
Qed.

Lemma removeForDay_shift (start end_ d w : Z) (acc : Q) :
  w mod (7 * MS_PER_DAY) = 0 ->
  removeForDay (start + w) (end_ + w) (d + w) acc = removeForDay start end_ d acc.
Proof.
  intros Hw.
  assert (Hk : exists k, w = 7 * k * MS_PER_DAY).
  { exists (w / (7 * MS_PER_DAY)).
    pose proof (Z.div_mod w (7 * MS_PER_DAY)
                  ltac:(unfold MS_PER_DAY, MS_PER_HOUR; lia)) as Hdm.
    rewrite Hw in Hdm. lia. }
  destruct Hk as [k ->].
  assert (Hdiv : (d + 7 * k * MS_PER_DAY) / MS_PER_DAY = d / MS_PER_DAY + 7 * k).
  { replace (d + 7 * k * MS_PER_DAY) with (d + (7 * k) * MS_PER_DAY) by ring.
    apply Z.div_add. unfold MS_PER_DAY, MS_PER_HOUR. lia. }
  assert (Hday : getDay (d + 7 * k * MS_PER_DAY) = getDay d).
  { unfold getDay. rewrite Hdiv.
    replace (d / MS_PER_DAY + 7 * k + 4) with (d / MS_PER_DAY + 4 + k * 7) by ring.
    apply Z.mod_add. lia. }
  assert (Hset : forall h, setHours (d + 7 * k * MS_PER_DAY) h
                           = setHours d h + 7 * k * MS_PER_DAY).
  { intros h. unfold setHours. rewrite Hdiv. ring. }
  unfold removeForDay. cbv zeta. rewrite Hday, !Hset. unfold nextDay.
  set (w := 7 * k * MS_PER_DAY).
  replace (d + w + MS_PER_DAY) with (d + MS_PER_DAY + w) by ring.
  rewrite !Z.add_max_distr_r, !Z.add_min_distr_r.
  assert (Hltb : forall a b, (a + w <? b + w) = (a <? b)).
  { intros a b. destruct (Z.ltb_spec a b), (Z.ltb_spec (a + w) (b + w)); lia. }
  assert (Hsub : forall a b, b + w - (a + w) = b - a) by (intros; ring).
  rewrite !Hltb, !Hsub. reflexivity.
Qed.

Lemma walkDays_shift (start end_ w : Z) :
  w mod (7 * MS_PER_DAY) = 0 ->
  forall d acc,
    walkDays (start + w) (end_ + w) (d + w) acc = walkDays start end_ d acc.
Proof.
  intros Hw d acc.
  apply (walkDays_rect start end_
           (fun d acc r => walkDays (start + w) (end_ + w) (d + w) acc = r)).
  - intros d0 acc0 Hge. apply walkDays_done. lia.
  - intros d0 acc0 r Hlt Hr.
    rewrite walkDays_step by lia. rewrite removeForDay_shift by exact Hw.
    unfold nextDay in *. replace (d0 + w + MS_PER_DAY) with (d0 + MS_PER_DAY + w) by ring.
    exact Hr.
Qed.

(** X2.  Working hours repeat weekly: moving both timestamps by a whole
    number of weeks does not change the result. *)
Theorem working_hours_weekly_period (start end_ weeks : Z) :
  Collector.calculateWorkingHours (start + weeks * (7 * MS_PER_DAY))
                                  (end_ + weeks * (7 * MS_PER_DAY))
  = Collector.calculateWorkingHours start end_.
Proof.
  set (w := weeks * (7 * MS_PER_DAY)).
  assert (Hw : w mod (7 * MS_PER_DAY) = 0) by (subst w; apply Z.mod_mul; discriminate).
  unfold Collector.calculateWorkingHours.
  assert (Hleb : (end_ + w <=? start + w) = (end_ <=? start)).
  { destruct (Z.leb_spec end_ start), (Z.leb_spec (end_ + w) (start + w)); lia. }
  rewrite Hleb. destruct (end_ <=? start); [reflexivity |]. cbv zeta.
  replace (end_ + w - (start + w)) with (end_ - start) by ring.
  assert (Hset : setHours (start + w) 0 = setHours start 0 + w).
  { unfold setHours. subst w.
    replace (start + weeks * (7 * MS_PER_DAY))
      with (start + (weeks * 7) * MS_PER_DAY) by ring.
    rewrite Z.div_add by (unfold MS_PER_DAY, MS_PER_HOUR; lia). ring. }
  rewrite Hset, walkDays_shift by exact Hw. reflexivity.
Qed.

(** X3.  Inside the window of one weekday, from 10:00 to 18:00, every
    calendar hour is a working hour. *)
Theorem working_hours_inside_weekday_window (day start end_ : Z) :
  getDay (localTime day 0) <> 0 ->
  getDay (localTime day 0) <> 6 ->
  localTime day 10 <= start ->
  start <= end_ ->
  end_ <= localTime day 18 ->
  (Collector.calculateWorkingHours start end_ == perHour (end_ - start))%Q.
Proof.
  intros Hsun Hsat Hlo Horder Hhi.
  unfold Collector.calculateWorkingHours.
  destruct (Z.leb_spec end_ start) as [Hle|Hlt].
  - replace (end_ - start) with 0 by lia. reflexivity.
  - cbv zeta.
    assert (Hday : start / MS_PER_DAY = day)
      by (apply day_of_time; unfold localTime, MS_PER_DAY, MS_PER_HOUR in *; lia).
    assert (Hmid : setHours start 0 = localTime day 0)
      by (unfold setHours; rewrite Hday; reflexivity).
    rewrite Hmid.
    rewrite walkDays_step by (unfold localTime, MS_PER_DAY, MS_PER_HOUR in *; lia).
    rewrite removeForDay_localTime, nextDay_localTime.
    rewrite getDay_localTime in Hsun, Hsat by lia.
    rewrite (proj2 (Z.eqb_neq _ 0) Hsun), (proj2 (Z.eqb_neq _ 6) Hsat).
    cbn [orb]. cbv zeta.
    rewrite walkDays_done by (unfold localTime, MS_PER_DAY, MS_PER_HOUR in *; lia).
    unfold localTime, MS_PER_DAY, MS_PER_HOUR in *.
    decide_ltb.
    pose proof (perHour_nonneg (end_ - start) ltac:(lia)) as Hcal.
    rewrite Q.max_r by lra. ring.
Qed.

Lemma working_hours_inside_weekday_window_witness :
  (Collector.calculateWorkingHours (localTime 19724 10) (localTime 19724 14)
   == perHour (localTime 19724 14 - localTime 19724 10))%Q.
Proof.
  apply (working_hours_inside_weekday_window 19724); vm_compute; discriminate.
Defined.

Lemma perHour_sub (a b : Z) : (perHour (a - b) == perHour a - perHour b)%Q.
Proof.
  unfold perHour. unfold Z.sub. rewrite inject_Z_plus, inject_Z_opp. field.
  discriminate.
Qed.

Ltac unfold_times := unfold localTime, MS_PER_DAY, MS_PER_HOUR in *.

Ltac walk_day Hday :=
  rewrite walkDays_step by (unfold_times; lia);
  rewrite removeForDay_localTime, nextDay_localTime, ?Hday;
  cbn [Z.eqb Pos.eqb orb]; cbv zeta.

Ltac finish_walk :=
  rewrite walkDays_done by (unfold_times; lia);
  unfold_times; decide_ltb; decide_min_max.

Ltac all_removed :=
  rewrite ?perHour_sub;
  match goal with
  | |- (Qmax 0 ?x == 0)%Q =>
      let H := fresh in
      assert (H : (x == 0)%Q) by ring; rewrite H; reflexivity
  end.

(** X4.  A whole week, from a Monday 00:00 to the next Monday 00:00, is 40
    working hours. *)
Theorem full_week_is_forty_hours (day : Z) :
  getDay (localTime day 0) = 1 ->
  (Collector.calculateWorkingHours (localTime day 0) (localTime (day + 7) 0)
   == 40)%Q.
Proof.
  intros Hmon. rewrite getDay_localTime in Hmon by lia.
  assert (Htue : (day + 1 + 4) mod 7 = 2) by (Z.div_mod_to_equations; lia).
  assert (Hwed : (day + 1 + 1 + 4) mod 7 = 3) by (Z.div_mod_to_equations; lia).
  assert (Hthu : (day + 1 + 1 + 1 + 4) mod 7 = 4) by (Z.div_mod_to_equations; lia).
  assert (Hfri : (day + 1 + 1 + 1 + 1 + 4) mod 7 = 5)
    by (Z.div_mod_to_equations; lia).
  assert (Hsat : (day + 1 + 1 + 1 + 1 + 1 + 4) mod 7 = 6)
    by (Z.div_mod_to_equations; lia).
  assert (Hsun : (day + 1 + 1 + 1 + 1 + 1 + 1 + 4) mod 7 = 0)
    by (Z.div_mod_to_equations; lia).
  unfold Collector.calculateWorkingHours.
  rewrite (proj2 (Z.leb_gt _ _)) by (unfold_times; lia). cbv zeta.
  rewrite setHours_localTime by lia.
  walk_day Hmon. walk_day Htue. walk_day Hwed. walk_day Hthu. walk_day Hfri.
  walk_day Hsat. walk_day Hsun.
  finish_walk.
  repeat match goal with
    | |- context [perHour ?x] => progress ring_simplify x
    end.
  vm_compute. reflexivity.
Qed.

(** Monday 1 January 2024 is day 19723. *)
Lemma full_week_is_forty_hours_witness :
  (Collector.calculateWorkingHours (localTime 19723 0) (localTime 19730 0) == 40)%Q.
Proof. apply (full_week_is_forty_hours 19723). reflexivity. Defined.

(** X5.  An interval that lies within one weekend day, between its 00:00
    and the next 00:00, has no working hours. *)
Theorem weekend_day_has_no_working_hours (day start end_ : Z) :
  getDay (localTime day 0) = 6 \/ getDay (localTime day 0) = 0 ->
  localTime day 0 <= start ->
  end_ <= localTime (day + 1) 0 ->
  (Collector.calculateWorkingHours start end_ == 0)%Q.
Proof.
  intros Hday Hlo Hhi. rewrite getDay_localTime in Hday by lia.
  unfold Collector.calculateWorkingHours.
  destruct (Z.leb_spec end_ start) as [Hle|Hlt]; [reflexivity |]. cbv zeta.
  assert (Hmid : setHours start 0 = localTime day 0).
  { unfold setHours. rewrite (day_of_time day) by lia. reflexivity. }
  rewrite Hmid.
  destruct Hday as [Hday|Hday]; walk_day Hday; finish_walk; all_removed.
Qed.

(** Saturday 6 January 2024 is day 19728. *)
Lemma weekend_day_has_no_working_hours_witness :
  (Collector.calculateWorkingHours (localTime 19728 9) (localTime 19728 20) == 0)%Q.
Proof.
  apply (weekend_day_has_no_working_hours 19728); vm_compute;
    try (left; reflexivity); discriminate.
Defined.

(** X6.  On a weekday, an interval that lies within the evening, from 18:00
    to midnight, or within the morning, from midnight to 10:00, has no
    working hours. *)
Theorem night_has_no_working_hours (day start end_ : Z) :
  getDay (localTime day 0) <> 0 ->
  getDay (localTime day 0) <> 6 ->
  (localTime day 18 <= start /\ end_ <= localTime (day + 1) 0)
  \/ (localTime day 0 <= start /\ end_ <= localTime day 10) ->
  (Collector.calculateWorkingHours start end_ == 0)%Q.
Proof.
  intros Hnotsun Hnotsat Hpiece.
  rewrite getDay_localTime in Hnotsun, Hnotsat by lia.
  unfold Collector.calculateWorkingHours.
  destruct (Z.leb_spec end_ start) as [Hle|Hlt]; [reflexivity |]. cbv zeta.
  assert (Hmid : setHours start 0 = localTime day 0).
  { unfold setHours. rewrite (day_of_time day); [reflexivity |].
    unfold_times. lia. }
  rewrite Hmid.
  rewrite walkDays_step by (unfold_times; lia).
  rewrite removeForDay_localTime, nextDay_localTime.
  rewrite (proj2 (Z.eqb_neq _ 0) Hnotsun), (proj2 (Z.eqb_neq _ 6) Hnotsat).
  cbn [orb]. cbv zeta.
  destruct Hpiece as [[Hlo Hhi]|[Hlo Hhi]]; finish_walk; all_removed.
Qed.

(** Friday 5 January 2024, from 19:00 to 23:00. *)
Lemma night_has_no_working_hours_witness :
  (Collector.calculateWorkingHours (localTime 19727 19) (localTime 19727 23) == 0)%Q.
Proof.
  apply (night_has_no_working_hours 19727);
    [vm_compute; discriminate | vm_compute; discriminate |].
  left. split; vm_compute; discriminate.
Defined.


(** ** Churn: bounds and the count of files touched again *)

Lemma Qfloor_half_Z (n : Z) : Qfloor (inject_Z n + (1 # 2)) = n.
Proof.
  assert (Hlo : n <= Qfloor (inject_Z n + (1 # 2))).
  { rewrite <- (Qfloor_Z n) at 1. apply Qfloor_resp_le.
    rewrite <- (Qplus_0_r (inject_Z n)) at 1. apply Qplus_le_r. discriminate. }
  assert (Hhi : Qfloor (inject_Z n + (1 # 2)) < n + 1).
  { rewrite Zlt_Qlt. eapply Qle_lt_trans; [apply Qfloor_le |].
    rewrite inject_Z_plus. apply Qplus_lt_r. reflexivity. }
  lia.
Qed.

Lemma inject_Z_nonneg (z : Z) : 0 <= z -> (0 <= inject_Z z)%Q.
Proof. intros Hz. unfold Qle; cbn. lia. Qed.

Lemma inject_Z_pos (z : Z) : 0 < z -> (0 < inject_Z z)%Q.
Proof. intros Hz. unfold Qlt; cbn. lia. Qed.

(** Rounding to a number of decimals keeps a value between two integers
    between them. *)
Lemma toFixed_between (digits : nat) (hi : Z) (x : Q) :
  (0 <= x <= inject_Z hi)%Q ->
  (0 <= JS.toFixed digits x <= inject_Z hi)%Q.
Proof.
  intros [Hlo Hhi]. unfold JS.toFixed. cbv zeta.
  rewrite (proj2 (Qle_bool_iff 0 x) Hlo).
  assert (Hpow : 0 < JS.pow10 digits) by (unfold JS.pow10; lia).
  assert (Hscale : (0 < inject_Z (JS.pow10 digits))%Q)
    by (apply inject_Z_pos; exact Hpow).
  set (scale := inject_Z (JS.pow10 digits)) in *.
  assert (Hfloor_lo : 0 <= Qfloor (x * scale + (1 # 2))).
  { change 0 with (Qfloor 0). apply Qfloor_resp_le.
    assert (0 <= x * scale)%Q by (apply Qmult_le_0_compat; lra). lra. }
  assert (Hfloor_hi : Qfloor (x * scale + (1 # 2)) <= hi * JS.pow10 digits).
  { rewrite <- (Qfloor_half_Z (hi * JS.pow10 digits)). apply Qfloor_resp_le.
    rewrite inject_Z_mult. fold scale.
    apply Qplus_le_l. apply Qmult_le_compat_r; lra. }
  split.
  - apply Qle_shift_div_l; [exact Hscale |]. rewrite Qmult_0_l.
    apply inject_Z_nonneg. exact Hfloor_lo.
  - apply Qle_shift_div_r; [exact Hscale |].
    unfold scale. rewrite <- inject_Z_mult, <- Zle_Qle. exact Hfloor_hi.
Qed.

Lemma churn_files_bounds (idx : nat) (fs : list FileChange)
    (st : Collector.ChurnState) :
  Forall (fun f => 0 <= additions f) fs ->
  0 <= Collector.reWorkAdditions st <= Collector.totalAdditionsSoFar st ->
  let st' := fold_left (Collector.churnFile idx) fs st in
  0 <= Collector.reWorkAdditions st' <= Collector.totalAdditionsSoFar st'.
Proof.
  revert st. induction fs as [|f fs IH]; intros st Hpos Hst; cbn zeta;
    cbn [fold_left]; [exact Hst |].
  apply Forall_cons in Hpos as [Hf Hpos]. apply IH; [exact Hpos |].
  rewrite churnFile_rework, churnFile_total.
  destruct (touched st (filename f)); lia.
Qed.

Lemma churn_commits_bounds (commits : list Commit) (idx : nat)
    (st : Collector.ChurnState) :
  nonNegativeAdditions commits ->
  0 <= Collector.reWorkAdditions st <= Collector.totalAdditionsSoFar st ->
  let st' := Collector.churnCommits idx commits st in
  0 <= Collector.reWorkAdditions st' <= Collector.totalAdditionsSoFar st'.
Proof.
  revert idx st. induction commits as [|c commits IH]; intros idx st Hpos Hst;
    cbn zeta; cbn [Collector.churnCommits]; [exact Hst |].
  apply Forall_cons in Hpos as [Hc Hpos]. apply IH; [exact Hpos |].
  apply churn_files_bounds; assumption.
Qed.

(** X7.  When no file change has negative additions, churnPercentage is a
    percentage: it lies between 0 and 100, whatever the commits are (absent,
    empty, with repeated filenames). *)
Theorem churn_percentage_is_a_percentage (commits : option (list Commit)) :
  (forall cs, commits = Some cs -> nonNegativeAdditions cs) ->
  (0 <= Collector.cm_churnPercentage (Collector.calculateChurnMetrics commits)
   <= 100)%Q.
Proof.
  intros Hpos. destruct commits as [cs|]; [| split; discriminate].
  specialize (Hpos cs eq_refl). unfold Collector.calculateChurnMetrics.
  destruct (lengthZ cs <=? 1); [split; discriminate |].
  cbv zeta. cbn [Collector.cm_churnPercentage].
  pose proof (churn_commits_bounds cs 0%nat Collector.churnStart Hpos
                ltac:(cbn; lia)) as Hb. cbn zeta in Hb.
  set (st := Collector.churnCommits 0 cs Collector.churnStart) in *.
  destruct (Z.ltb_spec 0 (Collector.totalAdditionsSoFar st)) as [Htot|Htot];
    [| split; discriminate].
  apply (toFixed_between 1 100).
  assert (Ht : (0 < inject_Z (Collector.totalAdditionsSoFar st))%Q)
    by (apply inject_Z_pos; exact Htot).
  assert (Hr0 : (0 <= inject_Z (Collector.reWorkAdditions st))%Q)
    by (apply inject_Z_nonneg; lia).
  assert (Hrt : (inject_Z (Collector.reWorkAdditions st)
                 <= inject_Z (Collector.totalAdditionsSoFar st))%Q)
    by (rewrite <- Zle_Qle; lia).
  assert (Hratio : (0 <= inject_Z (Collector.reWorkAdditions st)
                         / inject_Z (Collector.totalAdditionsSoFar st) <= 1)%Q).
  { split.
    - apply Qle_shift_div_l; [exact Ht |]. rewrite Qmult_0_l. exact Hr0.
    - apply Qle_shift_div_r; [exact Ht |]. rewrite Qmult_1_l. exact Hrt. }
  change (inject_Z 100) with 100%Q. unfold JS.times, JS.divide.
  assert (Hq : (0 <= JS.double (inject_Z (Collector.reWorkAdditions st)
                                / inject_Z (Collector.totalAdditionsSoFar st))
                <= 1)%Q).
  { split; [apply double_nonneg, Hratio |].
    apply double_upper; [apply Hratio | reflexivity]. }
  split; [apply double_nonneg; lra |].
  apply double_upper; [lra | reflexivity].
Qed.

Lemma churn_percentage_is_a_percentage_witness :
  (0 <= Collector.cm_churnPercentage
          (Collector.calculateChurnMetrics (Some Samples.repeatedInOneCommit))
   <= 100)%Q.
Proof.
  apply churn_percentage_is_a_percentage.
  intros cs [= <-]. apply (bool_decide_unpack _). vm_compute. exact I.
Defined.

Lemma churnFile_lookup (idx : nat) (st : Collector.ChurnState) (f : FileChange)
    (name : string) :
  Collector.fileSeenInCommit (Collector.churnFile idx st f) !! name
  = if bool_decide (filename f = name)
    then Some (default ∅ (Collector.fileSeenInCommit st !! name) ∪ {[idx]})
    else Collector.fileSeenInCommit st !! name.
Proof.
  unfold Collector.churnFile; cbn. case_bool_decide as Hname.
  - subst name. rewrite lookup_insert_eq.
    destruct (Collector.fileSeenInCommit st !! filename f) as [seen|] eqn:Hlook.
    + rewrite Hlook. reflexivity.
    + rewrite lookup_insert_eq. reflexivity.
  - rewrite lookup_insert_ne by done.
    destruct (Collector.fileSeenInCommit st !! filename f); [reflexivity |].
    rewrite lookup_insert_ne by done. reflexivity.
Qed.

Lemma churn_files_lookup (idx : nat) (fs : list FileChange)
    (st : Collector.ChurnState) (name : string) :
  Collector.fileSeenInCommit (fold_left (Collector.churnFile idx) fs st) !! name
  = if existsb (fun f => bool_decide (filename f = name)) fs
    then Some (default ∅ (Collector.fileSeenInCommit st !! name) ∪ {[idx]})
    else Collector.fileSeenInCommit st !! name.
Proof.
  revert st. induction fs as [|f fs IH]; intros st; cbn [fold_left existsb];
    [reflexivity |].
  rewrite IH, churnFile_lookup.
  destruct (bool_decide (filename f = name)); cbn [orb default].
  - destruct (existsb _ fs); [| reflexivity]. f_equal. set_solver.
  - reflexivity.
Qed.

(** After the walk, the map holds for each filename the indices of the
    commits that list it, and no entry for a filename that none lists. *)
Lemma churn_commits_lookup (commits : list Commit) (idx : nat)
    (st : Collector.ChurnState) (name : string) :
  Collector.fileSeenInCommit (Collector.churnCommits idx commits st) !! name
  = if decide (commitsTouching name idx commits = ∅)
    then Collector.fileSeenInCommit st !! name
    else Some (default ∅ (Collector.fileSeenInCommit st !! name)
               ∪ commitsTouching name idx commits).
Proof.
  revert idx st. induction commits as [|c commits IH]; intros idx st;
    cbn [Collector.churnCommits commitsTouching].
  - rewrite decide_True by reflexivity. reflexivity.
  - rewrite IH, churn_files_lookup. unfold listsFile.
    destruct (existsb (fun f => bool_decide (filename f = name)) (files c)).
    + rewrite (decide_False (P := _ ∪ _ = ∅)) by set_solver.
      destruct (decide (commitsTouching name (S idx) commits = ∅)) as [Hrest|Hrest].
      * rewrite Hrest. f_equal. set_solver.
      * cbn [default]. f_equal. set_solver.
    + rewrite union_empty_l_L. reflexivity.
Qed.

Lemma churnStart_lookup (commits : list Commit) (name : string) :
  Collector.fileSeenInCommit
    (Collector.churnCommits 0 commits Collector.churnStart) !! name
  = if decide (commitsTouching name 0 commits = ∅) then None
    else Some (commitsTouching name 0 commits).
Proof.
  rewrite churn_commits_lookup. cbn [Collector.churnStart Collector.fileSeenInCommit].
  rewrite lookup_empty. cbn [default]. rewrite union_empty_l_L. reflexivity.
Qed.

Lemma commitsTouching_listed (name : string) (commits : list Commit) (idx : nat) :
  commitsTouching name idx commits <> ∅ ->
  In name (flat_map (fun c => map filename (files c)) commits).
Proof.
  revert idx. induction commits as [|c commits IH]; intros idx;
    cbn [commitsTouching flat_map]; [congruence |].
  intros Hne. apply in_app_iff.
  destruct (listsFile name c) eqn:Hc.
  - left. unfold listsFile in Hc. apply existsb_exists in Hc as (f & Hf & Hname).
    apply bool_decide_eq_true in Hname. subst name. apply in_map. exact Hf.
  - right. apply (IH (S idx)). intros Hrest. apply Hne. rewrite Hrest. set_solver.
Qed.

Lemma commitsTouching_range (name : string) (commits : list Commit) (idx i : nat) :
  i ∈ commitsTouching name idx commits -> (idx <= i < idx + length commits)%nat.
Proof.
  revert idx. induction commits as [|c commits IH]; intros idx;
    cbn [commitsTouching length]; [set_solver |].
  rewrite elem_of_union. intros [Hi|Hi].
  - destruct (listsFile name c); [| set_solver].
    apply elem_of_singleton in Hi. lia.
  - apply IH in Hi. lia.
Qed.

Lemma NoDup_fst_filter {A B} (f : A * B -> bool) (l : list (A * B)) :
  NoDup (map fst l) -> NoDup (map fst (List.filter f l)).
Proof.
  induction l as [|x l IH]; cbn [map List.filter]; [trivial |].
  intros Hnd. apply NoDup_cons in Hnd as [Hx Hnd].
  destruct (f x); cbn [map]; [| auto].
  apply NoDup_cons. split; [| auto].
  intros Hin. apply Hx. apply list_elem_of_In in Hin. apply list_elem_of_In.
  apply in_map_iff in Hin as (y & Hy & Hin). apply filter_In in Hin as [Hin _].
  apply in_map_iff. exists y. split; assumption.
Qed.

Lemma NoDup_List_filter {A} (f : A -> bool) (l : list A) :
  NoDup l -> NoDup (List.filter f l).
Proof.
  induction l as [|x l IH]; cbn [List.filter]; [trivial |].
  intros Hnd. apply NoDup_cons in Hnd as [Hx Hnd].
  destruct (f x); [| auto]. apply NoDup_cons. split; [| auto].
  intros Hin. apply Hx. apply list_elem_of_In in Hin. apply list_elem_of_In.
  apply filter_In in Hin as [Hin _]. exact Hin.
Qed.

(** X8.  fileChurnCount is the number of distinct filenames that are listed
    by more than one commit of the list; a filename repeated inside one
    commit is not counted for that. *)
Theorem file_churn_count_counts_files_touched_again (commits : list Commit) :
  Collector.cm_fileChurnCount (Collector.calculateChurnMetrics (Some commits))
  = lengthZ (List.filter
               (fun name => 1 <? Z.of_nat (size (commitsTouching name 0 commits)))
               (allFilenames commits)).
Proof.
  unfold Collector.calculateChurnMetrics.
  destruct (Z.leb_spec (lengthZ commits) 1) as [Hshort|Hlong].
  - (* at most one commit: no set of indices has two members *)
    cbn [Collector.cm_fileChurnCount].
    assert (Hnone : forall l : list string,
               List.filter (fun name =>
                              1 <? Z.of_nat (size (commitsTouching name 0 commits))) l
               = []).
    { induction l as [|name l IH]; cbn [List.filter]; [reflexivity |].
      rewrite IH.
      assert (Hsub : commitsTouching name 0 commits ⊆ {[0%nat]}).
      { intros i Hi. apply commitsTouching_range in Hi.
        unfold lengthZ in Hshort. apply elem_of_singleton. lia. }
      apply subseteq_size in Hsub. rewrite size_singleton in Hsub.
      rewrite (proj2 (Z.ltb_ge _ _)) by lia. reflexivity. }
    rewrite Hnone. reflexivity.
  - cbn [Collector.cm_fileChurnCount]. unfold lengthZ. f_equal.
    set (m := Collector.fileSeenInCommit
                (Collector.churnCommits 0 commits Collector.churnStart)).
    rewrite <- (length_map fst).
    apply Permutation_length, NoDup_Permutation.
    + apply NoDup_fst_filter, NoDup_fst_map_to_list.
    + apply NoDup_List_filter. unfold allFilenames. apply NoDup_remove_dups.
    + intros name. rewrite !list_elem_of_In, in_map_iff, filter_In.
      unfold allFilenames. rewrite <- list_elem_of_In, elem_of_remove_dups,
        list_elem_of_In.
      split.
      * intros ([k seen] & Hk & Hin). cbn in Hk. subst k.
        apply filter_In in Hin as [Hin Hsize]. cbn [snd] in Hsize.
        apply list_elem_of_In, elem_of_map_to_list in Hin.
        subst m. rewrite churnStart_lookup in Hin.
        destruct (decide (commitsTouching name 0 commits = ∅)) as [|Hne];
          [discriminate |].
        injection Hin as <-. split; [| exact Hsize].
        apply (commitsTouching_listed name commits 0%nat Hne).
      * intros [_ Hsize]. exists (name, commitsTouching name 0 commits).
        split; [reflexivity |]. apply filter_In. split; [| exact Hsize].
        apply list_elem_of_In, elem_of_map_to_list.
        subst m. rewrite churnStart_lookup.
        rewrite decide_False; [reflexivity |].
        intros Hempty. rewrite Hempty, size_empty in Hsize. discriminate.
Qed.


(** ** Change classifier: what the patterns match *)

Lemma append_cons (c : Ascii.ascii) (a b : string) :
  String.append (String c a) b = String c (String.append a b).
Proof. reflexivity. Qed.

Lemma append_empty (b : string) : String.append EmptyString b = b.
Proof. reflexivity. Qed.

Lemma prefix_spec (p s : string) :
  String.prefix p s = true <-> exists b, s = String.append p b.
Proof.
  revert s. induction p as [|c p IH]; intros s.
  - split; [intros _; exists s; reflexivity | intros _; destruct s; reflexivity].
  - destruct s as [|d s]; cbn;
      [split; [discriminate | intros [b Hb]; discriminate] |].
    destruct (Ascii.ascii_dec c d) as [->|Hne].
    + rewrite IH. split; intros [b Hb]; exists b; rewrite append_cons in *;
        congruence.
    + split; [discriminate | intros [b Hb]; rewrite append_cons in Hb; congruence].
Qed.

Lemma includes_spec (pat s : string) :
  JS.includes pat s = true
  <-> exists a b, s = String.append a (String.append pat b).
Proof.
  induction s as [|d s IH]; cbn [JS.includes]; rewrite orb_true_iff, prefix_spec.
  - split.
    + intros [[b Hb]|Hf]; [exists EmptyString, b; exact Hb | discriminate].
    + intros (a & b & Hab). left.
      destruct a; [exists b; exact Hab | rewrite append_cons in Hab; discriminate].
  - rewrite IH. split.
    + intros [[b Hb]|(a & b & Hab)].
      * exists EmptyString, b. exact Hb.
      * exists (String d a), b. rewrite append_cons, Hab. reflexivity.
    + intros ([|c a] & b & Hab).
      * left. exists b. exact Hab.
      * right. exists a, b. rewrite append_cons in Hab. congruence.
Qed.

(** X9.  A file is a test file exactly when its path contains one of the
    configured patterns as a substring. *)
Theorem test_file_iff_pattern_substring (path : string) :
  Collector.isTestFile path = true
  <-> exists pattern before after,
        In pattern config.testFilePatterns
        /\ path = String.append before (String.append pattern after).
Proof.
  unfold Collector.isTestFile. rewrite existsb_exists. split.
  - intros (pattern & Hin & Hinc). exists pattern.
    assert (Hinc' : JS.includes pattern path = true)
      by (destruct (JS.endsWith "/" pattern); exact Hinc).
    apply includes_spec in Hinc' as (a & b & Hab). exists a, b. split; assumption.
  - intros (pattern & a & b & Hin & Hab). exists pattern. split; [exact Hin |].
    assert (Hinc : JS.includes pattern path = true)
      by (apply includes_spec; exists a, b; exact Hab).
    destruct (JS.endsWith "/" pattern); exact Hinc.
Qed.

Lemma chars_append (a b : string) :
  chars (String.append a b) = chars a ++ chars b.
Proof.
  unfold chars. induction a as [|c a IH]; [reflexivity |].
  rewrite append_cons. cbn. rewrite IH. reflexivity.
Qed.

Lemma includes_chars (pat s : string) (c : Ascii.ascii) :
  JS.includes pat s = true -> In c (chars pat) -> In c (chars s).
Proof.
  intros Hinc Hc. apply includes_spec in Hinc as (a & b & ->).
  rewrite !chars_append, !in_app_iff. right. left. exact Hc.
Qed.

(** X10.  The wildcard patterns are looked for literally: for a path without
    an asterisk, only the patterns that end in a slash decide. *)
Theorem wildcard_patterns_never_match (path : string) :
  ~ In asterisk (chars path) ->
  Collector.isTestFile path
  = existsb (fun pattern => JS.includes pattern path) directoryPatterns.
Proof.
  intros Hstar.
  assert (Hwild : forall pattern,
             In asterisk (chars pattern) -> JS.includes pattern path = false).
  { intros pattern Hin. apply not_true_is_false. intros Hinc.
    apply Hstar. exact (includes_chars pattern path _ Hinc Hin). }
  unfold Collector.isTestFile, directoryPatterns, config.testFilePatterns.
  cbn [existsb List.filter].
  repeat match goal with
    | |- context [JS.endsWith ?s ?p] =>
        let b := eval vm_compute in (JS.endsWith s p) in
        change (JS.endsWith s p) with b; cbv iota
    end.
  cbn [existsb List.filter].
  rewrite (Hwild "*.test.*"%string), (Hwild "*.spec.*"%string),
    (Hwild "*.stories.*"%string) by (left; reflexivity).
  reflexivity.
Qed.

Lemma wildcard_patterns_never_match_witness :
  Collector.isTestFile "src/filters.test.ts"
  = existsb (fun pattern => JS.includes pattern "src/filters.test.ts")
            directoryPatterns.
Proof.
  apply wildcard_patterns_never_match. vm_compute. intros H.
  repeat (destruct H as [H|H]; [discriminate H |]). exact H.
Defined.


(** ** processPR: the enriched reviews *)

Lemma processReview_snd (author : string) (byUser : JS.Map (list Z))
    (reviews : list Collector.ApiReview) (acc : list Z * list Review) :
  (fold_left (Collector.processReview author byUser) reviews acc).2
  = acc.2 ++ flat_map (enrichedReviewOf byUser) reviews.
Proof.
  revert acc. induction reviews as [|r reviews IH]; intros acc;
    cbn [fold_left flat_map].
  - rewrite app_nil_r. reflexivity.
  - rewrite IH.
    assert (Hhead : (Collector.processReview author byUser acc r).2
                    = acc.2 ++ enrichedReviewOf byUser r) by reflexivity.
    rewrite Hhead, <- app_assoc. reflexivity.
Qed.

Lemma processPR_reviews (pr : Collector.MergedPR) (files : list FileChange)
    (apiReviews : list Collector.ApiReview)
    (comments : list Collector.ConversationComment) (commits : list Commit) :
  reviews (Collector.processPR pr files apiReviews comments commits)
  = flat_map (enrichedReviewOf (Collector.userConversationCommentTimestamps comments))
             apiReviews
  /\ iterationCount (Collector.processPR pr files apiReviews comments commits)
     = lengthZ (reviews (Collector.processPR pr files apiReviews comments commits)).
Proof.
  unfold Collector.processPR.
  pose proof (processReview_snd (Collector.pr_author pr)
                (Collector.userConversationCommentTimestamps comments) apiReviews
                (Collector.nonAuthorConversationTimestamps (Collector.pr_author pr)
                   (Collector.userConversationCommentTimestamps comments), []))
    as Hsnd.
  destruct (fold_left _ apiReviews _) as [allResponseTimestamps processedReviews].
  cbn [snd app] in Hsnd. cbn [reviews iterationCount]. subst processedReviews.
  split; reflexivity.
Qed.

(** X11.  processPR keeps one enriched review per submitted review, in the
    same order, with the reviewer, state and submission time unchanged;
    iterationCount is their number. *)
Theorem processPR_keeps_every_review (pr : Collector.MergedPR)
    (files : list FileChange) (apiReviews : list Collector.ApiReview)
    (comments : list Collector.ConversationComment) (commits : list Commit) :
  let detail := Collector.processPR pr files apiReviews comments commits in
  map (fun r => (reviewer r, state r, submittedAt r)) (reviews detail)
  = map (fun r => (Collector.ar_login r, Collector.ar_state r,
                   Collector.ar_submitted_at r)) apiReviews
  /\ iterationCount detail = lengthZ apiReviews.
Proof.
  cbn zeta.
  destruct (processPR_reviews pr files apiReviews comments commits) as [Hrev Hit].
  rewrite Hit, Hrev. clear Hrev Hit.
  set (byUser := Collector.userConversationCommentTimestamps comments).
  assert (Hmap : map (fun r => (reviewer r, state r, submittedAt r))
                     (flat_map (enrichedReviewOf byUser) apiReviews)
                 = map (fun r => (Collector.ar_login r, Collector.ar_state r,
                                  Collector.ar_submitted_at r)) apiReviews).
  { induction apiReviews as [|r rs IH]; [reflexivity |].
    cbn [flat_map map]. rewrite map_app, IH. reflexivity. }
  split; [exact Hmap |].
  apply (f_equal (@length _)) in Hmap. rewrite !length_map in Hmap.
  unfold lengthZ. rewrite Hmap. reflexivity.
Qed.

(** The fields of the enriched review appended for one review of the API. *)
Lemma enrichedReviewOf_fields (byUser : JS.Map (list Z))
    (api : Collector.ApiReview) (enriched : Review) :
  In enriched (enrichedReviewOf byUser api) ->
  reviewer enriched = Collector.ar_login api
  /\ submittedAt enriched = Collector.ar_submitted_at api
  /\ firstActivityAt enriched
     = (if 0 <? lengthZ (Collector.reviewerActivityTimestamps byUser api)
        then head (Collector.sortByDate
                     (Collector.reviewerActivityTimestamps byUser api))
        else Collector.ar_submitted_at api)
  /\ inlineCommentCount enriched = lengthZ (Collector.ar_inlineComments api)
  /\ conversationCommentCount enriched
     = lengthZ (default [] (JS.Map_get byUser (Collector.ar_login api)))
  /\ body enriched = default EmptyString (Collector.ar_body api)
  /\ hasComments enriched
     = match Collector.ar_body api with
       | Some b => JS.truthyString b && (0 <? Z.of_nat (String.length (trim b)))
       | None => false
       end
       || (0 <? lengthZ (Collector.ar_inlineComments api))
       || (0 <? lengthZ (default [] (JS.Map_get byUser (Collector.ar_login api)))).
Proof. intros [<-|[]]. repeat split; reflexivity. Qed.

Lemma In_processPR_reviews (pr : Collector.MergedPR) (files : list FileChange)
    (apiReviews : list Collector.ApiReview)
    (comments : list Collector.ConversationComment) (commits : list Commit)
    (enriched : Review) :
  In enriched (reviews (Collector.processPR pr files apiReviews comments commits)) ->
  exists api,
    In api apiReviews
    /\ In enriched
         (enrichedReviewOf (Collector.userConversationCommentTimestamps comments) api).
Proof.
  destruct (processPR_reviews pr files apiReviews comments commits) as [-> _].
  rewrite in_flat_map. trivial.
Qed.

Lemma firstActivityAt_earliest (comments : list Collector.ConversationComment)
    (api : Collector.ApiReview) (enriched : Review) :
  In enriched
     (enrichedReviewOf (Collector.userConversationCommentTimestamps comments) api) ->
  firstActivityAt enriched = Spec.earliest (Spec.activityTimestamps comments api).
Proof.
  intros Hin. apply enrichedReviewOf_fields in Hin as (_ & _ & Hfirst & _).
  rewrite Hfirst, reviewerActivityTimestamps_spec.
  rewrite (head_sortByDate_earliest _ (Spec.activityTimestamps comments api))
    by reflexivity.
  destruct (Spec.activityTimestamps comments api) as [|t l] eqn:Hact;
    [| reflexivity].
  cbn. unfold Spec.activityTimestamps in Hact.
  destruct (Collector.ar_submitted_at api); [discriminate | reflexivity].
Qed.

(** X12.  The firstActivityAt of every enriched review is the earliest of the
    review's submission time, the times of its inline comments and the times
    of the reviewer's conversation comments; so it is never later than the
    submission time. *)
Theorem first_activity_is_earliest_activity (pr : Collector.MergedPR)
    (files : list FileChange) (apiReviews : list Collector.ApiReview)
    (comments : list Collector.ConversationComment) (commits : list Commit)
    (enriched : Review) :
  In enriched (reviews (Collector.processPR pr files apiReviews comments commits)) ->
  (exists api,
      In api apiReviews
      /\ reviewer enriched = Collector.ar_login api
      /\ firstActivityAt enriched
         = Spec.earliest (Spec.activityTimestamps comments api))
  /\ (forall t, submittedAt enriched = Some t ->
        exists a, firstActivityAt enriched = Some a /\ a <= t).
Proof.
  intros Hin. apply In_processPR_reviews in Hin as (api & Hapi & Hin).
  pose proof (firstActivityAt_earliest comments api enriched Hin) as Hfirst.
  pose proof (enrichedReviewOf_fields _ api enriched Hin) as (Hwho & Hsub & _).
  split.
  - exists api. repeat split; assumption.
  - intros t Ht. rewrite Hsub in Ht. rewrite Hfirst.
    pose proof (earliest_spec (Spec.activityTimestamps comments api)) as Hmin.
    assert (Hint : In t (Spec.activityTimestamps comments api))
      by (unfold Spec.activityTimestamps; rewrite Ht; left; reflexivity).
    destruct (Spec.earliest (Spec.activityTimestamps comments api)) as [a|].
    + exists a. split; [reflexivity |]. apply Hmin, Hint.
    + rewrite Hmin in Hint. destruct Hint.
Qed.

Lemma first_activity_is_earliest_activity_witness :
  exists a, firstActivityAt Samples.bobOnAnaPr = Some a /\ a <= localTime 19723 14.
Proof.
  apply (first_activity_is_earliest_activity Samples.anaPr []
           Samples.anaPrReviews Samples.anaPrComments [] Samples.bobOnAnaPr).
  - vm_compute. left. reflexivity.
  - reflexivity.
Defined.

Lemma processPR_firstResponseAt (pr : Collector.MergedPR)
    (files : list FileChange) (apiReviews : list Collector.ApiReview)
    (comments : list Collector.ConversationComment) (commits : list Commit) :
  firstResponseAt (Collector.processPR pr files apiReviews comments commits)
  = Spec.earliest
      (Spec.qualifyingTimestamps (Collector.pr_author pr) apiReviews comments).
Proof.
  unfold Collector.processPR.
  pose proof (allResponseTimestamps_spec (Collector.pr_author pr) apiReviews comments)
    as Hall. cbn zeta in Hall.
  destruct (fold_left _ apiReviews _) as [allResponseTimestamps processedReviews].
  cbn [fst] in Hall. cbn [firstResponseAt].
  rewrite <- (head_sortByDate_earliest allResponseTimestamps) by exact Hall.
  destruct allResponseTimestamps; reflexivity.
Qed.

(** X13.  The PR's firstResponseAt is never later than the first activity of
    a reviewer other than the author. *)
Theorem first_response_not_after_reviewer_activity (pr : Collector.MergedPR)
    (files : list FileChange) (apiReviews : list Collector.ApiReview)
    (comments : list Collector.ConversationComment) (commits : list Commit)
    (enriched : Review) (a : Z) :
  let detail := Collector.processPR pr files apiReviews comments commits in
  In enriched (reviews detail) ->
  reviewer enriched <> Collector.pr_author pr ->
  firstActivityAt enriched = Some a ->
  exists r, firstResponseAt detail = Some r /\ r <= a.
Proof.
  cbn zeta. intros Hin Hother Hfirst.
  apply In_processPR_reviews in Hin as (api & Hapi & Hin).
  pose proof (enrichedReviewOf_fields _ api enriched Hin) as (Hwho & _).
  rewrite (firstActivityAt_earliest comments api enriched Hin) in Hfirst.
  pose proof (earliest_spec (Spec.activityTimestamps comments api)) as Hact.
  rewrite Hfirst in Hact. destruct Hact as [Hina _].
  assert (Hq : In a (Spec.qualifyingTimestamps (Collector.pr_author pr)
                       apiReviews comments)).
  { unfold Spec.qualifyingTimestamps. apply in_app_iff. right.
    apply in_flat_map. exists api. split; [exact Hapi |].
    rewrite bool_decide_eq_false_2 by congruence. exact Hina. }
  rewrite processPR_firstResponseAt.
  pose proof (earliest_spec (Spec.qualifyingTimestamps (Collector.pr_author pr)
                               apiReviews comments)) as Hmin.
  destruct (Spec.earliest (Spec.qualifyingTimestamps _ _ _)) as [r|].
  - exists r. split; [reflexivity |]. apply Hmin, Hq.
  - rewrite Hmin in Hq. destruct Hq.
Qed.

Lemma first_response_not_after_reviewer_activity_witness :
  exists r,
    firstResponseAt (Collector.processPR Samples.anaPr [] Samples.anaPrReviews
                       Samples.anaPrComments []) = Some r
    /\ r <= localTime 19723 13.
Proof.
  apply (first_response_not_after_reviewer_activity Samples.anaPr []
           Samples.anaPrReviews Samples.anaPrComments [] Samples.bobOnAnaPr).
  - vm_compute. left. reflexivity.
  - vm_compute. discriminate.
  - reflexivity.
Defined.



(** X15.  conversationCommentCount of an enriched review is the number of
    conversation comments that its reviewer wrote on the PR, the same on
    every review of that reviewer; inlineCommentCount is the number of inline
    comments of the review itself. *)
Theorem conversation_count_is_per_reviewer (pr : Collector.MergedPR)
    (files : list FileChange) (apiReviews : list Collector.ApiReview)
    (comments : list Collector.ConversationComment) (commits : list Commit)
    (enriched : Review) :
  In enriched (reviews (Collector.processPR pr files apiReviews comments commits)) ->
  conversationCommentCount enriched
  = lengthZ (List.filter (fun c => Spec.commentBy c (reviewer enriched)) comments)
  /\ exists api,
       In api apiReviews
       /\ reviewer enriched = Collector.ar_login api
       /\ inlineCommentCount enriched = lengthZ (Collector.ar_inlineComments api).
Proof.
  intros Hin. apply In_processPR_reviews in Hin as (api & Hapi & Hin).
  apply enrichedReviewOf_fields in Hin as (Hwho & _ & _ & Hinl & Hconv & _).
  split.
  - rewrite Hconv, userConversationCommentTimestamps_get, Hwho.
    unfold Spec.conversationTimestampsOf, lengthZ. rewrite length_map. reflexivity.
  - exists api. repeat split; assumption.
Qed.

Lemma conversation_count_is_per_reviewer_witness :
  conversationCommentCount Samples.bobOnAnaPr
  = lengthZ (List.filter (fun c => Spec.commentBy c (reviewer Samples.bobOnAnaPr))
                         Samples.anaPrComments).
Proof.
  apply (conversation_count_is_per_reviewer Samples.anaPr [] Samples.anaPrReviews
           Samples.anaPrComments []).
  vm_compute. left. reflexivity.
Defined.


(** ** The stable sort and the insertion-ordered Map *)

Lemma insertSorted_Permutation {A} (le : A -> A -> bool) (x : A) (l : list A) :
  Permutation (JS.insertSorted le x l) (x :: l).
Proof.
  induction l as [|y l IH]; cbn; [reflexivity |].
  destruct (le x y); [reflexivity |].
  rewrite IH. apply perm_swap.
Qed.

Lemma sort_Permutation {A} (le : A -> A -> bool) (l : list A) :
  Permutation (JS.sort le l) l.
Proof.
  induction l as [|x l IH]; cbn; [reflexivity |].
  fold (JS.sort le l). rewrite insertSorted_Permutation, IH. reflexivity.
Qed.

Section SortedResult.
Context {A : Type} (le : A -> A -> bool).
Hypothesis le_total : forall x y, le x y = false -> le y x = true.
Hypothesis le_trans : forall x y z, le x y = true -> le y z = true -> le x z = true.

Lemma insertSorted_Sorted (x : A) (l : list A) :
  Sorted (fun a b => le a b = true) l ->
  Sorted (fun a b => le a b = true) (JS.insertSorted le x l).
Proof.
  induction l as [|y l IH]; intros Hs; cbn.
  - repeat constructor.
  - destruct (le x y) eqn:Hxy.
    + constructor; [exact Hs | constructor; exact Hxy].
    + apply Sorted_inv in Hs as [Hs Hhd]. constructor; [apply IH, Hs |].
      destruct l as [|z l]; cbn.
      * constructor. apply le_total, Hxy.
      * destruct (le x z); constructor.
        -- apply le_total, Hxy.
        -- apply HdRel_inv in Hhd. exact Hhd.
Qed.

Lemma sort_StronglySorted (l : list A) :
  StronglySorted (fun a b => le a b = true) (JS.sort le l).
Proof.
  apply Sorted_StronglySorted.
  - intros x y z. apply le_trans.
  - induction l as [|x l IH]; cbn; [constructor |].
    apply insertSorted_Sorted, IH.
Qed.
End SortedResult.

Lemma StronglySorted_weaken {A} (R S : A -> A -> Prop) (l : list A) :
  (forall a b, R a b -> S a b) -> StronglySorted R l -> StronglySorted S l.
Proof.
  intros HRS. induction 1 as [|x l Hs IH Hall]; constructor; [exact IH |].
  rewrite List.Forall_forall in *. intros y Hy. apply HRS, Hall, Hy.
Qed.

Lemma sort_descendingBy {A} (key : A -> Z) (l : list A) :
  descendingBy key (JS.sort (fun a b => key b <=? key a) l).
Proof.
  unfold descendingBy.
  eapply StronglySorted_weaken;
    [| apply (sort_StronglySorted (fun a b => key b <=? key a))].
  - intros a b Hab. apply Z.leb_le. exact Hab.
  - intros x y Hxy. apply Z.leb_gt in Hxy. apply Z.leb_le. lia.
  - intros x y z Hxy Hyz. apply Z.leb_le in Hxy, Hyz. apply Z.leb_le. lia.
Qed.

Lemma sumOver_nil {A} (f : A -> Z) : Spec.sumOver f [] = 0.
Proof. reflexivity. Qed.

Lemma sumOver_cons {A} (f : A -> Z) (x : A) (l : list A) :
  Spec.sumOver f (x :: l) = f x + Spec.sumOver f l.
Proof. reflexivity. Qed.

Lemma sumOver_app {A} (f : A -> Z) (l1 l2 : list A) :
  Spec.sumOver f (l1 ++ l2) = Spec.sumOver f l1 + Spec.sumOver f l2.
Proof.
  unfold Spec.sumOver. induction l1 as [|x l1 IH]; cbn; [reflexivity |].
  rewrite IH. ring.
Qed.

Lemma sumOver_Permutation {A} (f : A -> Z) (l1 l2 : list A) :
  Permutation l1 l2 -> Spec.sumOver f l1 = Spec.sumOver f l2.
Proof.
  unfold Spec.sumOver.
  induction 1 as [|x l1 l2 _ IH|x y l|l1 l2 l3 _ IH1 _ IH2]; cbn;
    [reflexivity | rewrite IH; reflexivity | ring | congruence].
Qed.

Lemma sumOver_map {A B} (f : B -> Z) (g : A -> B) (l : list A) :
  Spec.sumOver f (map g l) = Spec.sumOver (fun x => f (g x)) l.
Proof.
  unfold Spec.sumOver. induction l as [|x l IH]; cbn; [reflexivity |].
  rewrite IH. reflexivity.
Qed.

Lemma sumZ_sumOver (l : list Z) : JS.sumZ l = Spec.sumOver (fun x => x) l.
Proof.
  unfold JS.sumZ.
  assert (Hgen : forall acc, fold_left Z.add l acc = acc + Spec.sumOver (fun x => x) l).
  { induction l as [|x l IH]; intros acc; cbn; [unfold Spec.sumOver; cbn; lia |].
    rewrite IH. unfold Spec.sumOver. cbn. lia. }
  rewrite Hgen. lia.
Qed.

(** Keys and values of the insertion-ordered Map. *)
Lemma Map_set_keys {V} (m : JS.Map V) (k : string) (v : V) :
  map fst (JS.Map_set m k v)
  = if JS.Map_has m k then map fst m else map fst m ++ [k].
Proof.
  unfold JS.Map_has. induction m as [|[k0 v0] m IH]; cbn; [reflexivity |].
  destruct (String.eqb k0 k); cbn; [reflexivity |].
  rewrite IH. destruct (JS.Map_get m k); reflexivity.
Qed.

Lemma Map_has_In {V} (m : JS.Map V) (k : string) :
  JS.Map_has m k = true <-> In k (map fst m).
Proof.
  unfold JS.Map_has. induction m as [|[k0 v0] m IH]; cbn.
  - split; [discriminate | intros []].
  - destruct (String.eqb_spec k0 k) as [->|Hne].
    + split; [intros _; left; reflexivity | reflexivity].
    + rewrite IH. split; [intros H; right; exact H | intros [H|H]; [congruence | exact H]].
Qed.

Lemma Map_set_set_new {V} (m : JS.Map V) (k : string) (v w : V) :
  JS.Map_get m k = None ->
  JS.Map_set (JS.Map_set m k v) k w = JS.Map_set m k w.
Proof.
  induction m as [|[k0 v0] m IH]; cbn; intros Hget.
  - rewrite String.eqb_refl. reflexivity.
  - destruct (String.eqb k0 k) eqn:Hk; [discriminate |]. cbn.
    rewrite Hk, IH by exact Hget. reflexivity.
Qed.

(** Replacing the value of a key changes a sum over the values by the
    difference; a new key adds its value. *)
Lemma Map_set_sum {V} (f : V -> Z) (m : JS.Map V) (k : string) (v : V) :
  Spec.sumOver (fun e => f e.2) (JS.Map_set m k v)
  = Spec.sumOver (fun e => f e.2) m
    - match JS.Map_get m k with Some old => f old | None => 0 end
    + f v.
Proof.
  unfold Spec.sumOver. induction m as [|[k0 v0] m IH]; cbn; [lia |].
  destruct (String.eqb k0 k); cbn; [lia |]. rewrite IH. lia.
Qed.


(** ** Reviewer summary: rows, order and totals *)

(** The two nested loops of calculateReviewerSummary, as one pass over the
    (PR, review) pairs of the usable records. *)
Lemma collectReviewerStats_pairs (prDetails : list PRDetail) :
  Collector.collectReviewerStats prDetails
  = fold_left (fun m (p : PRDetail * Review) => Collector.reviewStep p.1 m p.2)
              (reviewedPairs prDetails) [].
Proof.
  unfold Collector.collectReviewerStats, reviewedPairs.
  rewrite reviewerPrStep_valid.
  assert (Hvalid : Forall (fun p => JS.truthyOptString (error p) = false)
                          (validPRs prDetails)).
  { unfold validPRs. apply List.Forall_forall. intros p Hp.
    apply filter_In in Hp as [_ Hp]. apply negb_true_iff in Hp. exact Hp. }
  generalize (@nil (string * Collector.ReviewerStats)).
  induction (validPRs prDetails) as [|pr prs IH]; intros m; [reflexivity |].
  apply Forall_cons in Hvalid as [Hpr Hvalid].
  cbn [fold_left flat_map]. rewrite fold_left_app, <- (IH Hvalid).
  f_equal. unfold Collector.reviewerPrStep. rewrite Hpr.
  generalize m. induction (reviews pr) as [|rv rvs IHr]; intros m0; [reflexivity |].
  cbn [fold_left map]. apply IHr.
Qed.

Lemma reviewsOfValid_pairs (prDetails : list PRDetail) :
  reviewsOfValid prDetails = map snd (reviewedPairs prDetails).
Proof.
  unfold reviewsOfValid, reviewedPairs.
  induction (validPRs prDetails) as [|pr prs IH]; [reflexivity |].
  cbn [flat_map]. rewrite map_app, <- IH. f_equal.
  induction (reviews pr) as [|rv rvs IHr]; [reflexivity |].
  cbn. rewrite <- IHr. reflexivity.
Qed.

(** One review: the reviewer's entry is created if needed, then replaced by
    its tally. *)
Lemma reviewStep_cases (pr : PRDetail) (m : JS.Map Collector.ReviewerStats)
    (rv : Review) :
  Collector.reviewStep pr m rv
  = JS.Map_set m (reviewer rv)
      (Collector.tallyReview pr rv
         (default (Collector.newReviewerStats (reviewer rv))
                  (JS.Map_get m (reviewer rv)))).
Proof.
  unfold Collector.reviewStep, JS.Map_has. cbv zeta.
  destruct (JS.Map_get m (reviewer rv)) as [old|] eqn:Hget.
  - rewrite Hget. reflexivity.
  - rewrite Map_get_set, String.eqb_refl.
    apply Map_set_set_new, Hget.
Qed.

Lemma reviewStep_keys (pr : PRDetail) (m : JS.Map Collector.ReviewerStats)
    (rv : Review) :
  map fst (Collector.reviewStep pr m rv)
  = if JS.Map_has m (reviewer rv) then map fst m else map fst m ++ [reviewer rv].
Proof. rewrite reviewStep_cases. apply Map_set_keys. Qed.

Lemma reviewer_keys (pairs : list (PRDetail * Review))
    (m : JS.Map Collector.ReviewerStats) :
  NoDup (map fst m) ->
  let m' := fold_left (fun m (p : PRDetail * Review) =>
                         Collector.reviewStep p.1 m p.2) pairs m in
  NoDup (map fst m')
  /\ forall who, In who (map fst m')
                 <-> In who (map fst m) \/ In who (map (fun p => reviewer p.2) pairs).
Proof.
  revert m. induction pairs as [|[pr rv] pairs IH]; intros m Hnd; cbn zeta;
    cbn [fold_left map].
  - split; [exact Hnd |]. intros who. cbn [map In]. tauto.
  - cbn [fst snd].
    assert (Hnd1 : NoDup (map fst (Collector.reviewStep pr m rv))).
    { rewrite reviewStep_keys. destruct (JS.Map_has m (reviewer rv)) eqn:Hhas;
        [exact Hnd |].
      apply NoDup_app. split; [exact Hnd |]. split; [| apply NoDup_singleton].
      intros k Hk Hk'. apply list_elem_of_In in Hk. apply list_elem_of_singleton in Hk'.
      subst k. apply Map_has_In in Hk. congruence. }
    specialize (IH _ Hnd1). cbn zeta in IH. destruct IH as [Hnd' Hin'].
    split; [exact Hnd' |]. intros who. rewrite Hin', reviewStep_keys.
    cbn [map In fst snd].
    destruct (JS.Map_has m (reviewer rv)) eqn:Hhas.
    + apply Map_has_In in Hhas. split; [tauto |].
      intros [H|[H|H]]; [tauto | subst who; tauto | tauto].
    + rewrite in_app_iff. cbn [In]. tauto.
Qed.

Lemma reviewerRow_reviewer (who : string) (stats : Collector.ReviewerStats) :
  rs_reviewer (Collector.reviewerRow who stats) = who.
Proof. reflexivity. Qed.

Lemma reviewer_rows_Permutation (prDetails : list PRDetail) :
  Permutation (Collector.calculateReviewerSummary prDetails)
    (map (fun e : string * Collector.ReviewerStats => Collector.reviewerRow e.1 e.2)
         (Collector.collectReviewerStats prDetails)).
Proof. unfold Collector.calculateReviewerSummary. apply sort_Permutation. Qed.

(** X16.  The reviewer summary has exactly one row for each reviewer who has
    a review on a usable record, and the rows are in descending order of
    totalReviews. *)
Theorem reviewer_summary_rows (prDetails : list PRDetail) :
  let rows := Collector.calculateReviewerSummary prDetails in
  descendingBy rs_totalReviews rows
  /\ NoDup (map rs_reviewer rows)
  /\ forall who, In who (map rs_reviewer rows)
                 <-> exists rv, In rv (reviewsOfValid prDetails) /\ reviewer rv = who.
Proof.
  cbn zeta.
  split; [unfold Collector.calculateReviewerSummary; apply sort_descendingBy |].
  pose proof (reviewer_rows_Permutation prDetails) as Hperm.
  apply (Permutation_map rs_reviewer) in Hperm.
  rewrite map_map in Hperm. cbn [rs_reviewer Collector.reviewerRow] in Hperm.
  change (map (fun x : string * Collector.ReviewerStats => x.1))
    with (@map (string * Collector.ReviewerStats) _ fst) in Hperm.
  pose proof (reviewer_keys (reviewedPairs prDetails) [] (NoDup_nil_2 (A := string))) as Hkeys.
  cbn zeta in Hkeys. rewrite <- collectReviewerStats_pairs in Hkeys.
  destruct Hkeys as [Hnd Hin].
  split.
  - rewrite Hperm. exact Hnd.
  - intros who. rewrite <- !list_elem_of_In, Hperm, list_elem_of_In, Hin.
    rewrite reviewsOfValid_pairs. cbn [map]. split.
    + intros [[]|Hw]. apply in_map_iff in Hw as ([pr rv] & <- & Hp).
      exists rv. split; [| reflexivity]. apply in_map_iff. exists (pr, rv).
      split; [reflexivity | exact Hp].
    + intros (rv & Hrv & <-). right. apply in_map_iff in Hrv as ([pr rv'] & Hs & Hp).
      cbn in Hs. subst rv'. apply in_map_iff. exists (pr, rv). split; [reflexivity | exact Hp].
Qed.

(** A counter that every tally increases by an amount that depends on the
    review alone adds up, over all reviewers, to the sum of these amounts. *)
Lemma reviewer_counter_total (c : Collector.ReviewerStats -> Z)
    (delta : PRDetail -> Review -> Z) :
  (forall who, c (Collector.newReviewerStats who) = 0) ->
  (forall pr rv st, c (Collector.tallyReview pr rv st) = c st + delta pr rv) ->
  forall pairs m,
    Spec.sumOver (fun e : string * Collector.ReviewerStats => c e.2)
      (fold_left (fun m (p : PRDetail * Review) => Collector.reviewStep p.1 m p.2)
                 pairs m)
    = Spec.sumOver (fun e : string * Collector.ReviewerStats => c e.2) m
      + Spec.sumOver (fun p : PRDetail * Review => delta p.1 p.2) pairs.
Proof.
  intros Hnew Htally. induction pairs as [|[pr rv] pairs IH]; intros m;
    cbn [fold_left].
  - rewrite sumOver_nil. lia.
  - rewrite IH, sumOver_cons. cbn [fst snd].
    rewrite reviewStep_cases, Map_set_sum, Htally.
    destruct (JS.Map_get m (reviewer rv)); cbn [default id]; [lia |].
    rewrite Hnew. lia.
Qed.

Lemma countReviews_pairs (g : Collector.ReviewTotals -> Z) (delta : Review -> Z)
    (prs : list PRDetail) :
  g {| Collector.totalReviews := 0; Collector.totalApprovals := 0;
       Collector.totalNoCommentApprovals := 0;
       Collector.totalInlineComments := 0 |} = 0 ->
  (forall t rv, g (Collector.countReview t rv) = g t + delta rv) ->
  g (Collector.countReviews prs) = Spec.sumOver delta (flat_map reviews prs).
Proof.
  intros Hzero Hstep. unfold Collector.countReviews.
  assert (Hrs : forall rs t, g (fold_left Collector.countReview rs t)
                             = g t + Spec.sumOver delta rs).
  { induction rs as [|rv rs IH]; intros t; cbn [fold_left].
    - rewrite sumOver_nil. lia.
    - rewrite IH, Hstep, sumOver_cons. lia. }
  assert (Hprs : forall l t,
             g (fold_left (fun t pr => fold_left Collector.countReview (reviews pr) t)
                          l t)
             = g t + Spec.sumOver delta (flat_map reviews l)).
  { induction l as [|pr l IH]; intros t; cbn [fold_left flat_map].
    - rewrite sumOver_nil. lia.
    - rewrite IH, Hrs, sumOver_app. lia. }
  rewrite Hprs, Hzero. lia.
Qed.

Lemma reviewer_column_total (c : Collector.ReviewerStats -> Z)
    (column : ReviewerSummary -> Z) (delta : Review -> Z)
    (prDetails : list PRDetail) :
  (forall who st, column (Collector.reviewerRow who st) = c st) ->
  (forall who, c (Collector.newReviewerStats who) = 0) ->
  (forall pr rv st, c (Collector.tallyReview pr rv st) = c st + delta rv) ->
  JS.sumZ (map column (Collector.calculateReviewerSummary prDetails))
  = Spec.sumOver delta (reviewsOfValid prDetails).
Proof.
  intros Hcol Hnew Htally.
  rewrite sumZ_sumOver, sumOver_map.
  rewrite (sumOver_Permutation _ _ _ (reviewer_rows_Permutation prDetails)).
  rewrite sumOver_map, collectReviewerStats_pairs.
  rewrite (sumOver_ext _ (fun e : string * Collector.ReviewerStats => c e.2))
    by (intros [who st]; apply Hcol).
  rewrite (reviewer_counter_total c (fun _ rv => delta rv) Hnew Htally).
  rewrite reviewsOfValid_pairs, sumOver_map, sumOver_nil. reflexivity.
Qed.

(** X17.  The counters of the reviewer rows add up to the counters of the
    team summary: the reviews, approvals, approvals without comment and
    inline comments of the usable records are each counted once. *)
Theorem reviewer_rows_add_up_to_team_totals (prDetails : list PRDetail) :
  let rows := Collector.calculateReviewerSummary prDetails in
  let totals := Collector.countReviews (validPRs prDetails) in
  JS.sumZ (map rs_totalReviews rows) = Collector.totalReviews totals
  /\ JS.sumZ (map rs_approvals rows) = Collector.totalApprovals totals
  /\ JS.sumZ (map rs_noCommentApprovals rows)
     = Collector.totalNoCommentApprovals totals
  /\ JS.sumZ (map rs_totalInlineComments rows)
     = Collector.totalInlineComments totals
  /\ forall authorSummary reviewerSummary,
       tr_totalReviews
         (reviewed (Collector.calculateTeamSummary authorSummary reviewerSummary
                      prDetails))
       = JS.sumZ (map rs_totalReviews rows).
Proof.
  cbn zeta.
  assert (H1 : JS.sumZ (map rs_totalReviews
                          (Collector.calculateReviewerSummary prDetails))
               = Collector.totalReviews (Collector.countReviews (validPRs prDetails))).
  { rewrite (reviewer_column_total Collector.st_totalReviews rs_totalReviews
               (fun _ => 1)); try reflexivity.
    symmetry. apply countReviews_pairs; reflexivity. }
  split; [exact H1 |]. split; [| split; [| split]].
  - rewrite (reviewer_column_total Collector.st_approvals rs_approvals
               (fun rv => if bool_decide (state rv = APPROVED) then 1 else 0));
      try reflexivity.
    + symmetry. apply countReviews_pairs; [reflexivity |].
      intros t rv. cbn. destruct (bool_decide (state rv = APPROVED)); lia.
    + intros pr rv st. cbn. destruct (bool_decide (state rv = APPROVED)); lia.
  - rewrite (reviewer_column_total Collector.st_noCommentApprovals
               rs_noCommentApprovals
               (fun rv => if bool_decide (state rv = APPROVED) && negb (hasComments rv)
                          then 1 else 0)); try reflexivity.
    + symmetry. apply countReviews_pairs; [reflexivity |].
      intros t rv. cbn.
      destruct (bool_decide (state rv = APPROVED) && negb (hasComments rv)); lia.
    + intros pr rv st. cbn.
      destruct (bool_decide (state rv = APPROVED) && negb (hasComments rv)); lia.
  - rewrite (reviewer_column_total Collector.st_totalInlineComments
               rs_totalInlineComments inlineCommentCount); try reflexivity.
    symmetry. apply countReviews_pairs; reflexivity.
  - intros authorSummary reviewerSummary. rewrite H1. reflexivity.
Qed.

Lemma countsTotal_insert (obj : gmap string Z) (k : string) (v : Z) :
  countsTotal (<[k := v]> obj) = countsTotal obj - default 0 (obj !! k) + v.
Proof.
  unfold countsTotal. destruct (obj !! k) as [old|] eqn:Hlook; cbn [default id].
  - rewrite <- (sumOver_Permutation snd _ _ (map_to_list_delete obj k old Hlook)).
    rewrite <- insert_delete_eq.
    rewrite (sumOver_Permutation snd _ _
               (map_to_list_insert (delete k obj) k v (lookup_delete_eq obj k))).
    rewrite !sumOver_cons. cbn [snd]. lia.
  - rewrite (sumOver_Permutation snd _ _ (map_to_list_insert obj k v Hlook)).
    rewrite sumOver_cons. cbn [snd]. lia.
Qed.

Lemma countsTotal_bumpCount (obj : gmap string Z) (k : string) :
  countsTotal (bumpCount obj k) = countsTotal obj + 1.
Proof.
  unfold bumpCount. rewrite countsTotal_insert.
  destruct (obj !! k) as [old|]; cbn [JS.orZ default id]; [| lia].
  unfold JS.truthyZ. destruct (Z.eqb_spec old 0); cbn [negb]; lia.
Qed.

Lemma newReviewerStats_consistent (who : string) :
  reviewerStatsAreConsistent false (Collector.newReviewerStats who).
Proof.
  unfold reviewerStatsAreConsistent. cbn.
  rewrite size_empty. unfold countsTotal. rewrite map_to_list_empty.
  repeat split; try lia; reflexivity.
Qed.

Lemma tallyReview_consistent (visited : bool) (pr : PRDetail) (rv : Review)
    (stats : Collector.ReviewerStats) :
  reviewerStatsAreConsistent visited stats ->
  reviewerStatsAreConsistent true (Collector.tallyReview pr rv stats).
Proof.
  unfold reviewerStatsAreConsistent.
  intros (Ha & Hc & Hm & Hsum & Hnc & Hprs & Hrepo).
  unfold Collector.tallyReview. cbn.
  assert (Hsize : forall s : gset Z, number pr ∉ s ->
             Z.of_nat (size (s ∪ {[number pr]})) = Z.of_nat (size s) + 1).
  { intros s Hs. rewrite size_union, size_singleton by set_solver. lia. }
  assert (Hmember : number pr ∈ Collector.st_prsReviewed stats ->
             1 <= Z.of_nat (size (Collector.st_prsReviewed stats))).
  { intros Hin.
    assert (size (Collector.st_prsReviewed stats) <> 0%nat)
      by (rewrite size_empty_iff; set_solver).
    lia. }
  destruct (decide (number pr ∈ Collector.st_prsReviewed stats)) as [Hseen|Hseen].
  - rewrite !(bool_decide_eq_true_2 _ Hseen). cbn [negb].
    specialize (Hmember Hseen).
    destruct (state rv), (hasComments rv), visited;
      repeat case_bool_decide; try congruence; cbn; repeat split; lia.
  - rewrite !(bool_decide_eq_false_2 _ Hseen). cbn [negb].
    rewrite (Hsize _ Hseen), countsTotal_bumpCount.
    destruct (state rv), (hasComments rv), visited;
      repeat case_bool_decide; try congruence; cbn; repeat split; lia.
Qed.

Lemma reviewer_stats_consistent (prDetails : list PRDetail) :
  Forall (fun e => reviewerStatsAreConsistent true e.2)
         (Collector.collectReviewerStats prDetails).
Proof.
  rewrite collectReviewerStats_pairs.
  assert (Hgen : forall pairs m,
             Forall (fun e => reviewerStatsAreConsistent true e.2) m ->
             Forall (fun e => reviewerStatsAreConsistent true e.2)
                    (fold_left (fun m (p : PRDetail * Review) =>
                                  Collector.reviewStep p.1 m p.2) pairs m)).
  { induction pairs as [|[pr rv] pairs IH]; intros m Hm; cbn [fold_left];
      [exact Hm |].
    apply IH. cbn [fst snd]. rewrite reviewStep_cases.
    apply Map_set_Forall; [exact Hm |].
    destruct (JS.Map_get m (reviewer rv)) as [old|] eqn:Hget; cbn [default id].
    - apply (tallyReview_consistent true).
      exact (Map_get_Forall (reviewerStatsAreConsistent true) m _ _ Hm Hget).
    - apply (tallyReview_consistent false), newReviewerStats_consistent. }
  apply Hgen. constructor.
Qed.

Lemma reviewerRow_consistent (who : string) (stats : Collector.ReviewerStats) :
  reviewerStatsAreConsistent true stats ->
  reviewerRowIsConsistent (Collector.reviewerRow who stats).
Proof.
  unfold reviewerStatsAreConsistent, reviewerRowIsConsistent.
  intros (Ha & Hc & Hm & Hsum & Hnc & Hprs & Hrepo).
  cbn [Collector.reviewerRow rs_approvals rs_changesRequested
       rs_commentOnlyReviews rs_totalReviews rs_noCommentApprovals
       rs_prsReviewedCount rs_noCommentApprovalPct rs_prsByRepo].
  assert (Hpct : (0 <= (if 0 <? Collector.st_approvals stats
                        then JS.toFixed 1
                               (inject_Z (Collector.st_noCommentApprovals stats)
                                / inject_Z (Collector.st_approvals stats) * 100)
                        else 0) <= 100)%Q).
  { destruct (Z.ltb_spec 0 (Collector.st_approvals stats));
      [| split; discriminate].
    apply (toFixed_between 1 100).
    assert (Hpos : (0 < inject_Z (Collector.st_approvals stats))%Q)
      by (apply inject_Z_pos; lia).
    assert (Hn0 : (0 <= inject_Z (Collector.st_noCommentApprovals stats))%Q)
      by (apply inject_Z_nonneg; lia).
    assert (Hle : (inject_Z (Collector.st_noCommentApprovals stats)
                   <= inject_Z (Collector.st_approvals stats))%Q)
      by (rewrite <- Zle_Qle; lia).
    assert (Hratio : (0 <= inject_Z (Collector.st_noCommentApprovals stats)
                           / inject_Z (Collector.st_approvals stats) <= 1)%Q).
    { split.
      - apply Qle_shift_div_l; [exact Hpos |]. rewrite Qmult_0_l. exact Hn0.
      - apply Qle_shift_div_r; [exact Hpos |]. rewrite Qmult_1_l. exact Hle. }
    change (inject_Z 100) with 100%Q. lra. }
  cbv iota in Hprs.
  repeat split; try lia; try exact Hrepo; apply Hpct.
Qed.

(** X18.  Every row of the reviewer summary is consistent: the three verdict
    counters are within totalReviews, approvals without comment are within
    approvals, the reviewer has between 1 and totalReviews reviewed PRs, the
    no-comment percentage lies between 0 and 100, and the per-repository
    columns add up to prsReviewedCount. *)
Theorem reviewer_rows_are_consistent (prDetails : list PRDetail) :
  Forall reviewerRowIsConsistent (Collector.calculateReviewerSummary prDetails).
Proof.
  rewrite (reviewer_rows_Permutation prDetails).
  apply Forall_fmap. eapply Forall_impl; [apply reviewer_stats_consistent |].
  intros [who stats] Hstats. apply reviewerRow_consistent, Hstats.
Qed.


(** ** Median, percentile and minimum of the response times *)

Lemma sortNumbers_sorted (arr : list Q) :
  StronglySorted Qle (sortNumbers arr).
Proof.
  unfold sortNumbers.
  eapply StronglySorted_weaken; [| apply (sort_StronglySorted Qle_bool)].
  - intros a b Hab. apply Qle_bool_iff. exact Hab.
  - intros x y Hxy. apply Qle_bool_iff.
    destruct (Qlt_le_dec y x) as [Hlt|Hle]; [apply Qlt_le_weak, Hlt |].
    apply Qle_bool_iff in Hle. congruence.
  - intros x y z Hxy Hyz. apply Qle_bool_iff in Hxy, Hyz. apply Qle_bool_iff.
    eapply Qle_trans; eassumption.
Qed.

Lemma StronglySorted_lookup (l : list Q) (i j : nat) (a b : Q) :
  StronglySorted Qle l -> (i <= j)%nat ->
  l !! i = Some a -> l !! j = Some b -> (a <= b)%Q.
Proof.
  intros Hs. revert i j. induction Hs as [|x l Hs IH Hall]; intros i j Hij Ha Hb.
  - discriminate.
  - destruct i as [|i], j as [|j]; cbn in Ha, Hb.
    + injection Ha as <-. injection Hb as <-. apply Qle_refl.
    + injection Ha as <-. rewrite List.Forall_forall in Hall. apply Hall.
      apply list_elem_of_In. eapply list_elem_of_lookup_2. exact Hb.
    + lia.
    + apply (IH i j); [lia | assumption | assumption].
Qed.

Lemma sortNumbers_length (arr : list Q) : length (sortNumbers arr) = length arr.
Proof. apply Permutation_length, sort_Permutation. Qed.

Lemma sortNumbers_In (arr : list Q) (i : nat) (a : Q) :
  sortNumbers arr !! i = Some a -> In a arr.
Proof.
  intros Hi. apply list_elem_of_lookup_2 in Hi. apply list_elem_of_In in Hi.
  apply (In_sort Qle_bool). exact Hi.
Qed.

Lemma Math_min_le (x : Q) (xs : list Q) :
  (JS.Math_min x xs <= x)%Q /\ forall y, In y xs -> (JS.Math_min x xs <= y)%Q.
Proof.
  unfold JS.Math_min. revert x. induction xs as [|z xs IH]; intros x; cbn [fold_left].
  - split; [apply Qle_refl | intros y []].
  - destruct (IH (Qmin x z)) as [Hle Hall]. split.
    + eapply Qle_trans; [exact Hle | apply Q.le_min_l].
    + intros y [<-|Hy]; [| apply Hall, Hy].
      eapply Qle_trans; [exact Hle | apply Q.le_min_r].
Qed.

Lemma Math_min_glb (lo x : Q) (xs : list Q) :
  (lo <= x)%Q -> (forall y, In y xs -> (lo <= y)%Q) ->
  (lo <= JS.Math_min x xs)%Q.
Proof.
  unfold JS.Math_min. revert x. induction xs as [|z xs IH]; intros x Hx Hall;
    cbn [fold_left]; [exact Hx |].
  apply IH.
  - apply Q.min_glb; [exact Hx | apply Hall; left; reflexivity].
  - intros y Hy. apply Hall. right. exact Hy.
Qed.

Lemma percentile_index (n : Z) :
  1 <= n -> n / 2 <= Qfloor (inject_Z n * (9 # 10)) < n.
Proof.
  intros Hn. unfold Qfloor, inject_Z, Qmult; cbn [Qnum Qden].
  change (Z.pos (1 * 10)) with 10.
  split.
  - apply Z.div_le_lower_bound; [lia |].
    pose proof (Z.mul_div_le n 2 ltac:(lia)).
    pose proof (Z.mod_pos_bound (n * 9) 10 ltac:(lia)).
    pose proof (Z.div_mod (n * 9) 10 ltac:(lia)). lia.
  - apply Z.div_lt_upper_bound; lia.
Qed.

Lemma order_statistics (x : Q) (xs : list Q) :
  exists med p90,
    median (x :: xs) = Some med
    /\ percentile (x :: xs) (9 # 10) = Some p90
    /\ In med (x :: xs) /\ In p90 (x :: xs)
    /\ (JS.Math_min x xs <= med)%Q /\ (med <= p90)%Q.
Proof.
  set (arr := x :: xs).
  assert (Hn : 1 <= lengthZ arr) by (unfold lengthZ; cbn; lia).
  pose proof (percentile_index (lengthZ arr) Hn) as [Hlo Hhi].
  assert (Hlen : lengthZ (sortNumbers arr) = lengthZ arr)
    by (unfold lengthZ; rewrite sortNumbers_length; reflexivity).
  unfold median, percentile. rewrite (proj2 (Z.eqb_neq _ 0)) by lia. cbv zeta.
  rewrite Hlen.
  assert (Hmed : is_Some (sortNumbers arr !! Z.to_nat (lengthZ arr / 2))).
  { apply lookup_lt_is_Some. rewrite sortNumbers_length. unfold lengthZ in *.
    assert (0 <= Z.of_nat (length arr) / 2) by (apply Z.div_pos; lia). lia. }
  assert (Hp90 : is_Some (sortNumbers arr
                            !! Z.to_nat (Qfloor (inject_Z (lengthZ arr) * (9 # 10))))).
  { apply lookup_lt_is_Some. rewrite sortNumbers_length. unfold lengthZ in *.
    assert (0 <= Z.of_nat (length arr) / 2) by (apply Z.div_pos; lia). lia. }
  destruct Hmed as [med Hmed], Hp90 as [p90 Hp90]. exists med, p90.
  pose proof (sortNumbers_In arr _ _ Hmed) as Hmin.
  pose proof (sortNumbers_In arr _ _ Hp90) as Hpin.
  repeat split; try assumption.
  - destruct (Math_min_le x xs) as [Hx Hall].
    destruct Hmin as [<-|Hmin]; [exact Hx | apply Hall, Hmin].
  - apply (StronglySorted_lookup (sortNumbers arr)
             (Z.to_nat (lengthZ arr / 2))
             (Z.to_nat (Qfloor (inject_Z (lengthZ arr) * (9 # 10)))));
      [apply sortNumbers_sorted | | exact Hmed | exact Hp90].
    assert (0 <= lengthZ arr / 2) by (apply Z.div_pos; lia). lia.
Qed.

(** X19.  For a non-empty array the median and the 90th percentile are
    always defined (the index floor(n * 0.9) stays inside the array), both
    are elements of the array, and minimum <= median <= percentile. *)
Theorem response_statistics_are_ordered (x : Q) (xs : list Q) :
  exists med p90,
    median (x :: xs) = Some med
    /\ percentile (x :: xs) (9 # 10) = Some p90
    /\ In med (x :: xs) /\ In p90 (x :: xs)
    /\ (JS.Math_min x xs <= med)%Q /\ (med <= p90)%Q.
Proof. exact (order_statistics x xs). Qed.

Lemma toFixed_nonneg_monotone (digits : nat) (x y : Q) :
  (0 <= x)%Q -> (x <= y)%Q ->
  (0 <= JS.toFixed digits x)%Q /\ (JS.toFixed digits x <= JS.toFixed digits y)%Q.
Proof.
  intros Hx Hxy. assert (Hy : (0 <= y)%Q) by lra.
  unfold JS.toFixed. cbv zeta.
  rewrite (proj2 (Qle_bool_iff 0 x) Hx), (proj2 (Qle_bool_iff 0 y) Hy).
  assert (Hpow : 0 < JS.pow10 digits) by (unfold JS.pow10; lia).
  assert (Hscale : (0 < inject_Z (JS.pow10 digits))%Q)
    by (apply inject_Z_pos; exact Hpow).
  set (scale := inject_Z (JS.pow10 digits)) in *.
  assert (Hfloor_lo : 0 <= Qfloor (x * scale + (1 # 2))).
  { change 0 with (Qfloor 0). apply Qfloor_resp_le.
    assert (0 <= x * scale)%Q by (apply Qmult_le_0_compat; lra). lra. }
  assert (Hfloor : Qfloor (x * scale + (1 # 2)) <= Qfloor (y * scale + (1 # 2))).
  { apply Qfloor_resp_le. apply Qplus_le_l. apply Qmult_le_compat_r; lra. }
  split.
  - apply Qle_shift_div_l; [exact Hscale |]. rewrite Qmult_0_l.
    apply inject_Z_nonneg. exact Hfloor_lo.
  - apply Qle_shift_div_r; [exact Hscale |].
    unfold Qdiv. rewrite <- Qmult_assoc, (Qmult_comm (/ scale)), Qmult_inv_r, Qmult_1_r
      by lra.
    rewrite <- Zle_Qle. exact Hfloor.
Qed.

Lemma toFixed_nonneg (digits : nat) (x : Q) :
  (0 <= x)%Q -> (0 <= JS.toFixed digits x)%Q.
Proof. intros Hx. apply (toFixed_nonneg_monotone digits x x Hx), Qle_refl. Qed.

Lemma truthyQ_false (q : Q) : JS.truthyQ q = false -> (q == 0)%Q.
Proof.
  unfold JS.truthyQ. intros Hq. apply Qeq_bool_iff.
  destruct (Qeq_bool q 0); [reflexivity | discriminate].
Qed.

(** Any property of the accumulators that holds of a fresh one and is kept
    by tallying a review holds of every accumulator the loop builds. *)
Lemma reviewer_stats_invariant (P : Collector.ReviewerStats -> Prop) :
  (forall who, P (Collector.newReviewerStats who)) ->
  (forall pr rv stats, P stats -> P (Collector.tallyReview pr rv stats)) ->
  forall prDetails,
    Forall (fun e => P e.2) (Collector.collectReviewerStats prDetails).
Proof.
  intros Hnew Htally prDetails. rewrite collectReviewerStats_pairs.
  assert (Hgen : forall pairs m,
             Forall (fun e => P e.2) m ->
             Forall (fun e => P e.2)
                    (fold_left (fun m (p : PRDetail * Review) =>
                                  Collector.reviewStep p.1 m p.2) pairs m)).
  { induction pairs as [|[pr rv] pairs IH]; intros m Hm; cbn [fold_left];
      [exact Hm |].
    apply IH. cbn [fst snd]. rewrite reviewStep_cases.
    apply Map_set_Forall; [exact Hm |].
    destruct (JS.Map_get m (reviewer rv)) as [old|] eqn:Hget; cbn [default id].
    - apply Htally. exact (Map_get_Forall P m _ _ Hm Hget).
    - apply Htally, Hnew. }
  apply Hgen. constructor.
Qed.

Lemma responseTimes_nonneg (prDetails : list PRDetail) :
  Forall (fun e => Forall (fun t => (0 <= t)%Q) (Collector.st_responseTimes e.2))
         (Collector.collectReviewerStats prDetails).
Proof.
  apply (reviewer_stats_invariant
           (fun stats => Forall (fun t => (0 <= t)%Q)
                                (Collector.st_responseTimes stats))).
  - intros who. constructor.
  - intros pr rv stats Hstats. unfold Collector.tallyReview.
    cbn [Collector.st_responseTimes].
    destruct (firstActivityAt rv) as [firstActivity|]; [| exact Hstats].
    destruct (Qle_bool 0 _) eqn:Hle; [| exact Hstats].
    apply Forall_app. split; [exact Hstats |].
    constructor; [apply Qle_bool_iff, Hle | constructor].
Qed.

Lemma reviewerRow_response_columns (who : string)
    (stats : Collector.ReviewerStats) :
  Forall (fun t => (0 <= t)%Q) (Collector.st_responseTimes stats) ->
  responseColumnsAreOrdered (Collector.reviewerRow who stats).
Proof.
  intros Hpos. unfold responseColumnsAreOrdered.
  cbn [Collector.reviewerRow rs_medianResponseHours rs_p90ResponseHours
       rs_fastestResponseHours].
  destruct (Collector.st_responseTimes stats) as [|x xs] eqn:Htimes.
  { change (median []) with (@None Q).
    change (percentile [] (9 # 10)) with (@None Q).
    cbn [Collector.toFixedOrNull]. repeat split; intros; congruence. }
  destruct (order_statistics x xs)
    as (med & p90 & Hmed & Hp90 & Hmin & Hpin & Hfm & Hmp).
  rewrite Hmed, Hp90. rewrite List.Forall_forall in Hpos.
  assert (Hf0 : (0 <= JS.Math_min x xs)%Q).
  { apply Math_min_glb; [apply Hpos; left; reflexivity |].
    intros y Hy. apply Hpos. right. exact Hy. }
  assert (Hm0 : (0 <= med)%Q) by lra.
  assert (Hp0 : (0 <= p90)%Q) by lra.
  unfold Collector.toFixedOrNull.
  destruct (JS.truthyQ (JS.Math_min x xs)) eqn:Tf,
           (JS.truthyQ med) eqn:Tm, (JS.truthyQ p90) eqn:Tp;
    repeat split; intros; try congruence;
    repeat match goal with
           | H : Some _ = Some _ |- _ => injection H as <-
           | H : JS.truthyQ _ = false |- _ => apply truthyQ_false in H
           end;
    try (apply toFixed_nonneg_monotone; assumption);
    try (apply toFixed_nonneg; assumption);
    try (exfalso;
         repeat match goal with
                | H : JS.truthyQ ?q = true |- _ =>
                    assert (~ (q == 0)%Q)
                      by (intros Hz; apply truthyQ_zero in Hz; congruence);
                    clear H
                end; lra).
Qed.

(** X20.  In every row of the reviewer summary the response-time columns
    are ordered: a reported fastest response is not negative and not above
    a reported median, a reported median is not above a reported P90; and
    when the P90 column is null so is the median, when the median is null
    so is the fastest response. *)
Theorem reviewer_response_columns_are_ordered (prDetails : list PRDetail) :
  Forall responseColumnsAreOrdered (Collector.calculateReviewerSummary prDetails).
Proof.
  rewrite (reviewer_rows_Permutation prDetails).
  apply Forall_fmap. eapply Forall_impl; [apply responseTimes_nonneg |].
  intros [who stats] Hstats. apply reviewerRow_response_columns, Hstats.
Qed.


(** ** Author summary: rows, order and totals *)

Lemma validPRs_usable (prDetails : list PRDetail) :
  Forall (fun p => JS.truthyOptString (error p) = false) (validPRs prDetails).
Proof.
  unfold validPRs. apply List.Forall_forall. intros p Hp.
  apply filter_In in Hp as [_ Hp]. apply negb_true_iff in Hp. exact Hp.
Qed.

(** One usable PR: the author's entry is created if needed, then replaced
    by its tally. *)
Lemma authorPrStep_cases (m : JS.Map Collector.AuthorStats) (pr : PRDetail) :
  JS.truthyOptString (error pr) = false ->
  Collector.authorPrStep m pr
  = JS.Map_set m (author pr)
      (Collector.tallyPr pr
         (default (Collector.newAuthorStats (author pr))
                  (JS.Map_get m (author pr)))).
Proof.
  intros Hok. unfold Collector.authorPrStep, JS.Map_has. rewrite Hok. cbv zeta.
  destruct (JS.Map_get m (author pr)) as [old|] eqn:Hget.
  - rewrite Hget. reflexivity.
  - rewrite Map_get_set, String.eqb_refl.
    apply Map_set_set_new, Hget.
Qed.

Lemma author_keys (prs : list PRDetail) (m : JS.Map Collector.AuthorStats) :
  Forall (fun p => JS.truthyOptString (error p) = false) prs ->
  NoDup (map fst m) ->
  let m' := fold_left Collector.authorPrStep prs m in
  NoDup (map fst m')
  /\ forall who, In who (map fst m')
                 <-> In who (map fst m) \/ In who (map author prs).
Proof.
  revert m. induction prs as [|pr prs IH]; intros m Hok Hnd; cbn zeta;
    cbn [fold_left map].
  - split; [exact Hnd |]. intros who. cbn [In]. tauto.
  - apply Forall_cons in Hok as [Hpr Hok].
    assert (Hkeys : map fst (Collector.authorPrStep m pr)
                    = if JS.Map_has m (author pr) then map fst m
                      else map fst m ++ [author pr])
      by (rewrite authorPrStep_cases by exact Hpr; apply Map_set_keys).
    assert (Hnd1 : NoDup (map fst (Collector.authorPrStep m pr))).
    { rewrite Hkeys. destruct (JS.Map_has m (author pr)) eqn:Hhas; [exact Hnd |].
      apply NoDup_app. split; [exact Hnd |]. split; [| apply NoDup_singleton].
      intros k Hk Hk'. apply list_elem_of_In in Hk.
      apply list_elem_of_singleton in Hk'.
      subst k. apply Map_has_In in Hk. congruence. }
    specialize (IH _ Hok Hnd1). cbn zeta in IH. destruct IH as [Hnd' Hin'].
    split; [exact Hnd' |]. intros who. rewrite Hin', Hkeys. cbn [In].
    destruct (JS.Map_has m (author pr)) eqn:Hhas.
    + apply Map_has_In in Hhas. split; [tauto |].
      intros [H|[H|H]]; [tauto | subst who; tauto | tauto].
    + rewrite in_app_iff. cbn [In]. tauto.
Qed.

Lemma author_rows_Permutation (prDetails : list PRDetail) :
  Permutation (Collector.calculateAuthorSummary prDetails)
    (map (fun e : string * Collector.AuthorStats => Collector.authorRow e.1 e.2)
         (fold_left Collector.authorPrStep (validPRs prDetails) [])).
Proof.
  unfold Collector.calculateAuthorSummary, Collector.collectAuthorStats.
  rewrite authorPrStep_valid. apply sort_Permutation.
Qed.

(** X21.  The author summary has exactly one row for each author of a
    usable record, and the rows are in descending order of prsAuthored. *)
Theorem author_summary_rows (prDetails : list PRDetail) :
  let rows := Collector.calculateAuthorSummary prDetails in
  descendingBy as_prsAuthored rows
  /\ NoDup (map as_author rows)
  /\ forall who, In who (map as_author rows)
                 <-> exists pr, In pr (validPRs prDetails) /\ author pr = who.
Proof.
  cbn zeta.
  split; [unfold Collector.calculateAuthorSummary; apply sort_descendingBy |].
  pose proof (author_rows_Permutation prDetails) as Hperm.
  apply (Permutation_map as_author) in Hperm.
  rewrite map_map in Hperm. cbn [as_author Collector.authorRow] in Hperm.
  change (map (fun x : string * Collector.AuthorStats => x.1))
    with (@map (string * Collector.AuthorStats) _ fst) in Hperm.
  pose proof (author_keys (validPRs prDetails) [] (validPRs_usable prDetails)
                (NoDup_nil_2 (A := string))) as Hkeys.
  cbn zeta in Hkeys. destruct Hkeys as [Hnd Hin].
  split.
  - rewrite Hperm. exact Hnd.
  - intros who. rewrite <- !list_elem_of_In, Hperm, list_elem_of_In, Hin.
    cbn [map]. rewrite in_map_iff. split.
    + intros [[]|(pr & Hw & Hp)]. exists pr. split; assumption.
    + intros (pr & Hp & Hw). right. exists pr. split; assumption.
Qed.

(** A counter that every tally increases by an amount that depends on the
    PR alone adds up, over all authors, to the sum of these amounts. *)
Lemma author_counter_total (c : Collector.AuthorStats -> Z) (delta : PRDetail -> Z) :
  (forall who, c (Collector.newAuthorStats who) = 0) ->
  (forall pr st, c (Collector.tallyPr pr st) = c st + delta pr) ->
  forall prs m,
    Forall (fun p => JS.truthyOptString (error p) = false) prs ->
    Spec.sumOver (fun e : string * Collector.AuthorStats => c e.2)
      (fold_left Collector.authorPrStep prs m)
    = Spec.sumOver (fun e : string * Collector.AuthorStats => c e.2) m
      + Spec.sumOver delta prs.
Proof.
  intros Hnew Htally. induction prs as [|pr prs IH]; intros m Hok;
    cbn [fold_left].
  - rewrite sumOver_nil. lia.
  - apply Forall_cons in Hok as [Hpr Hok].
    rewrite IH, sumOver_cons by exact Hok.
    rewrite authorPrStep_cases, Map_set_sum, Htally by exact Hpr.
    destruct (JS.Map_get m (author pr)); cbn [default id]; [lia |].
    rewrite Hnew. lia.
Qed.

Lemma sumOver_const {A} (l : list A) : Spec.sumOver (fun _ => 1) l = lengthZ l.
Proof.
  unfold lengthZ. induction l as [|x l IH]; [reflexivity |].
  rewrite sumOver_cons, IH. cbn [length]. lia.
Qed.

Lemma sumOver_at_least {A} (f : A -> Z) (l : list A) :
  Forall (fun x => 1 <= f x) l -> lengthZ l <= Spec.sumOver f l.
Proof.
  unfold lengthZ. induction 1 as [|x l Hx Hl IH]; [rewrite sumOver_nil; cbn; lia |].
  rewrite sumOver_cons. cbn [length]. lia.
Qed.

Lemma newAuthorStats_consistent (who : string) :
  authorStatsAreConsistent false (Collector.newAuthorStats who).
Proof.
  unfold authorStatsAreConsistent. cbn.
  repeat split; try lia; try constructor.
Qed.

Lemma calculateWorkingHours_nonneg (start end_ : Z) :
  (0 <= Collector.calculateWorkingHours start end_)%Q.
Proof.
  unfold Collector.calculateWorkingHours.
  destruct (end_ <=? start); [apply Qle_refl | apply Q.le_max_l].
Qed.

Lemma tallyPr_consistent (visited : bool) (pr : PRDetail)
    (stats : Collector.AuthorStats) :
  authorStatsAreConsistent visited stats ->
  authorStatsAreConsistent true (Collector.tallyPr pr stats).
Proof.
  unfold authorStatsAreConsistent. intros (Hn & Hrepo & Hclose & Hreview).
  unfold Collector.tallyPr. cbn.
  rewrite countsTotal_bumpCount. repeat split.
  - destruct visited; lia.
  - lia.
  - apply Forall_app. split; [exact Hclose |].
    constructor; [apply calculateWorkingHours_nonneg | constructor].
  - destruct (firstResponseAt pr) as [firstResponse|]; [| exact Hreview].
    destruct (Qle_bool 0 _) eqn:Hle; [| exact Hreview].
    apply Forall_app. split; [exact Hreview |].
    constructor; [apply Qle_bool_iff, Hle | constructor].
Qed.

Lemma author_stats_consistent (prs : list PRDetail) :
  Forall (fun p => JS.truthyOptString (error p) = false) prs ->
  Forall (fun e => authorStatsAreConsistent true e.2)
         (fold_left Collector.authorPrStep prs []).
Proof.
  assert (Hgen : forall prs m,
             Forall (fun p => JS.truthyOptString (error p) = false) prs ->
             Forall (fun e => authorStatsAreConsistent true e.2) m ->
             Forall (fun e => authorStatsAreConsistent true e.2)
                    (fold_left Collector.authorPrStep prs m)).
  { clear prs. induction prs as [|pr prs IH]; intros m Hok Hm; cbn [fold_left];
      [exact Hm |].
    apply Forall_cons in Hok as [Hpr Hok].
    apply IH; [exact Hok |]. rewrite authorPrStep_cases by exact Hpr.
    apply Map_set_Forall; [exact Hm |].
    destruct (JS.Map_get m (author pr)) as [old|] eqn:Hget; cbn [default id].
    - apply (tallyPr_consistent true).
      exact (Map_get_Forall (authorStatsAreConsistent true) m _ _ Hm Hget).
    - apply (tallyPr_consistent false), newAuthorStats_consistent. }
  intros Hok. apply Hgen; [exact Hok | constructor].
Qed.

Lemma sumQ_nonneg (l : list Q) :
  Forall (fun t => (0 <= t)%Q) l -> (0 <= JS.sumQ l)%Q.
Proof.
  unfold JS.sumQ. assert (Hgen : forall acc, (0 <= acc)%Q ->
                            Forall (fun t => (0 <= t)%Q) l ->
                            (0 <= fold_left Qplus l acc)%Q).
  { induction l as [|x l IH]; intros acc Hacc Hl; cbn [fold_left]; [exact Hacc |].
    apply Forall_cons in Hl as [Hx Hl]. apply IH; [lra | exact Hl]. }
  apply Hgen, Qle_refl.
Qed.

Lemma avgQ_nonneg (l : list Q) :
  Forall (fun t => (0 <= t)%Q) l -> (0 <= avgQ l)%Q.
Proof.
  intros Hl. unfold avgQ. destruct (Z.ltb_spec 0 (lengthZ l)); [| apply Qle_refl].
  apply Qle_shift_div_l; [apply inject_Z_pos; assumption |].
  rewrite Qmult_0_l. apply sumQ_nonneg, Hl.
Qed.

Lemma authorRow_consistent (who : string) (stats : Collector.AuthorStats) :
  authorStatsAreConsistent true stats ->
  authorRowIsConsistent (Collector.authorRow who stats).
Proof.
  unfold authorStatsAreConsistent, authorRowIsConsistent.
  intros (Hn & Hrepo & Hclose & Hreview).
  cbn [Collector.authorRow as_prsAuthored as_prsByRepo as_authoredPrAvgCloseTime
       as_authoredPrAvgReviewTime].
  repeat split; [exact Hn | exact Hrepo | |].
  - apply toFixed_nonneg, avgQ_nonneg, Hclose.
  - intros hours. destruct (0 <? lengthZ (Collector.au_reviewTimes stats));
      cbn [Collector.toFixedOrNull]; [| discriminate].
    destruct (JS.truthyQ _); [| discriminate].
    intros [= <-]. apply toFixed_nonneg, avgQ_nonneg, Hreview.
Qed.

(** X22.  Every usable record is counted for exactly one author: the
    prsAuthored column adds up to the number of usable records, which is
    the team's totalPRs; hence the team has at most as many developers as
    PRs. *)
Theorem author_rows_add_up_to_team_totals (prDetails : list PRDetail) :
  let rows := Collector.calculateAuthorSummary prDetails in
  JS.sumZ (map as_prsAuthored rows) = lengthZ (validPRs prDetails)
  /\ forall reviewerSummary,
       let team := Collector.calculateTeamSummary rows reviewerSummary prDetails in
       ta_totalPRs (authored team) = JS.sumZ (map as_prsAuthored rows)
       /\ ta_totalDevelopers (authored team) <= ta_totalPRs (authored team).
Proof.
  cbn zeta.
  assert (Hsum : JS.sumZ (map as_prsAuthored
                            (Collector.calculateAuthorSummary prDetails))
                 = lengthZ (validPRs prDetails)).
  { rewrite sumZ_sumOver, sumOver_map.
    rewrite (sumOver_Permutation _ _ _ (author_rows_Permutation prDetails)).
    rewrite sumOver_map. cbn [Collector.authorRow as_prsAuthored].
    rewrite (author_counter_total Collector.au_prsAuthored (fun _ => 1));
      [| reflexivity | reflexivity | apply validPRs_usable].
    rewrite sumOver_nil, sumOver_const. lia. }
  split; [exact Hsum |]. intros reviewerSummary.
  cbn [Collector.calculateTeamSummary authored ta_totalPRs ta_totalDevelopers].
  fold (validPRs prDetails). rewrite Hsum. split; [reflexivity |].
  rewrite <- Hsum, sumZ_sumOver, sumOver_map.
  change (fun x : AuthorSummary => as_prsAuthored x) with as_prsAuthored.
  apply sumOver_at_least.
  rewrite (author_rows_Permutation prDetails).
  apply Forall_fmap. eapply Forall_impl;
    [apply author_stats_consistent, validPRs_usable |].
  intros [who stats] Hstats. apply (authorRow_consistent who stats Hstats).
Qed.

(** X23.  Every row of the author summary is consistent: the author has at
    least one PR, the per-repository columns add up to prsAuthored, and the
    average close time and a reported average review time are not
    negative. *)
Theorem author_rows_are_consistent (prDetails : list PRDetail) :
  Forall authorRowIsConsistent (Collector.calculateAuthorSummary prDetails).
Proof.
  rewrite (author_rows_Permutation prDetails).
  apply Forall_fmap. eapply Forall_impl;
    [apply author_stats_consistent, validPRs_usable |].
  intros [who stats] Hstats. apply authorRow_consistent, Hstats.
Qed.


(** ** Quality score: monotonicity *)

Lemma clamp100_monotone (x y : Q) :
  (x <= y)%Q -> (Dashboard.clamp100 x <= Dashboard.clamp100 y)%Q.
Proof.
  intros Hxy. unfold Dashboard.clamp100.
  apply Q.max_le_compat_l, Q.min_le_compat_l, Hxy.
Qed.

Lemma Math_round_monotone (x y : Q) :
  (x <= y)%Q -> JS.Math_round x <= JS.Math_round y.
Proof. intros Hxy. unfold JS.Math_round. apply Qfloor_resp_le. lra. Qed.

(** [100 * (1 - v / c)] in double precision does not grow with [v]. *)
Lemma descending_line (c u v : Q) :
  (0 < c)%Q -> (u <= v)%Q ->
  (JS.times 100 (JS.minus 1 (JS.divide v c))
   <= JS.times 100 (JS.minus 1 (JS.divide u c)))%Q.
Proof.
  intros Hc Huv. unfold JS.times, JS.minus, JS.divide.
  assert (Hdiv : (JS.double (u / c) <= JS.double (v / c))%Q).
  { apply double_monotone. unfold Qdiv. apply Qmult_le_compat_r; [exact Huv |].
    apply Qlt_le_weak, Qinv_lt_0_compat, Hc. }
  assert (Hsub : (JS.double (1 - JS.double (v / c))
                  <= JS.double (1 - JS.double (u / c)))%Q)
    by (apply double_monotone; lra).
  apply double_monotone. lra.
Qed.

Lemma minus_monotone (x y k : Q) :
  (x <= y)%Q -> (JS.minus x k <= JS.minus y k)%Q.
Proof. intros Hxy. unfold JS.minus. apply double_monotone. lra. Qed.

Lemma weightedSum_monotone (s1 c1 i1 h1 s2 c2 i2 h2 : Q) :
  (s1 <= s2)%Q -> (c1 <= c2)%Q -> (i1 <= i2)%Q -> (h1 <= h2)%Q ->
  (Dashboard.weightedSum s1 c1 i1 h1 <= Dashboard.weightedSum s2 c2 i2 h2)%Q.
Proof.
  intros Hs Hc Hi Hh. unfold Dashboard.weightedSum, JS.plus, JS.times.
  assert (Hterm : forall a b w : Q, (a <= b)%Q -> (0 <= w)%Q ->
                    (JS.double (a * JS.double w) <= JS.double (b * JS.double w))%Q).
  { intros a b w Hab Hw. apply double_monotone.
    apply Qmult_le_compat_r; [exact Hab | apply double_nonneg, Hw]. }
  pose proof (Hterm s1 s2 (35 # 100) Hs ltac:(discriminate)) as H1.
  pose proof (Hterm c1 c2 (30 # 100) Hc ltac:(discriminate)) as H2.
  pose proof (Hterm i1 i2 (20 # 100) Hi ltac:(discriminate)) as H3.
  pose proof (Hterm h1 h2 (15 # 100) Hh ltac:(discriminate)) as H4.
  set (w35 := JS.double (35 # 100)) in *. set (w30 := JS.double (30 # 100)) in *.
  set (w20 := JS.double (20 # 100)) in *. set (w15 := JS.double (15 # 100)) in *.
  assert (A1 : (JS.double (JS.double (s1 * w35) + JS.double (c1 * w30))
                <= JS.double (JS.double (s2 * w35) + JS.double (c2 * w30)))%Q)
    by (apply double_monotone; lra).
  assert (A2 : (JS.double (JS.double (JS.double (s1 * w35) + JS.double (c1 * w30))
                           + JS.double (i1 * w20))
                <= JS.double (JS.double (JS.double (s2 * w35) + JS.double (c2 * w30))
                              + JS.double (i2 * w20)))%Q)
    by (apply double_monotone; lra).
  apply double_monotone. lra.
Qed.

(** X24.  The quality score never rewards larger numbers: a developer whose
    PR size, file count, iterations, close time and churn are all at least
    those of another scores at most as much, whatever team averages are
    passed. *)
Theorem quality_score_is_monotone (worse better : Dashboard.Developer)
    (team1 team2 : TeamAuthored) :
  noBetterThan worse better ->
  Dashboard.calculateQualityScore worse team1
  <= Dashboard.calculateQualityScore better team2.
Proof.
  intros (Hsize & Hfiles & Hiter & Hchurn & Hclose).
  unfold Dashboard.calculateQualityScore. apply Math_round_monotone.
  assert (Hl : (Dashboard.linesScore worse <= Dashboard.linesScore better)%Q).
  { unfold Dashboard.linesScore.
    apply clamp100_monotone, descending_line; [reflexivity |].
    apply minus_monotone, Hsize. }
  assert (Hf : (Dashboard.filesScore worse <= Dashboard.filesScore better)%Q).
  { unfold Dashboard.filesScore.
    apply clamp100_monotone, descending_line; [reflexivity |].
    apply minus_monotone, Hfiles. }
  apply weightedSum_monotone.
  - unfold Dashboard.sizeScore, JS.divide, JS.plus. apply double_monotone.
    unfold Qdiv. apply Qmult_le_compat_r; [| discriminate].
    apply double_monotone. lra.
  - unfold Dashboard.closeTimeScore.
    destruct (Dashboard.avgWorkingHoursToClose better) as [b|],
             (Dashboard.avgWorkingHoursToClose worse) as [w|];
      try contradiction; [| apply Qle_refl].
    apply clamp100_monotone, descending_line; [reflexivity |].
    apply minus_monotone, Hclose.
  - unfold Dashboard.iterationScore.
    apply clamp100_monotone, descending_line; [reflexivity |].
    apply Q.max_le_compat_l, minus_monotone, Hiter.
  - unfold Dashboard.churnScore.
    apply Q.max_le_compat_l, descending_line; [reflexivity | exact Hchurn].
Qed.

Lemma quality_score_is_monotone_witness :
  Dashboard.calculateQualityScore
    {| Dashboard.avgSrcSize := 250; Dashboard.avgSrcFiles := 7;
       Dashboard.avgIterations := 2;
       Dashboard.avgWorkingHoursToClose := Some 5%Q;
       Dashboard.churnPct := 10 |}
    Samples.noTeam
  <= Dashboard.calculateQualityScore
       {| Dashboard.avgSrcSize := 100; Dashboard.avgSrcFiles := 4;
          Dashboard.avgIterations := 1;
          Dashboard.avgWorkingHoursToClose := Some 2%Q;
          Dashboard.churnPct := 0 |}
       Samples.noTeam.
Proof.
  apply quality_score_is_monotone.
  unfold noBetterThan. cbn. repeat split; discriminate.
Defined.


(** ** Dashboard: the highlight cards *)

Lemma Map_set_NoDup {V} (m : JS.Map V) (k : string) (v : V) :
  NoDup (map fst m) -> NoDup (map fst (JS.Map_set m k v)).
Proof.
  intros Hnd. rewrite Map_set_keys. destruct (JS.Map_has m k) eqn:Hhas; [exact Hnd |].
  apply NoDup_app. split; [exact Hnd |]. split; [| apply NoDup_singleton].
  intros k' Hk Hk'. apply list_elem_of_In in Hk. apply list_elem_of_singleton in Hk'.
  subst k'. apply Map_has_In in Hk. congruence.
Qed.

Lemma Map_get_In {V} (m : JS.Map V) (k : string) (v : V) :
  JS.Map_get m k = Some v -> In (k, v) m.
Proof.
  induction m as [|[k0 v0] m IH]; cbn; [discriminate |].
  destruct (String.eqb_spec k0 k) as [->|Hne].
  - intros [= ->]. left. reflexivity.
  - intros Hget. right. apply IH, Hget.
Qed.

Lemma In_Map_get {V} (m : JS.Map V) (k : string) (v : V) :
  NoDup (map fst m) -> In (k, v) m -> JS.Map_get m k = Some v.
Proof.
  induction m as [|[k0 v0] m IH]; cbn; [intros _ [] |].
  intros Hnd Hin. apply NoDup_cons in Hnd as [Hfresh Hnd].
  destruct (String.eqb_spec k0 k) as [->|Hne].
  - destruct Hin as [[= ->]|Hin]; [reflexivity |].
    exfalso. apply Hfresh. apply list_elem_of_In, in_map_iff.
    exists (k, v). split; [reflexivity | exact Hin].
  - destruct Hin as [[= -> _]|Hin]; [congruence | apply IH; assumption].
Qed.

Lemma Map_get_None {V} (m : JS.Map V) (k : string) :
  JS.Map_get m k = None <-> ~ In k (map fst m).
Proof.
  rewrite <- Map_has_In. unfold JS.Map_has.
  destruct (JS.Map_get m k); split; intros H; congruence.
Qed.

Lemma orZ_default (o : option Z) : JS.orZ o 0 = default 0 o.
Proof.
  destruct o as [x|]; [| reflexivity]. cbn. unfold JS.truthyZ.
  destruct (Z.eqb_spec x 0); cbn; congruence.
Qed.

Lemma sumOver_filter_cons {A} (f : A -> Z) (p : A -> bool) (x : A) (l : list A) :
  Spec.sumOver f (List.filter p (x :: l))
  = (if p x then f x else 0) + Spec.sumOver f (List.filter p l).
Proof.
  cbn [List.filter]. destruct (p x); [apply sumOver_cons | lia].
Qed.

(** What the two loops over the summaries leave in [activityMap]. *)
Lemma activity_fold {A} (key : A -> string) (val : A -> Z) (items : list A)
    (m : JS.Map Z) :
  NoDup (map fst m) ->
  let m' := fold_left (fun m a => Dashboard.addActivity m (key a) (val a)) items m in
  NoDup (map fst m')
  /\ forall k,
       default 0 (JS.Map_get m' k)
       = default 0 (JS.Map_get m k)
         + Spec.sumOver val (List.filter (fun a => String.eqb (key a) k) items)
       /\ (In k (map fst m') <-> In k (map fst m) \/ In k (map key items)).
Proof.
  revert m. induction items as [|a items IH]; intros m Hnd; cbn zeta;
    cbn [fold_left].
  - split; [exact Hnd |]. intros k. cbn [List.filter map In].
    rewrite sumOver_nil. split; [lia | tauto].
  - destruct (IH (Dashboard.addActivity m (key a) (val a))
                 (Map_set_NoDup _ _ _ Hnd)) as [Hnd' Hall].
    cbn zeta in Hall. split; [exact Hnd' |]. intros k.
    destruct (Hall k) as [Hget Hin]. rewrite Hget, Hin. clear Hget Hin Hall.
    unfold Dashboard.addActivity. rewrite Map_get_set, Map_set_keys, orZ_default.
    rewrite sumOver_filter_cons. cbn [map In]. split.
    + destruct (String.eqb_spec (key a) k) as [->|Hne]; cbn [default id]; lia.
    + destruct (JS.Map_has m (key a)) eqn:Hhas.
      * apply Map_has_In in Hhas. split; [tauto |].
        intros [H|[H|H]]; [tauto | subst k; tauto | tauto].
      * rewrite in_app_iff. cbn [In]. tauto.
Qed.

(** The loop that looks for the largest activity. *)
Lemma moreActive_fold (m : JS.Map Z) (best : Z * option string) :
  let r := fold_left Dashboard.moreActive m best in
  best.1 <= r.1
  /\ (forall e, In e m -> e.2 <= r.1)
  /\ (r = best \/ exists e, In e m /\ r = (e.2, Some e.1) /\ best.1 < e.2).
Proof.
  revert best. induction m as [|[name activity] m IH]; intros best; cbn zeta;
    cbn [fold_left].
  - split; [lia |]. split; [intros e [] | left; reflexivity].
  - destruct (IH (Dashboard.moreActive best (name, activity)))
      as (Hle & Hall & Hcase).
    cbn zeta in Hle, Hall, Hcase.
    set (r := fold_left Dashboard.moreActive m _) in *.
    unfold Dashboard.moreActive in Hle, Hcase.
    destruct (Z.ltb_spec best.1 activity) as [Hlt|Hge]; cbn [fst snd] in *.
    + split; [lia |]. split.
      * intros e [<-|He]; [cbn; lia | apply Hall, He].
      * right. destruct Hcase as [Hr|(e & He & Hr & Hlt')].
        -- exists (name, activity). split; [left; reflexivity |].
           split; [exact Hr | exact Hlt].
        -- exists e. split; [right; exact He |]. split; [exact Hr | lia].
    + split; [lia |]. split.
      * intros e [<-|He]; [cbn; lia | apply Hall, He].
      * destruct Hcase as [Hr|(e & He & Hr & Hlt')]; [left; exact Hr |].
        right. exists e. split; [right; exact He |]. split; [exact Hr | exact Hlt'].
Qed.

(** X25.  findMostActiveDeveloper returns a listed, non-empty name together
    with its activity (PRs authored plus reviews done), which is positive
    and the largest of all; it returns null only if nobody has a positive
    activity or the largest activity belongs to the empty name. *)
Theorem most_active_developer (data : Dashboard.MetricsData) :
  match Dashboard.findMostActiveDeveloper data with
  | Some (name, activity) =>
      isListed data name /\ name <> EmptyString
      /\ activity = activityOf data name /\ 0 < activity
      /\ forall other, activityOf data other <= activity
  | None =>
      (forall name, activityOf data name <= 0)
      \/ (0 < activityOf data EmptyString
          /\ forall other, activityOf data other <= activityOf data EmptyString)
  end.
Proof.
  unfold Dashboard.findMostActiveDeveloper. cbv zeta.
  destruct (activity_fold as_author as_prsAuthored (Dashboard.md_authorSummary data)
              [] (NoDup_nil_2 (A := string))) as [Hnd1 Hall1].
  cbn zeta in Hall1.
  match goal with
  | |- context [fold_left ?f (Dashboard.md_authorSummary data) []] =>
      set (m1 := fold_left f (Dashboard.md_authorSummary data) []) in *
  end.
  destruct (activity_fold rs_reviewer rs_totalReviews (Dashboard.md_summary data)
              m1 Hnd1) as [Hnd2 Hall2].
  cbn zeta in Hall2.
  match goal with
  | |- context [fold_left ?f (Dashboard.md_summary data) m1] =>
      set (m2 := fold_left f (Dashboard.md_summary data) m1) in *
  end.
  assert (Hact : forall k, default 0 (JS.Map_get m2 k) = activityOf data k).
  { intros k. destruct (Hall2 k) as [-> _]. destruct (Hall1 k) as [-> _].
    unfold activityOf. cbn. lia. }
  assert (Hlisted : forall k, In k (map fst m2) <-> isListed data k).
  { intros k. destruct (Hall2 k) as [_ ->]. destruct (Hall1 k) as [_ ->].
    unfold isListed. cbn [map In]. tauto. }
  destruct (moreActive_fold m2 (0, None)) as (Hle & Hmax & Hcase).
  cbn zeta in Hle, Hmax, Hcase. cbn [fst] in Hle.
  set (r := fold_left Dashboard.moreActive m2 (0, None)) in *.
  assert (Hothers : forall other, activityOf data other <= r.1).
  { intros other. rewrite <- Hact.
    destruct (JS.Map_get m2 other) as [v|] eqn:Hget; cbn [default id]; [| exact Hle].
    apply (Hmax (other, v)), Map_get_In, Hget. }
  destruct Hcase as [Hr|([name activity] & He & Hr & Hpos)].
  - rewrite Hr. cbn [snd]. left. intros name. rewrite Hr in Hothers. apply Hothers.
  - rewrite Hr in *. cbn [fst snd] in *.
    assert (Hname : activity = activityOf data name)
      by (rewrite <- Hact, (In_Map_get m2 name activity Hnd2 He); reflexivity).
    destruct name as [|c name]; cbn [JS.truthyString].
    + right. rewrite <- Hname. split; [exact Hpos | exact Hothers].
    + split; [| split; [discriminate | split; [exact Hname | split; [exact Hpos | exact Hothers]]]].
      apply Hlisted, in_map_iff. exists (String c name, activity).
      split; [reflexivity | exact He].
Qed.


(** ** Dashboard: grouping by name and picking the best entry *)





(** The entry that the picking loop keeps. *)
Section Best.
Context {E V : Type} (value : E -> option V) (name : E -> string)
        (beats : V -> V -> bool) (notWorse : V -> V -> Prop).
Hypothesis notWorse_refl : forall v, notWorse v v.
Hypothesis notWorse_trans :
  forall a b c, notWorse a b -> notWorse b c -> notWorse a c.
Hypothesis beats_true : forall v b, beats v b = true -> notWorse v b.
Hypothesis beats_false : forall v b, beats v b = false -> notWorse b v.


End Best.


(** ** Dashboard: fastest velocity, most responsive reviewer, top quality *)



(** Grouping, then picking: the entry kept has the best value among the
    groups that have one. *)
Section Pick.
Context {A V W : Type} (key : A -> option string) (samples : A -> list V)
        (value : list V -> option W)
        (beats : W -> W -> bool) (notWorse : W -> W -> Prop)
        (items : list A) (group : string -> list V).
Hypothesis notWorse_refl : forall v, notWorse v v.
Hypothesis notWorse_trans :
  forall a b c, notWorse a b -> notWorse b c -> notWorse a c.
Hypothesis beats_true : forall v b, beats v b = true -> notWorse v b.
Hypothesis beats_false : forall v b, beats v b = false -> notWorse b v.
Hypothesis value_nil : value [] = None.
Hypothesis group_spec :
  forall k,
    flat_map samples (List.filter (fun a => bool_decide (key a = Some k)) items)
    = group k.


End Pick.











